(** * TaskPulse: the task store and its derived statistics

    A shallow embedding of [src/app/page.tsx] (the category-aware variant of
    the page component) and the properties of its date helpers, Firestore
    mappers, chart helper, task actions and derived statistics.

    Modelling conventions.
    - A JavaScript [number] is an exact integer or [NaN]; the program only
      stores counts and millisecond time stamps in its numbers.
    - A JavaScript string is a [string] of 8-bit characters.
    - An optional field ([doneAt?: number]) is an [option]; [None] is both
      the missing property and the property holding [undefined].
    - A [Date] is read through its local calendar fields only, so it is the
      local day number (days since 1970-01-01) and the milliseconds elapsed
      within that local day; the zone offset is taken as constant.
    - The React state of the component, the browser's local storage slot and
      the calls issued to Firestore form one record, [State]; an event
      handler is a function on it.
    - What a handler reads from its surroundings is its [Env]: a fresh id,
      the clock, and whether the remote store rejects a call. The builtins
      whose results the platform decides ([Number] and [new Date] on a
      string, [Math.log10]) are parameters. *)

From Stdlib Require Import ZArith Lia List QArith Sorted.
From stdpp Require Import base list strings gmap pretty.
Local Open Scope Z_scope.

(* ================================================================= *)
(** ** Numbers and dynamically typed values *)

Inductive number :=
| Num (z : Z)
| NaN.

#[global] Instance number_eq_dec : EqDecision number.
Proof. solve_decision. Defined.

(** [a - b] on numbers. *)
Definition num_sub (a b : number) : number :=
  match a, b with
  | Num x, Num y => Num (x - y)
  | _, _ => NaN
  end.

(** [String(n)] for a number; the integers the program handles (counts,
    calendar fields, time stamps) are below 10^21 and print in plain
    decimal. *)
Definition number_to_string (n : number) : string :=
  match n with
  | Num z => pretty z
  | NaN => "NaN"
  end.

(** The values a task document can hold: primitives, and [JObject] for an
    object without [toString]/[valueOf] of its own (the [serverTimestamp()]
    sentinel is one). *)
Inductive jsval :=
| JUndefined
| JNull
| JBool (b : bool)
| JNum (n : number)
| JStr (s : string)
| JObject.

(** [v == null] *)
Definition is_nullish (v : jsval) : bool :=
  match v with
  | JUndefined | JNull => true
  | _ => false
  end.

(** [v ?? d] *)
Definition nullish_or (v d : jsval) : jsval :=
  if is_nullish v then d else v.

(** [String(v)] *)
Definition ToString (v : jsval) : string :=
  match v with
  | JUndefined => "undefined"
  | JNull => "null"
  | JBool true => "true"
  | JBool false => "false"
  | JNum n => number_to_string n
  | JStr s => s
  | JObject => "[object Object]"
  end.

(** [Boolean(v)] *)
Definition ToBoolean (v : jsval) : bool :=
  match v with
  | JUndefined | JNull => false
  | JBool b => b
  | JNum (Num z) => negb (z =? 0)
  | JNum NaN => false
  | JStr s => negb (bool_decide (s = ""))
  | JObject => true
  end.

(** Truthiness of a string ([if (s)], [!s]). *)
Definition truthy (s : string) : bool := negb (bool_decide (s = "")).

(** [o ?? d] on an optional string. *)
Definition opt_or (o : option string) (d : string) : string :=
  match o with
  | Some s => s
  | None => d
  end.

(* ================================================================= *)
(** ** Types *)

Definition Category := string.
Definition daily : Category := "daily".
Definition workout : Category := "workout".
Definition work : Category := "work".

Definition WorkoutPart := string.

Record Todo := {
  id : string;
  text : string;
  done : bool;
  createdAt : number;
  category : Category;
  doneAt : option number;
  doneDay : option string;
  dueDay : option string;
  workoutPart : option WorkoutPart;
}.

Module Filter.
Inductive t := all | today | tomorrow | week | active | done.
End Filter.

Inductive WeekdayKey := mon | tue | wed | thu | fri | sat | sun.

Record PlanRow := { enabled : bool; part : WorkoutPart }.

Definition WorkoutPlan := WeekdayKey -> PlanRow.

Definition defaultPlan : WorkoutPlan := fun k =>
  match k with
  | mon => {| enabled := false; part := "chest" |}
  | tue => {| enabled := false; part := "back" |}
  | wed => {| enabled := false; part := "legs" |}
  | thu => {| enabled := false; part := "shoulders" |}
  | fri => {| enabled := false; part := "arms" |}
  | sat => {| enabled := false; part := "core" |}
  | sun => {| enabled := false; part := "cardio" |}
  end.

(* ================================================================= *)
(** ** Date helpers *)

(** A [Date], in local time. *)
Record Date := {
  day : Z;   (* local calendar day, counted from 1970-01-01 *)
  tod : Z;   (* milliseconds since local midnight *)
}.

(** The proleptic Gregorian calendar of ECMAScript: the civil date
    [(year, month 1..12, day of month)] of a day number. *)
Definition civil_from_days (z0 : Z) : Z * Z * Z :=
  let z := z0 + 719468 in
  let era := z / 146097 in
  let doe := z - era * 146097 in
  let yoe := (doe - doe / 1460 + doe / 36524 - doe / 146096) / 365 in
  let y := yoe + era * 400 in
  let doy := doe - (365 * yoe + yoe / 4 - yoe / 100) in
  let mp := (5 * doy + 2) / 153 in
  let d := doy - (153 * mp + 2) / 5 + 1 in
  let m := if mp <? 10 then mp + 3 else mp - 9 in
  (if m <=? 2 then y + 1 else y, m, d).

(** The day number of a civil date. *)
Definition days_from_civil (c : Z * Z * Z) : Z :=
  let '(y0, m, d) := c in
  let y := if m <=? 2 then y0 - 1 else y0 in
  let era := y / 400 in
  let yoe := y - era * 400 in
  let doy := (153 * (if 2 <? m then m - 3 else m + 9) + 2) / 5 + d - 1 in
  let doe := yoe * 365 + yoe / 4 - yoe / 100 + doy in
  era * 146097 + doe - 719468.

Definition getFullYear (d : Date) : Z := (civil_from_days (day d)).1.1.
(** [getMonth] counts months from 0. *)
Definition getMonth (d : Date) : Z := (civil_from_days (day d)).1.2 - 1.
Definition getDate (d : Date) : Z := (civil_from_days (day d)).2.
(** [getDay]: 0 = Sunday .. 6 = Saturday; 1970-01-01 was a Thursday. *)
Definition getDay (d : Date) : Z := (day d + 4) mod 7.

(** [d.setDate(n)]: day [n] of [d]'s month, where [n] may lie outside the
    month (day 0 is the last day of the month before). The time of day is
    kept, as the platform keeps it unless that local time does not exist
    on the new day (a clock change moves it forward within the day); the
    day is what the program reads from a date it has moved. *)
Definition setDate (d : Date) (n : Z) : Date :=
  {| day := day d - (getDate d - 1) + (n - 1); tod := tod d |}.

(** [d.setHours(0, 0, 0, 0)] *)
Definition setHours0 (d : Date) : Date := {| day := day d; tod := 0 |}.

(** [String(n).padStart(2, "0")] *)
Definition pad2 (n : Z) : string :=
  let s := pretty n in
  match String.length s with
  | O => "00"
  | S O => "0" +:+ s
  | _ => s
  end.

Definition dayKey (d : Date) : string :=
  pretty (getFullYear d) +:+ "-" +:+ pad2 (getMonth d + 1) +:+ "-" +:+ pad2 (getDate d).

Definition addDays (base : Date) (days : Z) : Date :=
  let d := base in
  setDate d (getDate d + days).

Definition startOfWeekMonday (d : Date) : Date :=
  let x := d in
  let day := getDay x in
  let diff := if day =? 0 then -6 else 1 - day in
  setHours0 (setDate x (getDate x + diff)).

(** [Array.from({ length: 7 }, (_, i) => dayKey(addDays(start, i)))] *)
Definition weekKeysMonSun (d : Date) : list string :=
  let start := startOfWeekMonday d in
  map (fun i => dayKey (addDays start i)) (seqZ 0 7).

Definition toWeekdayKeyFromDate (d : Date) : WeekdayKey :=
  let day := getDay d in
  if day =? 0 then sun
  else if day =? 1 then mon
  else if day =? 2 then tue
  else if day =? 3 then wed
  else if day =? 4 then thu
  else if day =? 5 then fri
  else sat.

(* ================================================================= *)
(** ** Chart helper *)

(** The exact value of [floor(log10(n))] for [n >= 1], computed by counting
    the divisions by ten that keep the quotient above 9: the exponent of
    the largest power of ten that does not exceed [n]. *)
Fixpoint floor_log10_aux (fuel : nat) (n : Z) : Z :=
  match fuel with
  | O => 0
  | S f => if n <? 10 then 0 else 1 + floor_log10_aux f (n / 10)
  end.

Definition floor_log10 (n : Z) : Z := floor_log10_aux (Z.to_nat (Z.log2 n)) n.

Section Chart.

(** [Math.floor(Math.log10(n))] as the platform computes it. [Math.log10]
    returns a double that approximates the logarithm, so just below a
    power of ten its result can be the next integer: the logarithm of
    999999999999999 is 15 - 4.3e-16, and the doubles next to it are 15 and
    15 - 1.8e-15. *)
Variable Math_floor_log10 : Z -> Z.

(** [niceCeil] on an integer count. The power [p] and the comparisons of
    the mantissa [m = n / p] with 2 and 5 are exact for integers in the
    double range ([m] is a rational here). *)
Definition niceCeil (n : Z) : Z :=
  if n <=? 10 then 10
  else if n <=? 20 then 20
  else if n <=? 50 then 50
  else if n <=? 100 then 100
  else
    let p := 10 ^ Math_floor_log10 n in
    let m : Q := Qmake n (Z.to_pos p) in
    if Qle_bool m (inject_Z 2) then 2 * p
    else if Qle_bool m (inject_Z 5) then 5 * p
    else 10 * p.

End Chart.

(* ================================================================= *)
(** ** Firestore mappers *)

(** A document is a finite map from field names to values,
    [gmap string jsval]. *)

(** [data?.k]: a missing property reads as [undefined]. *)
Definition prop (data : gmap string jsval) (k : string) : jsval :=
  match data !! k with
  | Some v => v
  | None => JUndefined
  end.

(** The [FieldValue] sentinel returned by [serverTimestamp()]. *)
Definition serverTimestamp : jsval := JObject.

(** [o ?? null] for an optional field written to a document. *)
Definition num_or_null (o : option number) : jsval :=
  match o with
  | Some n => JNum n
  | None => JNull
  end.

Definition str_or_null (o : option string) : jsval :=
  match o with
  | Some s => JStr s
  | None => JNull
  end.

Definition toFirestoreTodo (t : Todo) : gmap string jsval :=
  <["text" := JStr (text t)]>
  (<["done" := JBool (done t)]>
  (<["createdAt" := JNum (createdAt t)]>
  (<["category" := JStr (category t)]>
  (<["doneAt" := num_or_null (doneAt t)]>
  (<["doneDay" := str_or_null (doneDay t)]>
  (<["dueDay" := str_or_null (dueDay t)]>
  (<["workoutPart" := str_or_null (workoutPart t)]>
  (<["updatedAt" := serverTimestamp]> ∅)))))))).

Section Mappers.

(** The numeric value of a string ([Number("12")]): the StringToNumber
    grammar of the language, which the mappers only pass through. *)
Variable StringToNumber : string -> number.

(** [Number(v)] *)
Definition ToNumber (v : jsval) : number :=
  match v with
  | JUndefined => NaN
  | JNull => Num 0
  | JBool true => Num 1
  | JBool false => Num 0
  | JNum n => n
  | JStr s => StringToNumber s
  | JObject => NaN
  end.

(** [now] is the value of [Date.now()] at the time of the read. *)
Definition fromFirestoreTodo (now : Z) (id : string) (data : gmap string jsval) : Todo :=
  let cat := ToString (nullish_or (prop data "category") (JStr "daily")) in
  {| id := id;
     text := ToString (nullish_or (prop data "text") (JStr ""));
     done := ToBoolean (nullish_or (prop data "done") (JBool false));
     createdAt := ToNumber (nullish_or (prop data "createdAt") (JNum (Num now)));
     category := cat;
     doneAt :=
       if is_nullish (prop data "doneAt") then None
       else Some (ToNumber (prop data "doneAt"));
     doneDay :=
       if is_nullish (prop data "doneDay") then None
       else Some (ToString (prop data "doneDay"));
     dueDay :=
       if is_nullish (prop data "dueDay") then None
       else Some (ToString (prop data "dueDay"));
     workoutPart :=
       if is_nullish (prop data "workoutPart") then None
       else Some (ToString (prop data "workoutPart")) |}.

End Mappers.

(* ================================================================= *)
(** ** Sorting and plain objects used as counters *)

(** [Array.prototype.sort] with a comparator is a stable sort; on input
    that the comparator orders consistently the result of a stable sort is
    unique, and it is the one this insertion sort computes. A comparator
    result that is [NaN] counts as [+0]. Where the comparator is not
    consistent (a creation time that is [NaN]) the order is left to the
    implementation: of such input only what every implementation does is
    stated below, that the result is a rearrangement of the input; the
    orders are stated for numeric creation times. *)
Definition cmp_positive (r : number) : bool :=
  match r with
  | Num z => 0 <? z
  | NaN => false
  end.

Fixpoint insert_by (cmp : Todo -> Todo -> number) (x : Todo) (l : list Todo) : list Todo :=
  match l with
  | [] => [x]
  | y :: l' => if cmp_positive (cmp x y) then y :: insert_by cmp x l' else x :: l
  end.

Definition sort_by (cmp : Todo -> Todo -> number) (l : list Todo) : list Todo :=
  foldr (insert_by cmp) [] l.

(** The value of a property of a counter object: a number, or what
    [+= 1] leaves behind when the property was not a number ([PJunk], a
    string whose text is never read). *)
Inductive pval :=
| PNum (n : Z)
| PJunk.

(** The property names every plain object inherits from [Object.prototype];
    the [in] operator sees them. *)
Definition proto_names : list string :=
  ["constructor"; "hasOwnProperty"; "isPrototypeOf"; "propertyIsEnumerable";
   "toLocaleString"; "toString"; "valueOf"; "__proto__";
   "__defineGetter__"; "__defineSetter__"; "__lookupGetter__"; "__lookupSetter__"].

(** [Object.fromEntries(keys.map((k) => [k, 0]))] *)
Definition zero_counters (keys : list string) : gmap string pval :=
  foldl (fun o k => <[k := PNum 0]> o) ∅ keys.

(** [k in o] *)
Definition has_in (o : gmap string pval) (k : string) : bool :=
  bool_decide (is_Some (o !! k)) || bool_decide (k ∈ proto_names).

(** [o[k] += 1]. On an inherited name the sum is a string, stored as an own
    property; assigning a string to [__proto__] changes nothing. *)
Definition incr (o : gmap string pval) (k : string) : gmap string pval :=
  match o !! k with
  | Some (PNum n) => <[k := PNum (n + 1)]> o
  | Some PJunk => o
  | None => if bool_decide (k = "__proto__") then o else <[k := PJunk]> o
  end.

(** [if (k in o) o[k] += 1] *)
Definition bump (o : gmap string pval) (k : string) : gmap string pval :=
  if has_in o k then incr o k else o.

(** [o[k]] read as a count; the keys read are own properties created by
    [zero_counters], which always hold numbers (see [counter_read]). *)
Definition read_count (o : gmap string pval) (k : string) : Z :=
  match o !! k with
  | Some (PNum n) => n
  | _ => 0
  end.

(* ================================================================= *)
(** ** The component state, local storage and the remote store *)

(** A call issued to Firestore on the signed-in user's task collection. *)
Inductive RemoteCall :=
| SetDocMerge (uid : string) (id : string) (data : gmap string jsval)
| UpdateDoc (uid : string) (id : string) (data : gmap string jsval)
| DeleteDoc (uid : string) (id : string).

Module St.
Record State := {
  user : option string;          (* uid of the signed-in user *)
  category : Category;
  text : string;
  due : string;
  workoutPart : WorkoutPart;
  inlineDay : option string;
  inlineText : string;
  todos : list Todo;
  loaded : bool;
  plan : WorkoutPlan;
  cache : option (list Todo);    (* the snapshot stored under LS_KEY *)
  remote : list RemoteCall;      (* calls issued so far, oldest first *)
}.

Definition set_text (v : string) (s : State) : State :=
  {| user := user s; category := category s; text := v; due := due s;
     workoutPart := workoutPart s; inlineDay := inlineDay s;
     inlineText := inlineText s; todos := todos s; loaded := loaded s;
     plan := plan s; cache := cache s; remote := remote s |}.

Definition set_inlineDay (v : option string) (s : State) : State :=
  {| user := user s; category := category s; text := text s; due := due s;
     workoutPart := workoutPart s; inlineDay := v;
     inlineText := inlineText s; todos := todos s; loaded := loaded s;
     plan := plan s; cache := cache s; remote := remote s |}.

Definition set_inlineText (v : string) (s : State) : State :=
  {| user := user s; category := category s; text := text s; due := due s;
     workoutPart := workoutPart s; inlineDay := inlineDay s;
     inlineText := v; todos := todos s; loaded := loaded s;
     plan := plan s; cache := cache s; remote := remote s |}.

Definition set_todos (v : list Todo) (s : State) : State :=
  {| user := user s; category := category s; text := text s; due := due s;
     workoutPart := workoutPart s; inlineDay := inlineDay s;
     inlineText := inlineText s; todos := v; loaded := loaded s;
     plan := plan s; cache := cache s; remote := remote s |}.

Definition set_cache (v : option (list Todo)) (s : State) : State :=
  {| user := user s; category := category s; text := text s; due := due s;
     workoutPart := workoutPart s; inlineDay := inlineDay s;
     inlineText := inlineText s; todos := todos s; loaded := loaded s;
     plan := plan s; cache := v; remote := remote s |}.

Definition set_remote (v : list RemoteCall) (s : State) : State :=
  {| user := user s; category := category s; text := text s; due := due s;
     workoutPart := workoutPart s; inlineDay := inlineDay s;
     inlineText := inlineText s; todos := todos s; loaded := loaded s;
     plan := plan s; cache := cache s; remote := v |}.
End St.

(** What a handler reads from its environment when it runs. *)
Record Env := {
  randomUUID : string;   (* crypto.randomUUID() *)
  clock : Date;          (* new Date() *)
  stamp : Z;             (* Date.now() *)
  rejects : RemoteCall -> bool;   (* the remote store rejects the call *)
}.

(** The effect [localStorage.setItem(LS_KEY, JSON.stringify(todos))],
    which runs after every render that changed [todos], once [loaded]. *)
Definition persistTodos (s : St.State) : St.State :=
  if St.loaded s then St.set_cache (Some (St.todos s)) s else s.

(** [setTodos((prev) => f(prev))], followed by the effects of the render. *)
Definition setTodos (f : list Todo -> list Todo) (s : St.State) : St.State :=
  persistTodos (St.set_todos (f (St.todos s)) s).

Definition issue (c : RemoteCall) (s : St.State) : St.State :=
  St.set_remote (St.remote s ++ [c]) s.

Definition upsertRemote (todo : Todo) (s : St.State) : St.State :=
  match St.user s with
  | None => s
  | Some uid => issue (SetDocMerge uid (id todo) (toFirestoreTodo todo)) s
  end.

(** [Partial<Todo>]: a field is missing ([None]) or present, possibly
    holding [undefined] ([Some None]). *)
Record Patch := {
  p_text : option (option string);
  p_done : option (option bool);
  p_createdAt : option (option number);
  p_doneAt : option (option number);
  p_doneDay : option (option string);
  p_dueDay : option (option string);
  p_category : option (option Category);
  p_workoutPart : option (option WorkoutPart);
}.

(** [if (k in patch) data.k = conv(patch.k)] *)
Definition put_field {A} (k : string) (field : option (option A))
    (conv : option A -> jsval) (data : gmap string jsval)
    : gmap string jsval :=
  match field with
  | Some v => <[k := conv v]> data
  | None => data
  end.

Definition patchData (now : Z) (patch : Patch) : gmap string jsval :=
  let data : gmap string jsval := <["updatedAt" := serverTimestamp]> ∅ in
  let data := put_field "text" (p_text patch) (fun v => JStr (default "" v)) data in
  let data := put_field "done" (p_done patch) (fun v => JBool (default false v)) data in
  let data := put_field "createdAt" (p_createdAt patch)
                (fun v => JNum (default (Num now) v)) data in
  let data := put_field "doneAt" (p_doneAt patch) num_or_null data in
  let data := put_field "doneDay" (p_doneDay patch) str_or_null data in
  let data := put_field "dueDay" (p_dueDay patch) str_or_null data in
  let data := put_field "category" (p_category patch)
                (fun v => JStr (default "daily" v)) data in
  let data := put_field "workoutPart" (p_workoutPart patch) str_or_null data in
  data.

Definition patchRemote (now : Z) (id : string) (patch : Patch) (s : St.State) : St.State :=
  match St.user s with
  | None => s
  | Some uid => issue (UpdateDoc uid id (patchData now patch)) s
  end.

Definition deleteRemote (id : string) (s : St.State) : St.State :=
  match St.user s with
  | None => s
  | Some uid => issue (DeleteDoc uid id) s
  end.

(** [String.prototype.trim]: white space and line terminators of the 8-bit
    range are removed at both ends. *)
Definition is_white_space (c : Ascii.ascii) : bool :=
  bool_decide (Ascii.nat_of_ascii c ∈ [9; 10; 11; 12; 13; 32; 160]%nat).

Fixpoint trimStart (s : string) : string :=
  match s with
  | EmptyString => EmptyString
  | String c s' => if is_white_space c then trimStart s' else s
  end.

Definition trimEnd (s : string) : string :=
  String.rev (trimStart (String.rev s)).

Definition trim (s : string) : string := trimEnd (trimStart s).

(* ================================================================= *)
(** ** Derived values *)

(** [todos.filter((t) => t.category === category)] *)
Definition todosInCat (todos : list Todo) (cat : Category) : list Todo :=
  List.filter (fun t => bool_decide (category t = cat)) todos.

Definition doneCount (inCat : list Todo) : nat :=
  length (List.filter (fun t => done t) inCat).

(** The set built by
    [for (const t of todosInCat) if (t.done && t.doneDay) doneDays.add(t.doneDay)]. *)
Definition doneDays (inCat : list Todo) : gset string :=
  foldl (fun acc t =>
           match doneDay t with
           | Some k => if done t && truthy k then {[k]} ∪ acc else acc
           | None => acc
           end) ∅ inCat.

(** The [while (true)] loop of [streak], run for at most [fuel] rounds:
    [None] when the rounds are used up before the loop breaks. *)
Fixpoint streak_loop (fuel : nat) (days : gset string) (s : nat) (d : Date) : option nat :=
  match fuel with
  | O => None
  | S fuel' =>
      let k := dayKey d in
      if bool_decide (k ∈ days) then
        streak_loop fuel' days (S s) (setDate d (getDate d - 1))
      else Some s
  end.

Definition streak (fuel : nat) (inCat : list Todo) (now : Date) : option nat :=
  streak_loop fuel (doneDays inCat) 0%nat now.

(* ================================================================= *)
(** ** Actions *)

Section Actions.

(** [new Date(s)] for a string: the date parser of the platform, [None]
    for an invalid date. *)
Variable DateParse : string -> option Date.

(** [toWeekdayKeyFromDate(new Date(s))]; the [getDay()] of an invalid date
    is [NaN], which falls through every comparison. *)
Definition weekdayOfString (s : string) : WeekdayKey :=
  match DateParse s with
  | Some d => toWeekdayKeyFromDate d
  | None => sat
  end.

Definition baseTodo (e : Env) (trimmed : string) (cat : Category) : Todo :=
  {| id := randomUUID e; text := trimmed; done := false;
     createdAt := Num (stamp e); category := cat;
     doneAt := None; doneDay := None; dueDay := None; workoutPart := None |}.

(** [{ ...t, dueDay: d }] and [{ ...t, dueDay: d, workoutPart: p }] *)
Definition with_dueDay (t : Todo) (d : string) : Todo :=
  {| id := id t; text := text t; done := done t; createdAt := createdAt t;
     category := category t; doneAt := doneAt t; doneDay := doneDay t;
     dueDay := Some d; workoutPart := workoutPart t |}.

Definition with_dueDay_part (t : Todo) (d : string) (p : WorkoutPart) : Todo :=
  {| id := id t; text := text t; done := done t; createdAt := createdAt t;
     category := category t; doneAt := doneAt t; doneDay := doneDay t;
     dueDay := Some d; workoutPart := Some p |}.

(** The task built by [addTodo]. *)
Definition newTodo_add (e : Env) (s : St.State) (trimmed : string) : Todo :=
  let base := baseTodo e trimmed (St.category s) in
  if bool_decide (St.category s = "workout") then
    with_dueDay_part base (St.due s) (St.workoutPart s)
  else if bool_decide (St.category s = "work") then
    with_dueDay base (St.due s)
  else base.

Definition addTodo (e : Env) (s : St.State) : St.State :=
  match St.user s with
  | None => s
  | Some _ =>
      let trimmed := trim (St.text s) in
      if negb (truthy trimmed) then s
      else
        let newTodo := newTodo_add e s trimmed in
        let s := setTodos (fun prev => newTodo :: prev) s in
        let s := St.set_text "" s in
        upsertRemote newTodo s
  end.

(** The task built by [addTodoInline(day)]. *)
Definition newTodo_inline (e : Env) (s : St.State) (trimmed : string) (day : string) : Todo :=
  let base := baseTodo e trimmed (St.category s) in
  if bool_decide (St.category s = "workout") then
    let wd := weekdayOfString day in
    let planned := St.plan s wd in
    let part := if enabled planned then part planned else St.workoutPart s in
    with_dueDay_part base day part
  else if bool_decide (St.category s = "work") then
    with_dueDay base day
  else base.

Definition addTodoInline (e : Env) (day : string) (s : St.State) : St.State :=
  match St.user s with
  | None => s
  | Some _ =>
      let trimmed := trim (St.inlineText s) in
      if negb (truthy trimmed) then s
      else
        let newTodo := newTodo_inline e s trimmed day in
        let s := setTodos (fun prev => newTodo :: prev) s in
        let s := St.set_inlineText "" s in
        let s := St.set_inlineDay None s in
        upsertRemote newTodo s
  end.

End Actions.

(** [{ ...current, done: false, doneAt: undefined, doneDay: undefined }] *)
Definition mark_not_done (current : Todo) : Todo :=
  {| id := id current; text := text current; done := false;
     createdAt := createdAt current; category := category current;
     doneAt := None; doneDay := None;
     dueDay := dueDay current; workoutPart := workoutPart current |}.

(** [{ ...current, done: true, doneAt: Date.now(), doneDay: today }] *)
Definition mark_done (current : Todo) (now : Z) (today : string) : Todo :=
  {| id := id current; text := text current; done := true;
     createdAt := createdAt current; category := category current;
     doneAt := Some (Num now); doneDay := Some today;
     dueDay := dueDay current; workoutPart := workoutPart current |}.

(** The [next] record of [toggleTodo]. *)
Definition toggled (e : Env) (current : Todo) : Todo :=
  let today := dayKey (clock e) in
  if done current then mark_not_done current
  else mark_done current (stamp e) today.

(** The first task with the given id is toggled, and every task with
    that id is replaced by the result. *)
Definition toggleTodo (e : Env) (i : string) (s : St.State) : St.State :=
  match List.find (fun t => bool_decide (id t = i)) (St.todos s) with
  | None => s
  | Some current =>
      let next := toggled e current in
      let s := setTodos (fun prev =>
                 map (fun t => if bool_decide (id t = i) then next else t) prev) s in
      patchRemote (stamp e) i
        {| p_text := None; p_done := Some (Some (done next));
           p_createdAt := None; p_doneAt := Some (doneAt next);
           p_doneDay := Some (doneDay next); p_dueDay := None;
           p_category := None; p_workoutPart := None |} s
  end.

Definition removeTodo (i : string) (s : St.State) : St.State :=
  let s := setTodos (fun prev =>
             List.filter (fun t => negb (bool_decide (id t = i))) prev) s in
  deleteRemote i s.

(** [try { for (const id of ids) await deleteRemote(id); } catch {}]: the
    deletions are issued one after the other, each awaited before the
    next; the first one the remote store rejects throws, which ends the
    loop, and the error is dropped. Signed out, [deleteRemote] returns at
    once and nothing is issued. *)
Fixpoint deleteRemote_each (rejected : RemoteCall -> bool) (ids : list string)
    (s : St.State) : St.State :=
  match ids with
  | [] => s
  | i :: ids' =>
      let thrown :=
        match St.user s with
        | Some uid => rejected (DeleteDoc uid i)
        | None => false
        end in
      let s := deleteRemote i s in
      if thrown then s else deleteRemote_each rejected ids' s
  end.

Definition clearDone (e : Env) (s : St.State) : St.State :=
  let cat := St.category s in
  let ids := map id (List.filter (fun t => done t) (todosInCat (St.todos s) cat)) in
  let s := setTodos (fun prev =>
             List.filter (fun t => negb (bool_decide (category t = cat) && done t)) prev) s in
  deleteRemote_each (rejects e) ids s.

(* ================================================================= *)
(** ** Filters, weekly calendar and 14-day chart *)

(** The comparator of [visibleTodos]. *)
Definition visible_cmp (today : string) (a b : Todo) : number :=
  let ad := opt_or (dueDay a) today in
  let bd := opt_or (dueDay b) today in
  if String.ltb ad bd then Num (-1)
  else if String.ltb bd ad then Num 1
  else if negb (eqb (done a) (done b)) then (if done a then Num 1 else Num (-1))
  else num_sub (createdAt b) (createdAt a).

Definition visibleTodos (inCat : list Todo) (filter : Filter.t) (now : Date) : list Todo :=
  let today := dayKey now in
  let tomorrow := dayKey (addDays now 1) in
  let weekSet : gset string := list_to_set (weekKeysMonSun now) in
  let filtered := inCat in
  let filtered :=
    match filter with
    | Filter.active => List.filter (fun t => negb (done t)) filtered
    | _ => filtered
    end in
  let filtered :=
    match filter with
    | Filter.done => List.filter (fun t => done t) filtered
    | _ => filtered
    end in
  let filtered :=
    match filter with
    | Filter.today =>
        List.filter (fun t => bool_decide (opt_or (dueDay t) today = today)) filtered
    | _ => filtered
    end in
  let filtered :=
    match filter with
    | Filter.tomorrow =>
        List.filter (fun t => bool_decide (opt_or (dueDay t) today = tomorrow)) filtered
    | _ => filtered
    end in
  let filtered :=
    match filter with
    | Filter.week =>
        List.filter (fun t => bool_decide (opt_or (dueDay t) today ∈ weekSet)) filtered
    | _ => filtered
    end in
  sort_by (visible_cmp today) filtered.

Module Week.
(** An entry of [weekStats.arr]; the display labels [wd], [date] and
    [planText] are left to the presentation. *)
Record entry := {
  key : string;
  planned : Z;
  done : Z;
}.
End Week.

(** The body of the loop of [weekStats] over the tasks. *)
Definition weekStats_step (acc : gmap string pval * gmap string pval) (t : Todo)
    : gmap string pval * gmap string pval :=
  let '(planned, done_) := acc in
  let planned :=
    match dueDay t with
    | Some k => if truthy k then bump planned k else planned
    | None => planned
    end in
  let done_ :=
    match doneDay t with
    | Some k => if done t && truthy k then bump done_ k else done_
    | None => done_
    end in
  (planned, done_).

Definition weekStats (inCat : list Todo) (now : Date) : list Week.entry :=
  let keys := weekKeysMonSun now in
  let planned := zero_counters keys in
  let done_ := zero_counters keys in
  let '(planned, done_) := foldl weekStats_step (planned, done_) inCat in
  map (fun k => {| Week.key := k;
                   Week.planned := read_count planned k;
                   Week.done := read_count done_ k |}) keys.

(** [for (let i = 13; i >= 0; i--) keys.push(dayKey(addDays(end, -i)))] *)
Definition last14_keys (now : Date) : list string :=
  map (fun i => dayKey (addDays now (- i))) (reverse (seqZ 0 14)).

Definition last14_step (perDay : gmap string pval) (t : Todo) : gmap string pval :=
  match doneDay t with
  | Some k => if done t && truthy k then bump perDay k else perDay
  | None => perDay
  end.

(** [keys.map((k) => { running += perDay[k]; return running; })] *)
Fixpoint running_sums (running : Z) (perDay : gmap string pval) (keys : list string) : list Z :=
  match keys with
  | [] => []
  | k :: keys' =>
      let running := running + read_count perDay k in
      running :: running_sums running perDay keys'
  end.

(** The [values] of [last14]. *)
Definition last14 (inCat : list Todo) (now : Date) : list Z :=
  let keys := last14_keys now in
  let perDay := foldl last14_step (zero_counters keys) inCat in
  running_sums 0 perDay keys.

(* ================================================================= *)
(** ** Vocabulary of the statements *)

(** The key of the calendar day with number [n]. *)
Definition keyOfDay (n : Z) : string := dayKey {| day := n; tod := 0 |}.

(** Some task of the collection is done and was completed on day [k]. *)
Definition done_on (inCat : list Todo) (k : string) : Prop :=
  exists t, t ∈ inCat /\ done t = true /\ doneDay t = Some k.

(** The key under which a loop over the tasks bumps a counter, if any:
    the [doneDay] of a done task, and the [dueDay] of a task that has one. *)
Definition sel_done (t : Todo) : option string :=
  match doneDay t with
  | Some k => if done t && truthy k then Some k else None
  | None => None
  end.

Definition sel_due (t : Todo) : option string :=
  match dueDay t with
  | Some k => if truthy k then Some k else None
  | None => None
  end.

Definition bump_opt (o : gmap string pval) (k : option string) : gmap string pval :=
  match k with
  | Some k => bump o k
  | None => o
  end.

(** How many tasks of [l] select the key [k]. *)
Definition count_sel (sel : Todo -> option string) (l : list Todo) (k : string) : Z :=
  Z.of_nat (length (List.filter (fun t => bool_decide (sel t = Some k)) l)).

Definition sumZ (l : list Z) : Z := foldr Z.add 0 l.

(** The keys of the 14 calendar days that end today, today first. *)
Definition window14 (now : Date) : list string :=
  map (fun i => keyOfDay (day now - i)) (seqZ 0 14).

(** The tasks that are done and were completed within the 14-day window. *)
Definition done_in_window14 (inCat : list Todo) (now : Date) : list Todo :=
  List.filter (fun t =>
    done t && match doneDay t with
              | Some k => bool_decide (k ∈ window14 now)
              | None => false
              end) inCat.

(** The number of tasks whose effective due key ([dueDay], or today's key
    when the task has none) is [k]. *)
Definition planned_by_effective_due (inCat : list Todo) (today k : string) : Z :=
  Z.of_nat (length (List.filter (fun t =>
    bool_decide (opt_or (dueDay t) today = k)) inCat)).

(** The number of tasks that have a [dueDay] and whose [dueDay] is [k]. *)
Definition planned_by_dueDay (inCat : list Todo) (k : string) : Z :=
  Z.of_nat (length (List.filter (fun t => bool_decide (dueDay t = Some k)) inCat)).

(** The number of tasks with [done = true] and [doneDay] equal to [k]. *)
Definition done_by_doneDay (inCat : list Todo) (k : string) : Z :=
  Z.of_nat (length (List.filter (fun t =>
    done t && bool_decide (doneDay t = Some k)) inCat)).


(** A daily task as [addTodo] creates it: no [dueDay]. *)
Definition buy_milk : Todo :=
  {| id := "7d1f0c6e-0001"; text := "Buy milk"; done := false;
     createdAt := Num 1709200000000; category := daily;
     doneAt := None; doneDay := None; dueDay := None; workoutPart := None |}.

(** Thursday 2024-02-29, 09:00 local time. *)
Definition leap_thursday : Date := {| day := 19782; tod := 32400000 |}.

(** A task record with every optional field present. *)
Definition fully_populated (t : Todo) : Prop :=
  is_Some (doneAt t) /\ is_Some (doneDay t) /\ is_Some (dueDay t)
  /\ is_Some (workoutPart t).

(** A workout task completed on 2024-02-29, with every field set. *)
Definition leg_day : Todo :=
  {| id := "7d1f0c6e-0003"; text := "Squats"; done := true;
     createdAt := Num 1709100000000; category := workout;
     doneAt := Some (Num 1709200000000); doneDay := Some "2024-02-29";
     dueDay := Some "2024-02-28"; workoutPart := Some "legs" |}.

(** What a handler run on 2024-02-29 reads from its environment. *)
Definition sample_env : Env :=
  {| randomUUID := "7d1f0c6e-0004"; clock := leap_thursday; stamp := 1709200800000;
     rejects := fun _ => false |}.

(** A handler run the day after. *)
Definition next_day_env : Env :=
  {| randomUUID := "7d1f0c6e-0005"; clock := addDays leap_thursday 1;
     stamp := 1709287200000; rejects := fun _ => false |}.

(** The form holding "Buy milk" for the daily category, over a loaded
    and empty collection. *)
Definition form_state (u : option string) (cat : Category) (l : list Todo) : St.State :=
  {| St.user := u; St.category := cat; St.text := "  Buy milk ";
     St.due := "2024-03-01"; St.workoutPart := "chest";
     St.inlineDay := Some "2024-03-02"; St.inlineText := "Stretch";
     St.todos := l; St.loaded := true; St.plan := defaultPlan;
     St.cache := Some l; St.remote := [] |}.

(** The optional fields a category calls for: [dueDay] for work and
    workout tasks, [workoutPart] for workout tasks. *)
Definition category_fields_ok (t : Todo) : Prop :=
  (is_Some (dueDay t) <-> category t = work \/ category t = workout)
  /\ (is_Some (workoutPart t) <-> category t = workout)
  /\ (category t = daily -> dueDay t = None).

(** The end-to-end scenario as the specification words it, for one run of
    [addTodo] in a signed-out session: the new task is in the collection
    and in the local cache, and the remote store saw no call. *)
Definition signed_out_add_stores_locally (e : Env) (s : St.State) : Prop :=
  St.user s = None ->
  exists t, id t = randomUUID e
    /\ text t = trim (St.text s)
    /\ t ∈ St.todos (addTodo e s)
    /\ (exists c, St.cache (addTodo e s) = Some c /\ t ∈ c)
    /\ St.remote (addTodo e s) = St.remote s.

(** A task completed on day [k]. *)
Definition completed_on (i k : string) : Todo :=
  {| id := i; text := "Run"; done := true;
     createdAt := Num 1709000000000; category := daily;
     doneAt := Some (Num 1709000000001); doneDay := Some k;
     dueDay := None; workoutPart := None |}.

(* ================================================================= *)
(** ** The rest of the component *)

Definition weekdayOrder : list WeekdayKey := [mon; tue; wed; thu; fri; sat; sun].

#[global] Instance WeekdayKey_eq_dec : EqDecision WeekdayKey.
Proof. solve_decision. Defined.

(** A document of the remote task collection as the fetch reads it:
    [d.id], [d.data()], and the value of [Date.now()] at that read. *)
Record Snapshot := {
  doc_id : string;
  doc_data : gmap string jsval;
  read_at : Z;
}.

(** The comparator of the fetch, [(a, b) => b.createdAt - a.createdAt]. *)
Definition fetch_cmp (a b : Todo) : number := num_sub (createdAt b) (createdAt a).

Section Fetch.

Variable StringToNumber : string -> number.

(** The effect that fetches the tasks once a user is signed in, given the
    documents [getDocs] returned; the collection is replaced. *)
Definition fetchTodos (docs : list Snapshot) (s : St.State) : St.State :=
  match St.user s with
  | None => s
  | Some _ =>
      let fresh :=
        map (fun d => fromFirestoreTodo StringToNumber (read_at d) (doc_id d) (doc_data d))
          docs in
      setTodos (fun _ => sort_by fetch_cmp fresh) s
  end.

End Fetch.

(** The comparator of the day lists of [weekTasksByDay]. *)
Definition week_cmp (a b : Todo) : number :=
  if negb (eqb (done a) (done b)) then (if done a then Num 1 else Num (-1))
  else num_sub (createdAt b) (createdAt a).

(** [if (dueKey in map) map[dueKey].push(t)]. The day lists are own
    properties. A [dueKey] that names a member inherited from
    [Object.prototype] passes the [in] test, but what it reads there has
    no [push]: the call throws a TypeError, here [None]. *)
Definition weekTasks_step (today : string) (acc : option (gmap string (list Todo)))
    (t : Todo) : option (gmap string (list Todo)) :=
  match acc with
  | None => None
  | Some m =>
      let dueKey := opt_or (dueDay t) today in
      match m !! dueKey with
      | Some l => Some (<[dueKey := l ++ [t]]> m)
      | None => if bool_decide (dueKey ∈ proto_names) then None else Some m
      end
  end.

(** [weekTasksByDay]: the tasks of each day of the week, or [None] when the
    computation throws. *)
Definition weekTasksByDay (inCat : list Todo) (now : Date)
    : option (gmap string (list Todo)) :=
  let today := dayKey now in
  let map0 := foldl (fun m k => <[k := []]> m) ∅ (weekKeysMonSun now) in
  match foldl (weekTasks_step today) (Some map0) inCat with
  | Some m => Some (sort_by week_cmp <$> m)
  | None => None
  end.

(** The user actions on the task collection, to speak of any of them. *)
Inductive Action :=
| AddTodo
| AddTodoInline (day : string)
| ToggleTodo (i : string)
| RemoveTodo (i : string)
| ClearDone.

Definition run (DateParse : string -> option Date) (e : Env) (a : Action)
    (s : St.State) : St.State :=
  match a with
  | AddTodo => addTodo e s
  | AddTodoInline day => addTodoInline DateParse e day s
  | ToggleTodo i => toggleTodo e i s
  | RemoveTodo i => removeTodo i s
  | ClearDone => clearDone e s
  end.

(** A session: actions run one after the other, each with what it reads
    from its environment. *)
Definition run_all (DateParse : string -> option Date) (acts : list (Env * Action))
    (s : St.State) : St.State :=
  foldl (fun s ea => run DateParse ea.1 ea.2 s) s acts.

(** Once loaded, the local cache holds the in-memory collection. *)
Definition cache_mirrors (s : St.State) : Prop :=
  St.loaded s = true -> St.cache s = Some (St.todos s).

(** The completion fields agree with [done]. *)
Definition completion_ok (t : Todo) : Prop :=
  (is_Some (doneAt t) <-> done t = true) /\ (is_Some (doneDay t) <-> done t = true).

(** The user a remote call is addressed to. *)
Definition call_uid (c : RemoteCall) : string :=
  match c with
  | SetDocMerge uid _ _ | UpdateDoc uid _ _ | DeleteDoc uid _ => uid
  end.

(** What every handler keeps of a state: the session fields stay, the
    cache either follows the collection or both are untouched, and the
    record of remote calls only grows, by calls addressed to the signed-in
    user (none when signed out). *)
Definition evolves (s s' : St.State) : Prop :=
  St.user s' = St.user s
  /\ St.loaded s' = St.loaded s
  /\ St.category s' = St.category s
  /\ St.plan s' = St.plan s
  /\ (St.loaded s = true ->
      St.cache s' = Some (St.todos s')
      \/ (St.cache s' = St.cache s /\ St.todos s' = St.todos s))
  /\ exists calls, St.remote s' = St.remote s ++ calls
       /\ Forall (fun c => St.user s = Some (call_uid c)) calls.

(** A short session: add the typed task, complete "Buy milk" the next
    day, then clear the done tasks. *)
Definition sample_session : list (Env * Action) :=
  [(sample_env, AddTodo); (next_day_env, ToggleTodo "7d1f0c6e-0001");
   (next_day_env, ClearDone)].

(** The effective due key of a task: its [dueDay], or today's key. *)
Definition eff_due (today : string) (t : Todo) : string := opt_or (dueDay t) today.

(** The creation time of the task is a number, not [NaN]. *)
Definition numeric_created (t : Todo) : Prop := exists z, createdAt t = Num z.

(** [a] was created no earlier than [b]. *)
Definition newest_first (a b : Todo) : Prop :=
  exists x y, createdAt a = Num x /\ createdAt b = Num y /\ y <= x.

(** Incomplete tasks before completed ones, and newest first among tasks
    of one completion state. *)
Definition week_order (a b : Todo) : Prop :=
  (done a = true -> done b = true) /\ (done a = done b -> newest_first a b).

(** Ascending effective due key, then [week_order] among tasks of one
    key. *)
Definition visible_order (today : string) (a b : Todo) : Prop :=
  String.le (eff_due today a) (eff_due today b)
  /\ (eff_due today a = eff_due today b -> week_order a b).

(** What each filter of the task list asks of a task. *)
Definition selects (filter : Filter.t) (now : Date) (t : Todo) : Prop :=
  match filter with
  | Filter.all => True
  | Filter.active => done t = false
  | Filter.done => done t = true
  | Filter.today => eff_due (dayKey now) t = dayKey now
  | Filter.tomorrow => eff_due (dayKey now) t = dayKey (addDays now 1)
  | Filter.week => eff_due (dayKey now) t ∈ weekKeysMonSun now
  end.

(** The remote document of a task, as [upsertRemote] writes it and a later
    fetch reads it: [v] is what the server put in [updatedAt], [r] the time
    of the read. *)
Definition snapshot_of (v : jsval) (r : Z) (t : Todo) : Snapshot :=
  {| doc_id := id t; doc_data := <["updatedAt" := v]> (toFirestoreTodo t); read_at := r |}.

(** The keys of the first [i + 1] days of the 14-day window, oldest first. *)
Definition window_upto (now : Date) (i : nat) : list string :=
  map (fun j => keyOfDay (day now - 13 + j)) (seqZ 0 (Z.of_nat i + 1)).

(** The axis of [AreaChart14Days] for integer values:
    [dataMax = Math.max(0, ...values)] and
    [yMax = niceCeil(Math.max(1, dataMax))]. *)
Definition dataMax (values : list Z) : Z := foldr Z.max 0 values.

Definition yMax (Math_floor_log10 : Z -> Z) (values : list Z) : Z :=
  niceCeil Math_floor_log10 (Z.max 1 (dataMax values)).

(** A string of white space only; a string that begins, or ends, with a
    white-space character. *)
Fixpoint all_white (s : string) : bool :=
  match s with
  | EmptyString => true
  | String c s' => is_white_space c && all_white s'
  end.

Definition starts_white (s : string) : bool :=
  match s with
  | EmptyString => false
  | String c _ => is_white_space c
  end.

Fixpoint ends_white (s : string) : bool :=
  match s with
  | EmptyString => false
  | String c EmptyString => is_white_space c
  | String _ s' => ends_white s'
  end.

(** The text is [a], then [t], then [b], where [a] and [b] are white
    space and [t] is not empty and has no white space at either end. *)
Definition trimmed_of (typed t : string) : Prop :=
  exists a b, typed = a +:+ t +:+ b
    /\ all_white a = true /\ all_white b = true
    /\ t <> "" /\ starts_white t = false /\ ends_white t = false.

(** The fields of a task document, and two documents that hold the same
    value in a field, or nothing in it ([null] or no such field). *)
Definition todo_fields : list string :=
  ["text"; "done"; "createdAt"; "category"; "doneAt"; "doneDay"; "dueDay"; "workoutPart"].

Definition same_field (d1 d2 : gmap string jsval) (k : string) : Prop :=
  prop d1 k = prop d2 k
  \/ (is_nullish (prop d1 k) = true /\ is_nullish (prop d2 k) = true).


(* ================================================================= *)
(** * Properties *)

(** ** The calendar *)

Lemma doe_bounds doe :
  0 <= doe < 146097 ->
  let yoe := (doe - doe / 1460 + doe / 36524 - doe / 146096) / 365 in
  let doy := doe - (365 * yoe + yoe / 4 - yoe / 100) in
  0 <= yoe <= 399 /\ 0 <= doy <= 365.
Proof.
  intros H yoe doy. subst doy yoe.
  Z.to_euclidean_division_equations; lia.
Qed.

(** Every day number is recovered from its civil date. *)
Lemma civil_roundtrip z : days_from_civil (civil_from_days z) = z.
Proof.
  unfold civil_from_days, days_from_civil.
  set (zz := z + 719468).
  set (era := zz / 146097).
  set (doe := zz - era * 146097).
  assert (Hdoe : 0 <= doe < 146097)
    by (subst doe era; Z.to_euclidean_division_equations; lia).
  pose proof (doe_bounds doe Hdoe) as Hb. cbv zeta in Hb.
  set (yoe := (doe - doe / 1460 + doe / 36524 - doe / 146096) / 365) in *.
  set (doy := doe - (365 * yoe + yoe / 4 - yoe / 100)) in *.
  set (mp := (5 * doy + 2) / 153).
  assert (Hmp : 0 <= mp <= 11)
    by (subst mp; Z.to_euclidean_division_equations; lia).
  set (m := if mp <? 10 then mp + 3 else mp - 9).
  set (d := doy - (153 * mp + 2) / 5 + 1).
  assert (Hm : (if 2 <? m then m - 3 else m + 9) = mp).
  { subst m. destruct (Z.ltb_spec mp 10).
    - destruct (Z.ltb_spec 2 (mp + 3)); lia.
    - destruct (Z.ltb_spec 2 (mp - 9)); lia. }
  rewrite Hm.
  assert (Hy : (if m <=? 2
                then (if m <=? 2 then yoe + era * 400 + 1 else yoe + era * 400) - 1
                else (if m <=? 2 then yoe + era * 400 + 1 else yoe + era * 400))
               = yoe + era * 400)
    by (destruct (m <=? 2); lia).
  rewrite Hy.
  assert (He : (yoe + era * 400) / 400 = era)
    by (Z.to_euclidean_division_equations; lia).
  rewrite He.
  replace (yoe + era * 400 - era * 400) with yoe by lia.
  subst d doy doe zz. lia.
Qed.

Lemma civil_inj a b : civil_from_days a = civil_from_days b -> a = b.
Proof.
  intros H. rewrite <- (civil_roundtrip a), <- (civil_roundtrip b). now rewrite H.
Qed.

(** Months are 1..12 and days of the month 1..31. *)
Lemma civil_ranges z :
  1 <= (civil_from_days z).1.2 <= 12 /\ 1 <= (civil_from_days z).2 <= 31.
Proof.
  unfold civil_from_days.
  set (zz := z + 719468).
  set (era := zz / 146097).
  set (doe := zz - era * 146097).
  assert (Hdoe : 0 <= doe < 146097)
    by (subst doe era; Z.to_euclidean_division_equations; lia).
  pose proof (doe_bounds doe Hdoe) as Hb. cbv zeta in Hb.
  set (yoe := (doe - doe / 1460 + doe / 36524 - doe / 146096) / 365) in *.
  set (doy := doe - (365 * yoe + yoe / 4 - yoe / 100)) in *.
  set (mp := (5 * doy + 2) / 153).
  assert (Hmp : 0 <= mp <= 11)
    by (subst mp; Z.to_euclidean_division_equations; lia).
  cbn [fst snd]. split.
  - destruct (Z.ltb_spec mp 10); lia.
  - subst mp. Z.to_euclidean_division_equations; lia.
Qed.

Lemma day_setDate d n : day (setDate d n) = day d - getDate d + n.
Proof. unfold setDate. cbn. lia. Qed.

Lemma day_addDays d n : day (addDays d n) = day d + n.
Proof. unfold addDays. rewrite day_setDate. lia. Qed.

Lemma day_previous d : day (setDate d (getDate d - 1)) = day d - 1.
Proof. rewrite day_setDate. lia. Qed.

(** ** Day keys *)

Lemma string_length_app (a b : string) :
  String.length (a +:+ b) = (String.length a + String.length b)%nat.
Proof.
  induction a as [|c a IH]; [reflexivity|].
  change (S (String.length (a +:+ b)) = S (String.length a + String.length b)).
  f_equal; exact IH.
Qed.

(** Two concatenations with tails of one length agree part by part. *)
Lemma string_app_inj_tail (a1 a2 t1 t2 : string) :
  String.length t1 = String.length t2 ->
  a1 +:+ t1 = a2 +:+ t2 -> a1 = a2 /\ t1 = t2.
Proof.
  revert a2. induction a1 as [|c a1 IH]; intros [|c2 a2] Hlen Heq.
  - auto.
  - change (t1 = String c2 (a2 +:+ t2)) in Heq.
    apply (f_equal String.length) in Heq.
    change (String.length t1 = S (String.length (a2 +:+ t2))) in Heq.
    rewrite string_length_app in Heq. lia.
  - change (String c (a1 +:+ t1) = t2) in Heq.
    apply (f_equal String.length) in Heq.
    change (S (String.length (a1 +:+ t1)) = String.length t2) in Heq.
    rewrite string_length_app in Heq. lia.
  - change (String c (a1 +:+ t1) = String c2 (a2 +:+ t2)) in Heq.
    injection Heq as -> Heq. destruct (IH a2 Hlen Heq) as [-> ->]. auto.
Qed.

(** [pad2] on the days of a month and the months of a year: two characters,
    and different numbers give different strings. *)
Lemma pad2_range_checked :
  forallb (fun a =>
    Nat.eqb (String.length (pad2 a)) 2
    && forallb (fun b => implb (bool_decide (pad2 a = pad2 b)) (a =? b)) (seqZ 0 32))
    (seqZ 0 32) = true.
Proof. vm_compute. reflexivity. Qed.

Lemma pad2_length n : 0 <= n < 32 -> String.length (pad2 n) = 2%nat.
Proof.
  intros Hn. pose proof pad2_range_checked as H.
  rewrite forallb_forall in H.
  specialize (H n). rewrite <- list_elem_of_In, elem_of_seqZ in H.
  specialize (H ltac:(lia)). apply andb_prop in H as [H _].
  now apply Nat.eqb_eq in H.
Qed.

Lemma pad2_inj a b : 0 <= a < 32 -> 0 <= b < 32 -> pad2 a = pad2 b -> a = b.
Proof.
  intros Ha Hb Heq. pose proof pad2_range_checked as H.
  rewrite forallb_forall in H.
  specialize (H a). rewrite <- list_elem_of_In, elem_of_seqZ in H.
  specialize (H ltac:(lia)). apply andb_prop in H as [_ H].
  rewrite forallb_forall in H.
  specialize (H b). rewrite <- list_elem_of_In, elem_of_seqZ in H.
  specialize (H ltac:(lia)).
  rewrite bool_decide_eq_true_2 in H by exact Heq. cbn in H. lia.
Qed.

Lemma dayKey_tail_length m dd :
  0 <= m < 32 -> 0 <= dd < 32 ->
  String.length ("-" +:+ pad2 m +:+ "-" +:+ pad2 dd) = 6%nat.
Proof.
  intros Hm Hd. rewrite !string_length_app, (pad2_length m Hm), (pad2_length dd Hd).
  reflexivity.
Qed.

(** The day key determines the calendar day. *)
Lemma dayKey_inj d1 d2 : dayKey d1 = dayKey d2 -> day d1 = day d2.
Proof.
  unfold dayKey, getFullYear, getMonth, getDate. intros H.
  destruct (civil_ranges (day d1)) as [Hm1 Hd1].
  destruct (civil_ranges (day d2)) as [Hm2 Hd2].
  apply civil_inj.
  destruct (civil_from_days (day d1)) as [[y1 m1] dd1].
  destruct (civil_from_days (day d2)) as [[y2 m2] dd2].
  cbn [fst snd] in *.
  replace (m1 - 1 + 1) with m1 in H by lia.
  replace (m2 - 1 + 1) with m2 in H by lia.
  apply string_app_inj_tail in H as [Hy Ht];
    [| rewrite !dayKey_tail_length by lia; reflexivity].
  apply (inj pretty) in Hy.
  apply (inj (String.app "-")) in Ht.
  apply string_app_inj_tail in Ht as [Hm Ht];
    [| rewrite !string_length_app, !pad2_length by lia; reflexivity].
  apply (inj (String.app "-")) in Ht.
  apply pad2_inj in Hm; [| lia | lia].
  apply pad2_inj in Ht; [| lia | lia].
  congruence.
Qed.

Lemma dayKey_day d1 d2 : day d1 = day d2 -> dayKey d1 = dayKey d2.
Proof.
  unfold dayKey, getFullYear, getMonth, getDate. now intros ->.
Qed.

Lemma dayKey_length d : (6 <= String.length (dayKey d))%nat.
Proof.
  unfold dayKey, getFullYear, getMonth, getDate.
  destruct (civil_ranges (day d)) as [Hm Hd].
  rewrite string_length_app, dayKey_tail_length by lia. lia.
Qed.

Lemma dayKey_truthy d : truthy (dayKey d) = true.
Proof.
  unfold truthy. rewrite bool_decide_eq_false_2; [reflexivity |].
  intros H. pose proof (dayKey_length d) as Hl. rewrite H in Hl. cbn in Hl. lia.
Qed.

Lemma dayKey_keyOfDay d : dayKey d = keyOfDay (day d).
Proof. apply dayKey_day. reflexivity. Qed.

Lemma keyOfDay_inj a b : keyOfDay a = keyOfDay b -> a = b.
Proof. unfold keyOfDay. intros H. exact (dayKey_inj _ _ H). Qed.

Lemma keyOfDay_truthy n : truthy (keyOfDay n) = true.
Proof. apply dayKey_truthy. Qed.

(** ** Streak *)

Lemma elem_of_doneDays_acc (l : list Todo) (acc : gset string) (k : string) :
  k ∈ foldl (fun acc t =>
               match doneDay t with
               | Some k => if done t && truthy k then {[k]} ∪ acc else acc
               | None => acc
               end) acc l
  <-> k ∈ acc \/ (done_on l k /\ truthy k = true).
Proof.
  revert acc. induction l as [|t l IH]; intros acc; cbn [foldl].
  - split; [auto |]. intros [H | [(t & Ht & _) _]]; [exact H |].
    now apply elem_of_nil in Ht.
  - rewrite IH. unfold done_on. split.
    + intros [H | [(t' & Ht' & Hd & Hk) Htr]].
      * destruct (doneDay t) as [k'|] eqn:Hdd; [| auto].
        destruct (done t && truthy k') eqn:Hc; [| auto].
        apply elem_of_union in H as [H | H]; [| auto].
        apply elem_of_singleton in H. subst k'.
        apply andb_prop in Hc as [Hd Htr].
        right. split; [| exact Htr]. exists t. split; [left | auto].
      * right. split; [| exact Htr]. exists t'. split; [now right | auto].
    + intros [H | [(t' & Ht' & Hd & Hk) Htr]].
      * left. destruct (doneDay t) as [k'|]; [| exact H].
        destruct (done t && truthy k'); [| exact H].
        apply elem_of_union. now right.
      * apply elem_of_cons in Ht' as [-> | Ht'].
        -- left. rewrite Hk, Hd, Htr. cbn. apply elem_of_union. left.
           now apply elem_of_singleton.
        -- right. split; [| exact Htr]. exists t'. auto.
Qed.

(** The set [doneDays] holds the non-empty completion days of done tasks. *)
Lemma elem_of_doneDays (l : list Todo) (k : string) :
  k ∈ doneDays l <-> done_on l k /\ truthy k = true.
Proof.
  unfold doneDays. rewrite elem_of_doneDays_acc. split; [| auto].
  intros [H | H]; [| exact H]. now apply not_elem_of_empty in H.
Qed.

Lemma keyOfDay_doneDays (l : list Todo) (n : Z) :
  keyOfDay n ∈ doneDays l <-> done_on l (keyOfDay n).
Proof.
  rewrite elem_of_doneDays. pose proof (keyOfDay_truthy n). tauto.
Qed.

(** Among any [length l + 1] consecutive days going back from [z], one has
    no done task: the days have different keys and each task is completed
    on one day. *)
Lemma done_gap (l : list Todo) (z : Z) :
  exists j, (j <= length l)%nat /\ ~ done_on l (keyOfDay (z - Z.of_nat j)).
Proof.
  set (ks := map (fun j : nat => keyOfDay (z - Z.of_nat j)) (seq 0 (S (length l)))).
  destruct (decide (Forall (fun k => k ∈ doneDays l) ks)) as [Hall | Hex].
  - exfalso.
    assert (Hnd : NoDup ks).
    { apply NoDup_fmap_2_strong; [| apply NoDup_seq].
      intros a b _ _ Hab. apply keyOfDay_inj in Hab. lia. }
    assert (Hsub : ks ⊆+ omap doneDay l).
    { apply NoDup_submseteq; [exact Hnd |]. intros k Hk.
      rewrite Forall_forall in Hall. apply Hall in Hk.
      apply elem_of_doneDays in Hk as [(t & Ht & _ & Hk) _].
      apply list_elem_of_omap. exists t. auto. }
    apply submseteq_length in Hsub.
    assert (Hle : (length (omap doneDay l) <= length l)%nat).
    { clear. induction l as [|t l IH]; cbn; [lia |].
      destruct (doneDay t); cbn; lia. }
    unfold ks in Hsub. rewrite length_map, length_seq in Hsub. lia.
  - apply not_Forall_Exists in Hex; [| apply _].
    apply Exists_exists in Hex as (k & Hk & Hnot).
    unfold ks in Hk. apply list_elem_of_fmap in Hk as (j & -> & Hj).
    apply elem_of_seq in Hj. exists j. split; [lia |].
    cbn in Hnot. now rewrite keyOfDay_doneDays in Hnot.
Qed.

(** The loop stops at the first day, going back from [d], whose key is not
    in [days], provided such a day comes within [fuel] rounds. *)
Lemma streak_loop_spec (fuel : nat) (days : gset string) (s : nat) (d : Date) :
  (exists j, (j < fuel)%nat /\ keyOfDay (day d - Z.of_nat j) ∉ days) ->
  exists n, (n < fuel)%nat
    /\ streak_loop fuel days s d = Some (s + n)%nat
    /\ (forall i, (i < n)%nat -> keyOfDay (day d - Z.of_nat i) ∈ days)
    /\ keyOfDay (day d - Z.of_nat n) ∉ days.
Proof.
  revert s d. induction fuel as [|fuel IH]; intros s d (j & Hj & Hout); [lia |].
  cbn [streak_loop]. rewrite dayKey_keyOfDay.
  destruct (decide (keyOfDay (day d) ∈ days)) as [Hin | Hnin].
  - rewrite bool_decide_eq_true_2 by exact Hin.
    destruct j as [|j].
    { exfalso. apply Hout. now replace (day d - Z.of_nat 0) with (day d) by lia. }
    destruct (IH (S s) (setDate d (getDate d - 1))) as (n & Hn & Hrun & Hall & Hstop).
    { exists j. split; [lia |]. rewrite day_previous.
      now replace (day d - 1 - Z.of_nat j) with (day d - Z.of_nat (S j)) by lia. }
    rewrite day_previous in Hall, Hstop.
    exists (S n). split; [lia |]. split; [rewrite Hrun; f_equal; lia |]. split.
    + intros [|i] Hi.
      * now replace (day d - Z.of_nat 0) with (day d) by lia.
      * replace (day d - Z.of_nat (S i)) with (day d - 1 - Z.of_nat i) by lia.
        apply Hall. lia.
    + now replace (day d - Z.of_nat (S n)) with (day d - 1 - Z.of_nat n) by lia.
  - rewrite bool_decide_eq_false_2 by exact Hnin.
    exists 0%nat. split; [lia |]. split; [f_equal; lia |]. split; [intros i Hi; lia |].
    now replace (day d - Z.of_nat 0) with (day d) by lia.
Qed.

Lemma dayKey_back (now : Date) (i : nat) :
  dayKey (addDays now (- Z.of_nat i)) = keyOfDay (day now - Z.of_nat i).
Proof. rewrite dayKey_keyOfDay, day_addDays. f_equal; lia. Qed.

(** C3. For every task collection and every value of today, the streak
    loop ends (any number of rounds above the size of the collection is
    enough) and its result [s] counts the consecutive calendar days, going
    back from today, that have a done task: each of the [s] days today,
    today-1, ... has a task with [done = true] and [doneDay] equal to that
    day, and day today-[s] has none. In particular the streak is 0 when no
    done task has [doneDay] equal to today, whatever yesterday holds. *)
Theorem streak_counts_consecutive_days (inCat : list Todo) (now : Date) :
  exists s : nat,
    (s <= length inCat)%nat
    /\ (forall fuel, (length inCat < fuel)%nat -> streak fuel inCat now = Some s)
    /\ (forall i, (i < s)%nat -> done_on inCat (dayKey (addDays now (- Z.of_nat i))))
    /\ ~ done_on inCat (dayKey (addDays now (- Z.of_nat s)))
    /\ (~ done_on inCat (dayKey now) -> s = 0%nat).
Proof.
  destruct (done_gap inCat (day now)) as (j & Hj & Hgap).
  assert (Hout : keyOfDay (day now - Z.of_nat j) ∉ doneDays inCat)
    by now rewrite keyOfDay_doneDays.
  destruct (streak_loop_spec (S (length inCat)) (doneDays inCat) 0 now)
    as (s & Hs & Hrun & Hall & Hstop).
  { exists j. split; [lia | exact Hout]. }
  exists s. split; [lia |]. split; [| split; [| split]].
  - intros fuel Hfuel.
    destruct (streak_loop_spec fuel (doneDays inCat) 0 now)
      as (s' & Hs' & Hrun' & Hall' & Hstop').
    { exists j. split; [lia | exact Hout]. }
    unfold streak. rewrite Hrun'. f_equal. cbn.
    destruct (Nat.lt_trichotomy s s') as [Hlt | [Heq | Hgt]]; [| exact (eq_sym Heq) |].
    + exfalso. apply Hstop. apply Hall'. exact Hlt.
    + exfalso. apply Hstop'. apply Hall. exact Hgt.
  - intros i Hi. rewrite dayKey_back. apply keyOfDay_doneDays. apply Hall. exact Hi.
  - rewrite dayKey_back. now rewrite <- keyOfDay_doneDays.
  - intros Hnone. destruct s as [|s]; [reflexivity |]. exfalso. apply Hnone.
    rewrite dayKey_keyOfDay.
    replace (day now) with (day now - Z.of_nat 0) by lia.
    apply keyOfDay_doneDays. apply Hall. lia.
Qed.

(** The two scenarios of the specification, on 2024-02-29: done tasks on
    today and the two days before give 3; a done task yesterday and none
    today gives 0. *)
Example streak_three_days :
  streak 4 [completed_on "a" "2024-02-28"; completed_on "b" "2024-02-29";
            completed_on "c" "2024-02-27"; completed_on "d" "2024-02-25"]
    leap_thursday = Some 3%nat.
Proof. vm_compute. reflexivity. Qed.

Example streak_no_grace_day :
  streak 2 [completed_on "a" "2024-02-28"] leap_thursday = Some 0%nat.
Proof. vm_compute. reflexivity. Qed.

(** ** Counter objects *)

Lemma zero_counters_acc (keys : list string) (o : gmap string pval) (k : string) :
  foldl (fun o k => <[k := PNum 0]> o) o keys !! k
  = if bool_decide (k ∈ keys) then Some (PNum 0) else o !! k.
Proof.
  revert o. induction keys as [|k' keys IH]; intros o; cbn [foldl].
  - rewrite bool_decide_eq_false_2; [reflexivity | apply not_elem_of_nil].
  - rewrite IH. destruct (decide (k ∈ keys)) as [Hin | Hnin].
    + rewrite !bool_decide_eq_true_2; [reflexivity | now right | exact Hin].
    + rewrite (bool_decide_eq_false_2 _ Hnin).
      destruct (decide (k = k')) as [-> | Hne].
      * rewrite lookup_insert_eq, bool_decide_eq_true_2; [reflexivity | now left].
      * rewrite lookup_insert_ne by congruence.
        rewrite bool_decide_eq_false_2; [reflexivity |].
        intros [-> | H]%elem_of_cons; [congruence | exact (Hnin H)].
Qed.

Lemma zero_counters_lookup (keys : list string) (k : string) :
  k ∈ keys -> zero_counters keys !! k = Some (PNum 0).
Proof.
  intros Hk. unfold zero_counters. rewrite zero_counters_acc.
  now rewrite bool_decide_eq_true_2.
Qed.

Lemma bump_same (o : gmap string pval) (k : string) (n : Z) :
  o !! k = Some (PNum n) -> bump o k !! k = Some (PNum (n + 1)).
Proof.
  intros H. unfold bump, has_in, incr.
  rewrite bool_decide_eq_true_2 by (rewrite H; eauto). cbn.
  rewrite H. apply lookup_insert_eq.
Qed.

Lemma bump_other (o : gmap string pval) (k k' : string) :
  k <> k' -> bump o k !! k' = o !! k'.
Proof.
  intros Hne. unfold bump, incr. destruct (has_in o k); [| reflexivity].
  destruct (o !! k) as [[n |] |]; [| reflexivity |].
  - now rewrite lookup_insert_ne.
  - destruct (bool_decide (k = "__proto__")); [reflexivity |].
    now rewrite lookup_insert_ne.
Qed.

Lemma count_sel_cons (sel : Todo -> option string) (t : Todo) (l : list Todo) (k : string) :
  count_sel sel (t :: l) k
  = (if bool_decide (sel t = Some k) then 1 else 0) + count_sel sel l k.
Proof.
  unfold count_sel. cbn [List.filter].
  destruct (bool_decide (sel t = Some k)); cbn [length]; lia.
Qed.

Lemma count_sel_nonneg sel l k : 0 <= count_sel sel l k.
Proof. unfold count_sel. lia. Qed.

(** A counter that starts as a number ends as that number plus the number
    of tasks that selected its key. *)
Lemma counter_fold (sel : Todo -> option string) (l : list Todo)
    (o : gmap string pval) (k : string) (n : Z) :
  o !! k = Some (PNum n) ->
  foldl (fun o t => bump_opt o (sel t)) o l !! k = Some (PNum (n + count_sel sel l k)).
Proof.
  revert o n. induction l as [|t l IH]; intros o n Ho; cbn [foldl].
  - rewrite Ho. unfold count_sel. cbn. do 2 f_equal. lia.
  - rewrite count_sel_cons. destruct (sel t) as [k' |] eqn:Hsel; cbn [bump_opt].
    + destruct (decide (k' = k)) as [-> | Hne].
      * rewrite bool_decide_eq_true_2 by reflexivity.
        rewrite (IH _ (n + 1)) by (now apply bump_same). do 2 f_equal. lia.
      * rewrite bool_decide_eq_false_2 by congruence.
        rewrite (IH _ n) by (now rewrite bump_other). do 2 f_equal.
    + rewrite bool_decide_eq_false_2 by congruence.
      rewrite (IH _ n) by exact Ho. do 2 f_equal.
Qed.

(** Reading a counter created by [zero_counters] gives a number: the count
    of the tasks that selected its key. *)
Lemma counter_read (sel : Todo -> option string) (l : list Todo)
    (keys : list string) (k : string) :
  k ∈ keys ->
  read_count (foldl (fun o t => bump_opt o (sel t)) (zero_counters keys) l) k
  = count_sel sel l k.
Proof.
  intros Hk. unfold read_count.
  rewrite (counter_fold sel l _ k 0) by (now apply zero_counters_lookup).
  lia.
Qed.

(** ** The 14-day cumulative series *)

Lemma last14_step_sel (o : gmap string pval) (t : Todo) :
  last14_step o t = bump_opt o (sel_done t).
Proof.
  unfold last14_step, sel_done. destruct (doneDay t) as [k |]; [| reflexivity].
  destruct (done t && truthy k); reflexivity.
Qed.

Lemma last14_fold_sel (l : list Todo) (o : gmap string pval) :
  foldl last14_step o l = foldl (fun o t => bump_opt o (sel_done t)) o l.
Proof.
  revert o. induction l as [|t l IH]; intros o; cbn [foldl]; [reflexivity |].
  now rewrite last14_step_sel, IH.
Qed.

Lemma last14_keys_window (now : Date) : last14_keys now = reverse (window14 now).
Proof.
  unfold last14_keys, window14. rewrite <- fmap_reverse.
  apply list_fmap_ext. intros _ i _. rewrite dayKey_keyOfDay, day_addDays.
  f_equal; lia.
Qed.

Lemma window14_NoDup (now : Date) : NoDup (window14 now).
Proof.
  unfold window14. apply NoDup_fmap_2_strong; [| apply NoDup_seqZ].
  intros a b _ _ H. apply keyOfDay_inj in H. lia.
Qed.

Lemma last14_keys_NoDup (now : Date) : NoDup (last14_keys now).
Proof. rewrite last14_keys_window, reverse_Permutation. apply window14_NoDup. Qed.

Lemma elem_of_last14_keys (now : Date) (k : string) :
  k ∈ last14_keys now <-> k ∈ window14 now.
Proof. rewrite last14_keys_window. apply elem_of_reverse. Qed.

Lemma window14_truthy (now : Date) (k : string) : k ∈ window14 now -> truthy k = true.
Proof.
  unfold window14. intros (i & -> & _)%list_elem_of_fmap. apply keyOfDay_truthy.
Qed.

Lemma running_sums_length r o keys : length (running_sums r o keys) = length keys.
Proof.
  revert r. induction keys as [|k keys IH]; intros r; cbn; [reflexivity |].
  now rewrite IH.
Qed.

(** Every value of the running sum is the start value plus the counts read
    so far. *)
Lemma running_sums_lookup r o keys (i : nat) (v : Z) :
  running_sums r o keys !! i = Some v ->
  v = r + sumZ (map (read_count o) (take (S i) keys)).
Proof.
  revert r i v. induction keys as [|k keys IH]; intros r i v H; [discriminate |].
  cbn [running_sums] in H. destruct i as [|i].
  - cbn in H. injection H as <-. unfold sumZ. cbn. rewrite take_0. cbn. lia.
  - cbn [lookup list_lookup] in H. apply IH in H. rewrite H.
    change (take (S (S i)) (k :: keys)) with (k :: take (S i) keys).
    cbn [map sumZ foldr]. unfold sumZ. lia.
Qed.

Lemma sumZ_take_mono (xs : list Z) (i j : nat) :
  Forall (fun x => 0 <= x) xs -> (i <= j)%nat ->
  sumZ (take i xs) <= sumZ (take j xs).
Proof.
  intros Hpos. revert i j. induction Hpos as [|x xs Hx Hxs IH]; intros i j Hij.
  - rewrite !take_nil. lia.
  - destruct i as [|i]; destruct j as [|j]; cbn [take sumZ foldr]; try lia.
    + assert (0 <= sumZ (take j xs)); [| unfold sumZ in *; lia].
      specialize (IH 0%nat j ltac:(lia)). now rewrite take_0 in IH.
    + specialize (IH i j ltac:(lia)). unfold sumZ in *. lia.
Qed.

(** Summing, over keys that are pairwise different, how many tasks select
    each key counts the tasks that select one of the keys. *)
Lemma sum_count_sel (sel : Todo -> option string) (l : list Todo) (keys : list string) :
  NoDup keys ->
  sumZ (map (count_sel sel l) keys)
  = Z.of_nat (length (List.filter (fun t =>
      match sel t with Some k => bool_decide (k ∈ keys) | None => false end) l)).
Proof.
  intros Hnd. induction l as [|t l IH].
  - cbn. induction keys as [|k keys IHk]; [reflexivity |].
    cbn. apply NoDup_cons in Hnd as [_ Hnd]. unfold sumZ in IHk. now rewrite IHk.
  - cbn [List.filter].
    assert (Hsplit : sumZ (map (count_sel sel (t :: l)) keys)
                     = (match sel t with
                        | Some k => if bool_decide (k ∈ keys) then 1 else 0
                        | None => 0
                        end) + sumZ (map (count_sel sel l) keys)).
    { clear IH. induction keys as [|k keys IHk].
      - cbn. destruct (sel t) as [k' |]; [| reflexivity].
        rewrite bool_decide_eq_false_2; [reflexivity | apply not_elem_of_nil].
      - apply NoDup_cons in Hnd as [Hk Hnd]. specialize (IHk Hnd).
        cbn [map sumZ foldr]. rewrite count_sel_cons.
        unfold sumZ in IHk |- *. rewrite IHk.
        destruct (sel t) as [k' |]; [| rewrite bool_decide_eq_false_2 by congruence; lia].
        destruct (decide (k' = k)) as [-> | Hne].
        + rewrite bool_decide_eq_true_2 by reflexivity.
          rewrite (bool_decide_eq_true_2 (k ∈ k :: keys)) by (now left).
          rewrite (bool_decide_eq_false_2 (k ∈ keys)) by exact Hk. lia.
        + rewrite (bool_decide_eq_false_2 (Some k' = Some k)) by congruence.
          destruct (decide (k' ∈ keys)) as [Hin | Hnin].
          * rewrite !bool_decide_eq_true_2; [lia | now right | exact Hin].
          * rewrite !bool_decide_eq_false_2; [lia | | exact Hnin].
            intros [? | ?]%elem_of_cons; [congruence | auto]. }
    rewrite Hsplit, IH. destruct (sel t) as [k' |]; [| lia].
    destruct (bool_decide (k' ∈ keys)); cbn [length]; lia.
Qed.

Lemma last14_keys_length (now : Date) : length (last14_keys now) = 14%nat.
Proof. reflexivity. Qed.

Lemma last14_read (inCat : list Todo) (now : Date) (k : string) :
  k ∈ last14_keys now ->
  read_count (foldl last14_step (zero_counters (last14_keys now)) inCat) k
  = count_sel sel_done inCat k.
Proof. intros Hk. rewrite last14_fold_sel. now apply counter_read. Qed.

Lemma last14_window_pred (now : Date) (t : Todo) :
  match sel_done t with
  | Some k => bool_decide (k ∈ last14_keys now)
  | None => false
  end
  = done t && match doneDay t with
              | Some k => bool_decide (k ∈ window14 now)
              | None => false
              end.
Proof.
  unfold sel_done. destruct (doneDay t) as [k |]; [| now rewrite andb_false_r].
  destruct (done t); cbn [andb]; [| reflexivity].
  destruct (truthy k) eqn:Htr.
  - apply bool_decide_ext, elem_of_last14_keys.
  - symmetry. apply bool_decide_eq_false_2. intros Hk.
    apply window14_truthy in Hk. congruence.
Qed.

Lemma filter_ext_bool {A} (f g : A -> bool) (l : list A) :
  (forall x, f x = g x) -> List.filter f l = List.filter g l.
Proof.
  intros H. induction l as [|x l IH]; cbn; [reflexivity |]. now rewrite H, IH.
Qed.

(** C4. For every task collection and every value of today, the 14-day
    cumulative series has exactly 14 values, never decreases from one
    position to a later one, and ends with the number of tasks that are
    done and whose [doneDay] is one of the 14 calendar days ending today. *)
Theorem last14_cumulative_series (inCat : list Todo) (now : Date) :
  length (last14 inCat now) = 14%nat
  /\ (forall (i j : nat) (a b : Z),
        (i <= j)%nat ->
        last14 inCat now !! i = Some a -> last14 inCat now !! j = Some b -> a <= b)
  /\ last (last14 inCat now) = Some (Z.of_nat (length (done_in_window14 inCat now))).
Proof.
  unfold last14.
  set (keys := last14_keys now).
  set (perDay := foldl last14_step (zero_counters keys) inCat).
  assert (Hread : forall k, k ∈ keys -> read_count perDay k = count_sel sel_done inCat k)
    by (intros k Hk; now apply last14_read).
  assert (Hlen : length (running_sums 0 perDay keys) = 14%nat)
    by (rewrite running_sums_length; apply last14_keys_length).
  split; [exact Hlen |]. split.
  - intros i j a b Hij Ha Hb.
    apply running_sums_lookup in Ha. apply running_sums_lookup in Hb. subst a b.
    rewrite <- !firstn_map.
    assert (Hpos : Forall (fun x => 0 <= x) (map (read_count perDay) keys)).
    { apply Forall_forall. intros x (k & -> & Hk)%list_elem_of_fmap.
      rewrite Hread by exact Hk. apply count_sel_nonneg. }
    pose proof (sumZ_take_mono _ (S i) (S j) Hpos ltac:(lia)). lia.
  - rewrite last_lookup, Hlen. cbn [Nat.pred].
    destruct (running_sums 0 perDay keys !! 13%nat) as [v |] eqn:Hv.
    2:{ apply lookup_ge_None in Hv. lia. }
    apply running_sums_lookup in Hv. f_equal. rewrite Hv.
    rewrite take_ge by (subst keys; rewrite last14_keys_length; lia).
    assert (Hmap : map (read_count perDay) keys = map (count_sel sel_done inCat) keys).
    { apply list_fmap_ext. intros i k Hk. apply Hread.
      eapply list_elem_of_lookup_2. exact Hk. }
    rewrite Hmap, sum_count_sel by apply last14_keys_NoDup.
    unfold done_in_window14. subst keys.
    rewrite (filter_ext_bool _ _ inCat (last14_window_pred now)). lia.
Qed.

(** ** The weekly aggregate *)

Lemma weekStats_step_sel (p d : gmap string pval) (t : Todo) :
  weekStats_step (p, d) t = (bump_opt p (sel_due t), bump_opt d (sel_done t)).
Proof.
  unfold weekStats_step, sel_due, sel_done. f_equal.
  - destruct (dueDay t) as [k |]; [| reflexivity]. destruct (truthy k); reflexivity.
  - destruct (doneDay t) as [k |]; [| reflexivity].
    destruct (done t && truthy k); reflexivity.
Qed.

Lemma weekStats_fold_sel (l : list Todo) (p d : gmap string pval) :
  foldl weekStats_step (p, d) l
  = (foldl (fun o t => bump_opt o (sel_due t)) p l,
     foldl (fun o t => bump_opt o (sel_done t)) d l).
Proof.
  revert p d. induction l as [|t l IH]; intros p d; cbn [foldl]; [reflexivity |].
  now rewrite weekStats_step_sel, IH.
Qed.

Lemma weekKeys_truthy (now : Date) (k : string) :
  k ∈ weekKeysMonSun now -> truthy k = true.
Proof.
  unfold weekKeysMonSun. intros (i & -> & _)%list_elem_of_fmap. apply dayKey_truthy.
Qed.

Lemma count_sel_due (l : list Todo) (k : string) :
  truthy k = true -> count_sel sel_due l k = planned_by_dueDay l k.
Proof.
  intros Hk. unfold count_sel, planned_by_dueDay. do 2 f_equal.
  apply filter_ext_bool. intros t. unfold sel_due.
  destruct (dueDay t) as [k' |].
  - destruct (truthy k') eqn:Hk'; [apply bool_decide_ext; split; congruence |].
    rewrite !bool_decide_eq_false_2; [reflexivity | | discriminate].
    intros [= ->]. congruence.
  - apply bool_decide_ext. split; discriminate.
Qed.

Lemma count_sel_done (l : list Todo) (k : string) :
  truthy k = true -> count_sel sel_done l k = done_by_doneDay l k.
Proof.
  intros Hk. unfold count_sel, done_by_doneDay. do 2 f_equal.
  apply filter_ext_bool. intros t. unfold sel_done.
  destruct (doneDay t) as [k' |].
  - destruct (done t); cbn [andb].
    + destruct (truthy k') eqn:Hk'; [apply bool_decide_ext; split; congruence |].
      rewrite !bool_decide_eq_false_2; [reflexivity | | discriminate].
      intros [= ->]. congruence.
    + apply bool_decide_eq_false_2. discriminate.
  - rewrite (bool_decide_eq_false_2 (None = Some k)) by discriminate.
    now rewrite andb_false_r.
Qed.

(** What [weekStats] computes: one entry per day key of the week, in
    order; its [planned] counts the tasks that carry that key as [dueDay],
    its [done] counts the done tasks that carry it as [doneDay]. *)
Lemma weekStats_entries (inCat : list Todo) (now : Date) :
  weekStats inCat now
  = map (fun k => {| Week.key := k;
                     Week.planned := planned_by_dueDay inCat k;
                     Week.done := done_by_doneDay inCat k |}) (weekKeysMonSun now).
Proof.
  unfold weekStats. rewrite weekStats_fold_sel.
  apply list_fmap_ext. intros i k Hk.
  apply list_elem_of_lookup_2 in Hk.
  pose proof (weekKeys_truthy now k Hk) as Htr.
  rewrite !counter_read by exact Hk.
  now rewrite count_sel_due, count_sel_done.
Qed.

(** Today is one of the seven keys of its Monday-start week. *)
Lemma today_in_week (now : Date) : dayKey now ∈ weekKeysMonSun now.
Proof.
  unfold weekKeysMonSun, startOfWeekMonday.
  set (diff := if getDay now =? 0 then -6 else 1 - getDay now).
  assert (Hdiff : -6 <= diff <= 0).
  { subst diff. unfold getDay.
    pose proof (Z.mod_pos_bound (day now + 4) 7 ltac:(lia)).
    destruct (Z.eqb_spec ((day now + 4) mod 7) 0); lia. }
  apply list_elem_of_fmap. exists (- diff). split.
  - apply dayKey_day. rewrite day_addDays. cbn [setHours0 day].
    rewrite day_setDate. lia.
  - apply elem_of_seqZ. lia.
Qed.

(** C2, at a collection holding one task without [dueDay] (a daily task as
    [addTodo] creates it) on Thursday 2024-02-29: the week is
    2024-02-26 .. 2024-03-03 and contains today's key, one task has today
    as its effective due key, and yet [weekStats] reports [planned = 0] for
    every day of the week, today included. *)
Theorem weekStats_planned_ignores_undated_tasks :
  dayKey leap_thursday = "2024-02-29"
  /\ dayKey leap_thursday ∈ weekKeysMonSun leap_thursday
  /\ planned_by_effective_due [buy_milk] (dayKey leap_thursday) (dayKey leap_thursday) = 1
  /\ weekStats [buy_milk] leap_thursday
     = [ {| Week.key := "2024-02-26"; Week.planned := 0; Week.done := 0 |};
         {| Week.key := "2024-02-27"; Week.planned := 0; Week.done := 0 |};
         {| Week.key := "2024-02-28"; Week.planned := 0; Week.done := 0 |};
         {| Week.key := "2024-02-29"; Week.planned := 0; Week.done := 0 |};
         {| Week.key := "2024-03-01"; Week.planned := 0; Week.done := 0 |};
         {| Week.key := "2024-03-02"; Week.planned := 0; Week.done := 0 |};
         {| Week.key := "2024-03-03"; Week.planned := 0; Week.done := 0 |} ].
Proof.
  split; [vm_compute; reflexivity |].
  split; [apply today_in_week |].
  split; vm_compute; reflexivity.
Qed.

(** ** Filters *)

Lemma insert_by_Permutation cmp x l : insert_by cmp x l ≡ₚ x :: l.
Proof.
  induction l as [|y l IH]; cbn [insert_by]; [reflexivity |].
  destruct (cmp_positive (cmp x y)); [| reflexivity].
  rewrite IH. apply Permutation_swap.
Qed.

(** Sorting rearranges the list and nothing else. *)
Lemma sort_by_Permutation cmp l : sort_by cmp l ≡ₚ l.
Proof.
  unfold sort_by. induction l as [|x l IH]; cbn [foldr]; [reflexivity |].
  now rewrite insert_by_Permutation, IH.
Qed.

Lemma elem_of_bool_filter {A} (f : A -> bool) (l : list A) (x : A) :
  x ∈ List.filter f l <-> x ∈ l /\ f x = true.
Proof. rewrite !list_elem_of_In. apply filter_In. Qed.

Lemma tomorrow_is_not_today (now : Date) : dayKey (addDays now 1) <> dayKey now.
Proof. intros H. apply dayKey_inj in H. rewrite day_addDays in H. lia. Qed.

(** C7. For every task collection, the filter "today" selects exactly the
    tasks whose effective due key ([dueDay] if present, otherwise today's
    day key) equals today: the visible list is a rearrangement of those
    tasks. In particular, on a collection of one task with no [dueDay] and
    one task with [dueDay] equal to tomorrow, it returns exactly the
    first. *)
Theorem visibleTodos_today_filter (inCat : list Todo) (now : Date) :
  visibleTodos inCat Filter.today now
    ≡ₚ List.filter (fun t => bool_decide (opt_or (dueDay t) (dayKey now) = dayKey now)) inCat
  /\ (forall t, t ∈ visibleTodos inCat Filter.today now
                <-> t ∈ inCat /\ opt_or (dueDay t) (dayKey now) = dayKey now)
  /\ (forall t1 t2,
        dueDay t1 = None -> dueDay t2 = Some (dayKey (addDays now 1)) ->
        visibleTodos [t1; t2] Filter.today now = [t1]).
Proof.
  assert (Hperm : forall l, visibleTodos l Filter.today now
    ≡ₚ List.filter (fun t => bool_decide (opt_or (dueDay t) (dayKey now) = dayKey now)) l).
  { intros l. unfold visibleTodos. apply sort_by_Permutation. }
  split; [apply Hperm |]. split.
  - intros t. rewrite (Hperm inCat), elem_of_bool_filter.
    now rewrite bool_decide_eq_true.
  - intros t1 t2 H1 H2. unfold visibleTodos. cbn [List.filter].
    rewrite H1, H2. cbn [opt_or].
    rewrite bool_decide_eq_true_2 by reflexivity.
    rewrite bool_decide_eq_false_2 by apply tomorrow_is_not_today.
    reflexivity.
Qed.

(** The example of C7 on 2024-02-29: an undated task and a task due on
    2024-03-01. *)
Lemma visibleTodos_today_filter_witness :
  visibleTodos
    [buy_milk;
     {| id := "7d1f0c6e-0002"; text := "Send report"; done := false;
        createdAt := Num 1709200000001; category := daily;
        doneAt := None; doneDay := None;
        dueDay := Some (dayKey (addDays leap_thursday 1)); workoutPart := None |}]
    Filter.today leap_thursday
  = [buy_milk].
Proof.
  apply (visibleTodos_today_filter [] leap_thursday); reflexivity.
Defined.

(** ** The store: what the helpers touch *)

Ltac store_field :=
  match goal with
  | s : St.State |- _ => destruct s as [? ? ? ? ? ? ? ? ld ? ? ?]; destruct ld; reflexivity
  end.

Lemma setTodos_todos f s : St.todos (setTodos f s) = f (St.todos s).
Proof. store_field. Qed.

Lemma patchRemote_todos now i p s : St.todos (patchRemote now i p s) = St.todos s.
Proof. unfold patchRemote. destruct (St.user s); reflexivity. Qed.

Lemma deleteRemote_todos i s : St.todos (deleteRemote i s) = St.todos s.
Proof. unfold deleteRemote. destruct (St.user s); reflexivity. Qed.

Lemma deleteRemote_each_todos rejected ids s :
  St.todos (deleteRemote_each rejected ids s) = St.todos s.
Proof.
  revert s. induction ids as [|i ids IH]; intros s; cbn [deleteRemote_each];
    [reflexivity |].
  destruct (match St.user s with Some uid => rejected (DeleteDoc uid i) | None => false end);
    [| rewrite IH]; apply deleteRemote_todos.
Qed.

(** ** Toggling *)

Lemma toggled_id e t : id (toggled e t) = id t.
Proof. unfold toggled. destruct (done t); reflexivity. Qed.

Lemma find_replaced (i : string) (next : Todo) (l : list Todo) (current : Todo) :
  id next = i ->
  List.find (fun t => bool_decide (id t = i)) l = Some current ->
  List.find (fun t => bool_decide (id t = i))
    (map (fun t => if bool_decide (id t = i) then next else t) l) = Some next.
Proof.
  intros Hid. induction l as [|t l IH]; cbn [List.find map]; [discriminate |].
  destruct (decide (id t = i)) as [Ht | Ht].
  - rewrite (bool_decide_eq_true_2 _ Ht). cbn [List.find].
    now rewrite (bool_decide_eq_true_2 _ Hid).
  - rewrite (bool_decide_eq_false_2 _ Ht). cbn [List.find].
    rewrite (bool_decide_eq_false_2 _ Ht). exact IH.
Qed.

Lemma toggleTodo_todos e i s current :
  List.find (fun t => bool_decide (id t = i)) (St.todos s) = Some current ->
  St.todos (toggleTodo e i s)
  = map (fun t => if bool_decide (id t = i) then toggled e current else t) (St.todos s).
Proof.
  intros Hfind. unfold toggleTodo. rewrite Hfind.
  now rewrite patchRemote_todos, setTodos_todos.
Qed.

(** C5. Toggling a task with [done = false] replaces it by a task with
    [done = true], [doneAt] the current time and [doneDay] today's day key;
    toggling that task again gives [done = false] with [doneAt] and
    [doneDay] absent. After either step [doneAt] is present exactly when
    [done] is true, and nothing else of the task changes. *)
Theorem toggleTodo_sets_and_clears_completion
    (e e' : Env) (i : string) (s : St.State) (current : Todo) :
  List.find (fun t => bool_decide (id t = i)) (St.todos s) = Some current ->
  done current = false ->
  let s1 := toggleTodo e i s in
  let s2 := toggleTodo e' i s1 in
  exists next back,
    List.find (fun t => bool_decide (id t = i)) (St.todos s1) = Some next
    /\ St.todos s1 = map (fun t => if bool_decide (id t = i) then next else t) (St.todos s)
    /\ done next = true
    /\ doneAt next = Some (Num (stamp e))
    /\ doneDay next = Some (dayKey (clock e))
    /\ List.find (fun t => bool_decide (id t = i)) (St.todos s2) = Some back
    /\ St.todos s2 = map (fun t => if bool_decide (id t = i) then back else t) (St.todos s1)
    /\ done back = false
    /\ doneAt back = None
    /\ doneDay back = None
    /\ (is_Some (doneAt next) <-> done next = true)
    /\ (is_Some (doneAt back) <-> done back = true)
    /\ (id next, text next, createdAt next, category next, dueDay next, workoutPart next)
       = (id current, text current, createdAt current, category current,
          dueDay current, workoutPart current)
    /\ (id back, text back, createdAt back, category back, dueDay back, workoutPart back)
       = (id current, text current, createdAt current, category current,
          dueDay current, workoutPart current).
Proof.
  intros Hfind Hdone s1 s2.
  assert (Hid : id current = i).
  { apply find_some in Hfind as [_ H]. now apply bool_decide_eq_true in H. }
  set (next := toggled e current).
  assert (Hfind1 : List.find (fun t => bool_decide (id t = i)) (St.todos s1) = Some next).
  { subst s1. rewrite (toggleTodo_todos e i s current Hfind).
    eapply find_replaced; [| exact Hfind]. subst next. now rewrite toggled_id. }
  exists next, (toggled e' next).
  assert (Hnext : next = mark_done current (stamp e) (dayKey (clock e))).
  { subst next. unfold toggled. now rewrite Hdone. }
  assert (Hback : toggled e' next = mark_not_done next).
  { unfold toggled. now rewrite Hnext. }
  split; [exact Hfind1 |].
  split; [exact (toggleTodo_todos e i s current Hfind) |].
  split; [rewrite Hnext; reflexivity |].
  split; [rewrite Hnext; reflexivity |].
  split; [rewrite Hnext; reflexivity |].
  split.
  { subst s2. rewrite (toggleTodo_todos e' i s1 next Hfind1).
    eapply find_replaced; [| exact Hfind1].
    rewrite toggled_id. subst next. rewrite toggled_id. exact Hid. }
  split; [subst s2; exact (toggleTodo_todos e' i s1 next Hfind1) |].
  rewrite Hback.
  split; [reflexivity |]. split; [reflexivity |]. split; [reflexivity |].
  split; [rewrite Hnext; cbn; split; eauto |].
  split; [cbn; split; [intros [x Hx]; discriminate | discriminate] |].
  split; rewrite Hnext; reflexivity.
Qed.

Lemma toggleTodo_sets_and_clears_completion_witness :
  List.find (fun t => bool_decide (id t = "7d1f0c6e-0001"))
    (St.todos (form_state (Some "u1") daily [leg_day; buy_milk])) = Some buy_milk
  /\ done buy_milk = false
  /\ exists next back,
       St.todos (toggleTodo sample_env "7d1f0c6e-0001"
                   (form_state (Some "u1") daily [leg_day; buy_milk]))
       = [leg_day; next]
       /\ done next = true /\ doneDay next = Some "2024-02-29"
       /\ done back = false /\ doneAt back = None /\ doneDay back = None.
Proof.
  split; [reflexivity |]. split; [reflexivity |].
  destruct (toggleTodo_sets_and_clears_completion sample_env next_day_env
              "7d1f0c6e-0001" (form_state (Some "u1") daily [leg_day; buy_milk])
              buy_milk eq_refl eq_refl)
    as (next & back & _ & Htodos & Hd & _ & Hday & _ & _ & Hb & Hba & Hbd & _).
  exists next, back. split; [exact Htodos |]. split; [exact Hd |].
  split; [exact Hday |]. split; [exact Hb |]. split; [exact Hba | exact Hbd].
Defined.

(** ** Firestore mappers *)

Lemma prop_insert_eq (d : gmap string jsval) (k : string) (v : jsval) : prop (<[k := v]> d) k = v.
Proof. unfold prop. now rewrite lookup_insert_eq. Qed.

Lemma prop_insert_ne (d : gmap string jsval) (k k' : string) (v : jsval) :
  k <> k' -> prop (<[k := v]> d) k' = prop d k'.
Proof. intros H. unfold prop. now rewrite lookup_insert_ne. Qed.

Ltac read_prop :=
  unfold toFirestoreTodo;
  repeat (rewrite prop_insert_ne by discriminate);
  apply prop_insert_eq.

(** The fields of a written document, read back. *)
Lemma written_text (t : Todo) (v : jsval) :
  prop (<["updatedAt" := v]> (toFirestoreTodo t)) "text" = JStr (text t).
Proof. read_prop. Qed.

Lemma written_done (t : Todo) (v : jsval) :
  prop (<["updatedAt" := v]> (toFirestoreTodo t)) "done" = JBool (done t).
Proof. read_prop. Qed.

Lemma written_createdAt (t : Todo) (v : jsval) :
  prop (<["updatedAt" := v]> (toFirestoreTodo t)) "createdAt" = JNum (createdAt t).
Proof. read_prop. Qed.

Lemma written_category (t : Todo) (v : jsval) :
  prop (<["updatedAt" := v]> (toFirestoreTodo t)) "category" = JStr (category t).
Proof. read_prop. Qed.

Lemma written_doneAt (t : Todo) (v : jsval) :
  prop (<["updatedAt" := v]> (toFirestoreTodo t)) "doneAt" = num_or_null (doneAt t).
Proof. read_prop. Qed.

Lemma written_doneDay (t : Todo) (v : jsval) :
  prop (<["updatedAt" := v]> (toFirestoreTodo t)) "doneDay" = str_or_null (doneDay t).
Proof. read_prop. Qed.

Lemma written_dueDay (t : Todo) (v : jsval) :
  prop (<["updatedAt" := v]> (toFirestoreTodo t)) "dueDay" = str_or_null (dueDay t).
Proof. read_prop. Qed.

Lemma written_workoutPart (t : Todo) (v : jsval) :
  prop (<["updatedAt" := v]> (toFirestoreTodo t)) "workoutPart" = str_or_null (workoutPart t).
Proof. read_prop. Qed.

(** Reading back a written document gives the task, whatever the value of
    its [updatedAt] field. *)
Lemma fromFirestore_toFirestore
    (StringToNumber : string -> number) (now : Z) (t : Todo) (v : jsval) :
  fromFirestoreTodo StringToNumber now (id t) (<["updatedAt" := v]> (toFirestoreTodo t)) = t.
Proof.
  unfold fromFirestoreTodo.
  rewrite written_text, written_done, written_createdAt, written_category,
    written_doneAt, written_doneDay, written_dueDay, written_workoutPart.
  destruct t as [i tx dn cr cat [da |] [dd |] [du |] [wp |]]; reflexivity.
Qed.

Lemma updatedAt_overwritten (t : Todo) :
  <["updatedAt" := serverTimestamp]> (toFirestoreTodo t) = toFirestoreTodo t.
Proof.
  apply insert_id. unfold toFirestoreTodo.
  repeat (rewrite lookup_insert_ne by discriminate). apply lookup_insert_eq.
Qed.

(** C6. For every fully populated task record, reading back the document
    written for it, under the same id, gives the task exactly; the
    [updatedAt] field stamped by the server plays no part: the result is
    the same whatever that field holds. *)
Theorem firestore_roundtrip
    (StringToNumber : string -> number) (now : Z) (t : Todo) :
  fully_populated t ->
  fromFirestoreTodo StringToNumber now (id t) (toFirestoreTodo t) = t
  /\ forall v, fromFirestoreTodo StringToNumber now (id t)
                 (<["updatedAt" := v]> (toFirestoreTodo t)) = t.
Proof.
  intros _. split.
  - rewrite <- (updatedAt_overwritten t) at 1. apply fromFirestore_toFirestore.
  - intros v. apply fromFirestore_toFirestore.
Qed.

Lemma firestore_roundtrip_witness :
  fully_populated leg_day
  /\ fromFirestoreTodo (fun _ => NaN) 0 (id leg_day) (toFirestoreTodo leg_day) = leg_day.
Proof.
  assert (H : fully_populated leg_day) by (repeat split; eexists; reflexivity).
  split; [exact H |].
  exact (proj1 (firestore_roundtrip (fun _ => NaN) 0 leg_day H)).
Defined.

(** ** The axis ceiling *)

Lemma log2_tenth (n : Z) : 10 <= n -> Z.log2 (n / 10) <= Z.log2 n - 1.
Proof.
  intros Hn.
  assert (Hle : Z.log2 (n / 10) <= Z.log2 (n / 2)).
  { apply Z.log2_le_mono. Z.to_euclidean_division_equations. lia. }
  assert (Hhalf : Z.log2 (n / 2) = Z.log2 n - 1).
  { change 2 with (2 ^ 1) at 1. rewrite <- Z.shiftr_div_pow2 by lia.
    rewrite Z.log2_shiftr by lia.
    assert (1 <= Z.log2 n) by (apply (Z.log2_le_mono 2 n); lia). lia. }
  lia.
Qed.

(** [floor_log10_aux] finds the exponent of the largest power of ten that
    does not exceed [n], given enough rounds. *)
Lemma floor_log10_aux_spec (fuel : nat) (n : Z) :
  1 <= n -> Z.log2 n <= Z.of_nat fuel ->
  0 <= floor_log10_aux fuel n
  /\ 10 ^ floor_log10_aux fuel n <= n < 10 ^ (floor_log10_aux fuel n + 1).
Proof.
  revert n. induction fuel as [|fuel IH]; intros n Hn Hlog; cbn [floor_log10_aux].
  - assert (Hl : Z.log2 n = 0) by (pose proof (Z.log2_nonneg n); lia).
    pose proof (Z.log2_spec n ltac:(lia)) as Hs. rewrite Hl in Hs.
    change (2 ^ Z.succ 0) with 2 in Hs. change (10 ^ 0) with 1.
    change (10 ^ (0 + 1)) with 10. lia.
  - destruct (Z.ltb_spec n 10) as [Hlt | Hge].
    + change (10 ^ 0) with 1. change (10 ^ (0 + 1)) with 10. lia.
    + destruct (IH (n / 10)) as (Hk & Hlo & Hhi).
      * Z.to_euclidean_division_equations. lia.
      * pose proof (log2_tenth n Hge). lia.
      * set (k := floor_log10_aux fuel (n / 10)) in *.
        split; [lia |].
        replace (1 + k) with (k + 1) by lia.
        rewrite (Z.pow_add_r 10 (k + 1) 1) by lia.
        rewrite (Z.pow_add_r 10 k 1) in * by lia.
        change (10 ^ 1) with 10 in *.
        Z.to_euclidean_division_equations. nia.
Qed.

Lemma floor_log10_spec (n : Z) :
  1 <= n ->
  0 <= floor_log10 n /\ 10 ^ floor_log10 n <= n < 10 ^ (floor_log10 n + 1).
Proof.
  intros Hn. unfold floor_log10. apply floor_log10_aux_spec; [exact Hn |].
  pose proof (Z.log2_nonneg n). lia.
Qed.

Lemma mantissa_le (n p c : Z) :
  0 < p -> Qle_bool (Qmake n (Z.to_pos p)) (inject_Z c) = (n <=? c * p).
Proof.
  intros Hp. unfold Qle_bool, inject_Z. cbn [Qnum Qden].
  rewrite Z2Pos.id by exact Hp. f_equal; lia.
Qed.

(** Up to 100 the logarithm is not used. *)
Lemma niceCeil_small (L : Z -> Z) (n : Z) :
  n <= 100 ->
  niceCeil L n = (if n <=? 10 then 10 else if n <=? 20 then 20
                  else if n <=? 50 then 50 else 100).
Proof.
  intros Hn. unfold niceCeil.
  destruct (n <=? 10); [reflexivity |]. destruct (n <=? 20); [reflexivity |].
  destruct (n <=? 50); [reflexivity |].
  now rewrite (proj2 (Z.leb_le n 100)) by exact Hn.
Qed.

(** Above 100 the result is decided by the exponent the platform returns. *)
Lemma niceCeil_above (L : Z -> Z) (n : Z) :
  100 < n -> 0 <= L n ->
  niceCeil L n = (if n <=? 2 * 10 ^ L n then 2 * 10 ^ L n
                  else if n <=? 5 * 10 ^ L n then 5 * 10 ^ L n
                  else 10 * 10 ^ L n).
Proof.
  intros Hn Hk.
  assert (Hp : 0 < 10 ^ L n) by (apply Z.pow_pos_nonneg; lia).
  unfold niceCeil. rewrite !(proj2 (Z.leb_gt _ _)) by lia. cbv zeta.
  now rewrite !mantissa_le by exact Hp.
Qed.

(** Where the platform's logarithm is exact, the axis ceiling is the one
    the specification describes: with [p] the largest power of ten that
    does not exceed [n], the least of [2 * p], [5 * p] and [10 * p] that
    is at least [n]. *)
Lemma niceCeil_where_log_exact (L : Z -> Z) (n : Z) :
  100 < n -> L n = floor_log10 n ->
  exists k, 0 <= k
    /\ 10 ^ k <= n < 10 ^ (k + 1)
    /\ niceCeil L n = (if n <=? 2 * 10 ^ k then 2 * 10 ^ k
                       else if n <=? 5 * 10 ^ k then 5 * 10 ^ k
                       else 10 * 10 ^ k)
    /\ n <= niceCeil L n.
Proof.
  intros Hn HL. destruct (floor_log10_spec n ltac:(lia)) as (Hk & Hlo & Hhi).
  exists (floor_log10 n). split; [exact Hk |]. split; [lia |].
  rewrite (niceCeil_above L n Hn) by (rewrite HL; exact Hk). rewrite HL.
  split; [reflexivity |].
  rewrite (Z.pow_add_r 10 _ 1) in Hhi by lia. change (10 ^ 1) with 10 in Hhi.
  destruct (Z.leb_spec n (2 * 10 ^ floor_log10 n)); [lia |].
  destruct (Z.leb_spec n (5 * 10 ^ floor_log10 n)); lia.
Qed.

(** The values the specification lists: the first four on every platform,
    the last three where the logarithm is exact. *)
Example niceCeil_listed_values (L : Z -> Z) :
  (niceCeil L 7 = 10 /\ niceCeil L 15 = 20 /\ niceCeil L 37 = 50 /\ niceCeil L 83 = 100)
  /\ (niceCeil floor_log10 150 = 200 /\ niceCeil floor_log10 430 = 500
      /\ niceCeil floor_log10 1200 = 2000).
Proof. split; repeat split; vm_compute; reflexivity. Qed.



(** ** Clearing done tasks *)

Lemma clearDone_todos (e : Env) (s : St.State) :
  St.todos (clearDone e s)
  = List.filter (fun t => negb (bool_decide (category t = St.category s) && done t))
      (St.todos s).
Proof.
  unfold clearDone. rewrite deleteRemote_each_todos, setTodos_todos.
  destruct s; reflexivity.
Qed.

(** C9. For every task collection and every selected category, clearing
    done tasks removes exactly the tasks that are done and belong to the
    selected category: a task is in the collection afterwards if and only
    if it was there before and is not-done or of another category; the
    tasks that stay are the same records, in the same order. *)
Theorem clearDone_removes_done_in_category (e : Env) (s : St.State) :
  (forall t, t ∈ St.todos (clearDone e s)
             <-> t ∈ St.todos s /\ ~ (category t = St.category s /\ done t = true))
  /\ (forall t, t ∈ St.todos s -> done t = false -> t ∈ St.todos (clearDone e s))
  /\ (forall t, t ∈ St.todos s -> category t <> St.category s -> t ∈ St.todos (clearDone e s))
  /\ sublist (St.todos (clearDone e s)) (St.todos s)
  /\ List.filter (fun t => negb (bool_decide (category t = St.category s) && done t))
       (St.todos (clearDone e s)) = St.todos (clearDone e s).
Proof.
  assert (Hmem : forall t, t ∈ St.todos (clearDone e s)
             <-> t ∈ St.todos s /\ ~ (category t = St.category s /\ done t = true)).
  { intros t. rewrite clearDone_todos, elem_of_bool_filter.
    rewrite negb_true_iff, andb_false_iff, bool_decide_eq_false.
    destruct (done t); intuition congruence. }
  split; [exact Hmem |]. split; [| split; [| split]].
  - intros t Ht Hd. apply Hmem. split; [exact Ht |]. intros [_ H]. congruence.
  - intros t Ht Hc. apply Hmem. split; [exact Ht |]. intros [H _]. congruence.
  - rewrite clearDone_todos. generalize (St.todos s). intros l.
    induction l as [|t l IH]; cbn [List.filter]; [constructor |].
    destruct (negb _); [now apply sublist_skip | now apply sublist_cons].
  - rewrite clearDone_todos. generalize (St.todos s). intros l.
    induction l as [|t l IH]; cbn [List.filter]; [reflexivity |].
    destruct (negb _) eqn:Hk; [| exact IH]. cbn [List.filter]. now rewrite Hk, IH.
Qed.

(** ** Adding tasks *)

Ltac fields_done :=
  repeat split; intros;
  repeat match goal with
         | H : is_Some None |- _ => destruct H as [? H]; discriminate H
         | H : _ \/ _ |- _ => destruct H
         end;
  try reflexivity; try discriminate; try congruence; eauto.

Lemma newTodo_add_fields (e : Env) (s : St.State) (trimmed : string) :
  let t := newTodo_add e s trimmed in
  id t = randomUUID e /\ text t = trimmed /\ done t = false
  /\ category t = St.category s /\ category_fields_ok t.
Proof.
  unfold newTodo_add, category_fields_ok, work, workout, daily.
  destruct (decide (St.category s = "workout")) as [Hw | Hw].
  - rewrite (bool_decide_eq_true_2 _ Hw). cbn. rewrite Hw. fields_done.
  - rewrite (bool_decide_eq_false_2 _ Hw).
    destruct (decide (St.category s = "work")) as [Hk | Hk].
    + rewrite (bool_decide_eq_true_2 _ Hk). cbn. rewrite Hk. fields_done.
    + rewrite (bool_decide_eq_false_2 _ Hk). cbn. fields_done.
Qed.

Lemma newTodo_inline_fields (DateParse : string -> option Date)
    (e : Env) (s : St.State) (trimmed day : string) :
  let t := newTodo_inline DateParse e s trimmed day in
  id t = randomUUID e /\ text t = trimmed /\ done t = false
  /\ category t = St.category s /\ category_fields_ok t.
Proof.
  unfold newTodo_inline, category_fields_ok, work, workout, daily.
  destruct (decide (St.category s = "workout")) as [Hw | Hw].
  - rewrite (bool_decide_eq_true_2 _ Hw). cbn. rewrite Hw. fields_done.
  - rewrite (bool_decide_eq_false_2 _ Hw).
    destruct (decide (St.category s = "work")) as [Hk | Hk].
    + rewrite (bool_decide_eq_true_2 _ Hk). cbn. rewrite Hk. fields_done.
    + rewrite (bool_decide_eq_false_2 _ Hk). cbn. fields_done.
Qed.

Lemma addTodo_signed_out (e : Env) (s : St.State) :
  St.user s = None -> addTodo e s = s.
Proof. intros H. unfold addTodo. now rewrite H. Qed.

Lemma addTodo_blank (e : Env) (s : St.State) :
  truthy (trim (St.text s)) = false -> addTodo e s = s.
Proof. intros H. unfold addTodo. rewrite H. now destruct (St.user s). Qed.

Lemma addTodo_signed_in (e : Env) (s : St.State) (uid : string) :
  St.user s = Some uid -> truthy (trim (St.text s)) = true ->
  let t := newTodo_add e s (trim (St.text s)) in
  St.todos (addTodo e s) = t :: St.todos s
  /\ St.cache (addTodo e s) = (if St.loaded s then Some (t :: St.todos s) else St.cache s)
  /\ St.remote (addTodo e s)
     = St.remote s ++ [SetDocMerge uid (id t) (toFirestoreTodo t)].
Proof.
  intros Hu Ht. unfold addTodo. rewrite Hu, Ht. cbn [negb].
  unfold upsertRemote, setTodos, persistTodos.
  destruct s as [u c tx du wp idy itx tds ld pl ca rm]. cbn in Hu. subst u.
  destruct ld; cbn; auto.
Qed.

Lemma addTodoInline_signed_out DateParse (e : Env) (day : string) (s : St.State) :
  St.user s = None -> addTodoInline DateParse e day s = s.
Proof. intros H. unfold addTodoInline. now rewrite H. Qed.

Lemma addTodoInline_blank DateParse (e : Env) (day : string) (s : St.State) :
  truthy (trim (St.inlineText s)) = false -> addTodoInline DateParse e day s = s.
Proof. intros H. unfold addTodoInline. rewrite H. now destruct (St.user s). Qed.

Lemma addTodoInline_signed_in DateParse (e : Env) (day : string) (s : St.State)
    (uid : string) :
  St.user s = Some uid -> truthy (trim (St.inlineText s)) = true ->
  let t := newTodo_inline DateParse e s (trim (St.inlineText s)) day in
  St.todos (addTodoInline DateParse e day s) = t :: St.todos s
  /\ St.remote (addTodoInline DateParse e day s)
     = St.remote s ++ [SetDocMerge uid (id t) (toFirestoreTodo t)].
Proof.
  intros Hu Ht. unfold addTodoInline. rewrite Hu, Ht. cbn [negb].
  unfold upsertRemote, setTodos, persistTodos.
  destruct s as [u c tx du wp idy itx tds ld pl ca rm]. cbn in Hu. subst u.
  destruct ld; cbn; auto.
Qed.

(** C10. Every task created by [addTodo] or [addTodoInline] has [dueDay]
    present if and only if its category is work or workout, and
    [workoutPart] present if and only if its category is workout; a daily
    task is created without [dueDay] whatever date the form holds. Each
    handler either leaves the collection as it is or puts one such task in
    front of it, and it does the latter whenever a user is signed in and
    the trimmed text is not empty. *)
Theorem created_tasks_carry_category_fields
    (DateParse : string -> option Date) (e : Env) (s : St.State) (day : string) :
  (St.todos (addTodo e s) = St.todos s
   \/ exists t, St.todos (addTodo e s) = t :: St.todos s
        /\ category t = St.category s /\ category_fields_ok t)
  /\ (forall uid, St.user s = Some uid -> truthy (trim (St.text s)) = true ->
      exists t, St.todos (addTodo e s) = t :: St.todos s
        /\ category t = St.category s /\ category_fields_ok t)
  /\ (St.todos (addTodoInline DateParse e day s) = St.todos s
      \/ exists t, St.todos (addTodoInline DateParse e day s) = t :: St.todos s
           /\ category t = St.category s /\ category_fields_ok t)
  /\ (forall uid, St.user s = Some uid -> truthy (trim (St.inlineText s)) = true ->
      exists t, St.todos (addTodoInline DateParse e day s) = t :: St.todos s
        /\ category t = St.category s /\ category_fields_ok t).
Proof.
  assert (Hadd : forall uid, St.user s = Some uid -> truthy (trim (St.text s)) = true ->
      exists t, St.todos (addTodo e s) = t :: St.todos s
        /\ category t = St.category s /\ category_fields_ok t).
  { intros uid Hu Ht. exists (newTodo_add e s (trim (St.text s))).
    split; [apply (addTodo_signed_in e s uid Hu Ht) |].
    destruct (newTodo_add_fields e s (trim (St.text s))) as (_ & _ & _ & Hc & Hf).
    auto. }
  assert (Hinl : forall uid, St.user s = Some uid ->
      truthy (trim (St.inlineText s)) = true ->
      exists t, St.todos (addTodoInline DateParse e day s) = t :: St.todos s
        /\ category t = St.category s /\ category_fields_ok t).
  { intros uid Hu Ht. exists (newTodo_inline DateParse e s (trim (St.inlineText s)) day).
    split; [apply (addTodoInline_signed_in DateParse e day s uid Hu Ht) |].
    destruct (newTodo_inline_fields DateParse e s (trim (St.inlineText s)) day)
      as (_ & _ & _ & Hc & Hf).
    auto. }
  split; [| split; [exact Hadd | split; [| exact Hinl]]].
  - destruct (St.user s) as [uid |] eqn:Hu.
    + destruct (truthy (trim (St.text s))) eqn:Ht.
      * right. exact (Hadd uid eq_refl eq_refl).
      * left. now rewrite addTodo_blank.
    + left. now rewrite addTodo_signed_out.
  - destruct (St.user s) as [uid |] eqn:Hu.
    + destruct (truthy (trim (St.inlineText s))) eqn:Ht.
      * right. exact (Hinl uid eq_refl eq_refl).
      * left. now rewrite addTodoInline_blank.
    + left. now rewrite addTodoInline_signed_out.
Qed.

(** A daily task added while the form holds the due date 2024-03-01, and a
    workout task added inline on 2024-03-02. *)
Lemma created_tasks_carry_category_fields_witness :
  (exists t, St.todos (addTodo sample_env (form_state (Some "u1") daily [])) = [t]
     /\ text t = "Buy milk" /\ category t = daily
     /\ dueDay t = None /\ workoutPart t = None)
  /\ (exists t, St.todos (addTodoInline (fun _ => None) sample_env "2024-03-02"
                            (form_state (Some "u1") workout [])) = [t]
        /\ category t = workout
        /\ dueDay t = Some "2024-03-02" /\ workoutPart t = Some "chest").
Proof.
  pose proof (created_tasks_carry_category_fields (fun _ => None) sample_env
                (form_state (Some "u1") daily []) "2024-03-02") as (_ & Hadd & _).
  pose proof (created_tasks_carry_category_fields (fun _ => None) sample_env
                (form_state (Some "u1") workout []) "2024-03-02") as (_ & _ & _ & Hinl).
  split.
  - destruct (Hadd "u1" eq_refl eq_refl) as (t & Ht & _).
    exists t. split; [exact Ht |].
    injection Ht as <-. repeat split; reflexivity.
  - destruct (Hinl "u1" eq_refl eq_refl) as (t & Ht & _).
    exists t. split; [exact Ht |].
    injection Ht as <-. repeat split; reflexivity.
Defined.

(** C1, as the specification states it, fails: signed out, with "Buy milk"
    typed for the daily category over an empty, loaded collection,
    [addTodo] returns at its [if (!user) return] guard and the collection
    and the cache stay empty. *)
Lemma signed_out_add_counterexample :
  St.user (form_state None daily []) = None
  /\ St.todos (addTodo sample_env (form_state None daily [])) = []
  /\ St.cache (addTodo sample_env (form_state None daily [])) = Some []
  /\ ~ signed_out_add_stores_locally sample_env (form_state None daily []).
Proof.
  split; [reflexivity |]. split; [reflexivity |]. split; [reflexivity |].
  intros H. destruct (H eq_refl) as (t & _ & _ & Hin & _).
  cbn in Hin. now apply elem_of_nil in Hin.
Qed.

(** C1, amended. In a signed-out session adding a task changes nothing:
    the in-memory collection, the local cache and the record of remote
    calls are as before. In a signed-in session, adding a task whose
    trimmed text is not empty puts the new task at the front of the
    in-memory collection and, once the cache has been loaded, of the local
    cache, and issues exactly one remote upsert, for that task. *)
Theorem addTodo_signed_out_noop_signed_in_stores (e : Env) (s : St.State) :
  (St.user s = None ->
     addTodo e s = s
     /\ St.todos (addTodo e s) = St.todos s
     /\ St.cache (addTodo e s) = St.cache s
     /\ St.remote (addTodo e s) = St.remote s)
  /\ (forall uid, St.user s = Some uid -> truthy (trim (St.text s)) = true ->
      exists t,
        id t = randomUUID e /\ text t = trim (St.text s) /\ done t = false
        /\ category t = St.category s
        /\ St.todos (addTodo e s) = t :: St.todos s
        /\ (St.loaded s = true -> St.cache (addTodo e s) = Some (t :: St.todos s))
        /\ St.remote (addTodo e s)
           = St.remote s ++ [SetDocMerge uid (id t) (toFirestoreTodo t)]).
Proof.
  split.
  - intros Hu. rewrite (addTodo_signed_out e s Hu). auto.
  - intros uid Hu Ht. exists (newTodo_add e s (trim (St.text s))).
    destruct (newTodo_add_fields e s (trim (St.text s))) as (Hid & Htx & Hd & Hc & _).
    destruct (addTodo_signed_in e s uid Hu Ht) as (Htodos & Hcache & Hrem).
    repeat split; auto.
    intros Hl. now rewrite Hcache, Hl.
Qed.

Lemma addTodo_signed_out_noop_signed_in_stores_witness :
  St.user (form_state None daily [leg_day]) = None
  /\ St.todos (addTodo sample_env (form_state None daily [leg_day])) = [leg_day]
  /\ St.cache (addTodo sample_env (form_state None daily [leg_day])) = Some [leg_day]
  /\ St.remote (addTodo sample_env (form_state None daily [leg_day])) = []
  /\ St.user (form_state (Some "u1") daily [leg_day]) = Some "u1"
  /\ truthy (trim (St.text (form_state (Some "u1") daily [leg_day]))) = true
  /\ exists t,
       text t = "Buy milk"
       /\ St.todos (addTodo sample_env (form_state (Some "u1") daily [leg_day]))
          = [t; leg_day]
       /\ St.cache (addTodo sample_env (form_state (Some "u1") daily [leg_day]))
          = Some [t; leg_day]
       /\ St.remote (addTodo sample_env (form_state (Some "u1") daily [leg_day]))
          = [SetDocMerge "u1" (id t) (toFirestoreTodo t)].
Proof.
  destruct (addTodo_signed_out_noop_signed_in_stores sample_env
              (form_state None daily [leg_day])) as [Hout _].
  destruct (Hout eq_refl) as (_ & Ht & Hc & Hr).
  destruct (addTodo_signed_out_noop_signed_in_stores sample_env
              (form_state (Some "u1") daily [leg_day])) as [_ Hin].
  destruct (Hin "u1" eq_refl eq_refl) as (t & _ & Htx & _ & _ & Htodos & Hcache & Hrem).
  split; [reflexivity |]. split; [exact Ht |]. split; [exact Hc |].
  split; [exact Hr |]. split; [reflexivity |]. split; [reflexivity |].
  exists t. split; [exact Htx |]. split; [exact Htodos |].
  split; [exact (Hcache eq_refl) | exact Hrem].
Defined.

(* ================================================================= *)
(** * Further properties of the component *)

(** ** Date helpers *)

(** X1. [addDays] moves the local calendar day by exactly the given number
    of days, whatever the time of day: two moves land on the day of one
    move by the sum, a move by 0 days stays on the day, and moves by
    different numbers of days land on different days, so their day keys
    differ. *)
Theorem addDays_adds_calendar_days (d : Date) (a b : Z) :
  day (addDays d a) = day d + a
  /\ dayKey (addDays (addDays d a) b) = dayKey (addDays d (a + b))
  /\ dayKey (addDays d 0) = dayKey d
  /\ (dayKey (addDays d a) = dayKey (addDays d b) <-> a = b)
  /\ (dayKey (addDays d a) = dayKey d <-> a = 0).
Proof.
  split; [apply day_addDays |].
  split; [apply dayKey_day; rewrite !day_addDays; lia |].
  split; [apply dayKey_day; rewrite day_addDays; lia |].
  split; split.
  - intros H. apply dayKey_inj in H. rewrite !day_addDays in H. lia.
  - intros ->. reflexivity.
  - intros H. apply dayKey_inj in H. rewrite day_addDays in H. lia.
  - intros ->. apply dayKey_day. rewrite day_addDays. lia.
Qed.

(** The month and year boundaries of the specification's examples. *)
Example addDays_leap_day :
  dayKey (addDays leap_thursday 1) = "2024-03-01"
  /\ dayKey (addDays {| day := 19722; tod := 0 |} 1) = "2024-01-01"
  /\ dayKey (addDays {| day := 19782; tod := 0 |} (-366)) = "2023-02-28".
Proof. repeat split; vm_compute; reflexivity. Qed.

(** X2. The day key names the calendar day and nothing else: two dates
    have the same key exactly when they fall on the same local day,
    whatever their times of day. The key is the year, then the month (1 to
    12) and the day of the month (1 to 31), each padded to two characters,
    joined by dashes. *)
Theorem dayKey_names_the_calendar_day (d1 d2 : Date) :
  (dayKey d1 = dayKey d2 <-> day d1 = day d2)
  /\ (exists mm dd,
        dayKey d1 = pretty (getFullYear d1) +:+ "-" +:+ mm +:+ "-" +:+ dd
        /\ mm = pad2 (getMonth d1 + 1) /\ dd = pad2 (getDate d1)
        /\ String.length mm = 2%nat /\ String.length dd = 2%nat
        /\ 1 <= getMonth d1 + 1 <= 12 /\ 1 <= getDate d1 <= 31).
Proof.
  split; [split; [apply dayKey_inj | apply dayKey_day] |].
  destruct (civil_ranges (day d1)) as [Hm Hd].
  exists (pad2 (getMonth d1 + 1)), (pad2 (getDate d1)).
  unfold getMonth, getDate in *.
  split; [reflexivity |]. split; [reflexivity |]. split; [reflexivity |].
  split; [apply pad2_length; lia |]. split; [apply pad2_length; lia |].
  split; lia.
Qed.

Lemma getDay_range (d : Date) : 0 <= getDay d < 7.
Proof. unfold getDay. apply Z.mod_pos_bound. lia. Qed.

Lemma startOfWeekMonday_day (d : Date) :
  day (startOfWeekMonday d) = day d - (getDay d + 6) mod 7.
Proof.
  unfold startOfWeekMonday. cbn [setHours0 day]. rewrite day_setDate.
  pose proof (getDay_range d) as Hr.
  destruct (Z.eqb_spec (getDay d) 0) as [H0 | H0].
  - rewrite H0. change ((0 + 6) mod 7) with 6. lia.
  - replace ((getDay d + 6) mod 7) with (getDay d - 1); [lia |].
    apply (Z.mod_unique_pos _ _ 1); lia.
Qed.

Lemma getDay_shift (d : Date) (n : Z) : getDay (addDays d n) = (getDay d + n) mod 7.
Proof.
  unfold getDay. rewrite day_addDays.
  replace (day d + n + 4) with (day d + 4 + n) by lia.
  now rewrite Zplus_mod_idemp_l.
Qed.

Lemma getDay_monday (d : Date) : getDay (startOfWeekMonday d) = 1.
Proof.
  unfold getDay at 1. rewrite startOfWeekMonday_day. unfold getDay.
  set (z := day d + 4).
  pose proof (Z.mod_pos_bound z 7 ltac:(lia)) as Hr.
  pose proof (Z.mod_pos_bound (z mod 7 + 6) 7 ltac:(lia)) as Hr'.
  pose proof (Z.div_mod z 7 ltac:(lia)) as Hz.
  pose proof (Z.div_mod (z mod 7 + 6) 7 ltac:(lia)) as Hz'.
  assert (Hzd : z = day d + 4) by reflexivity. clearbody z.
  symmetry. apply (Z.mod_unique_pos _ _ (z / 7 + (z mod 7 + 6) / 7 - 1)); lia.
Qed.

(** X3. [startOfWeekMonday] returns a Monday at midnight, the same day or
    up to six days earlier (six days earlier for a Sunday); applied to its
    own result it changes nothing. *)
Theorem startOfWeekMonday_is_the_monday_before (d : Date) :
  getDay (startOfWeekMonday d) = 1
  /\ tod (startOfWeekMonday d) = 0
  /\ day d - 6 <= day (startOfWeekMonday d) <= day d
  /\ (getDay d = 0 -> day (startOfWeekMonday d) = day d - 6)
  /\ (getDay d = 1 -> day (startOfWeekMonday d) = day d)
  /\ startOfWeekMonday (startOfWeekMonday d) = startOfWeekMonday d.
Proof.
  pose proof (getDay_monday d) as Hmon.
  pose proof (startOfWeekMonday_day d) as Hday.
  pose proof (getDay_range d) as Hr.
  pose proof (Z.mod_pos_bound (getDay d + 6) 7 ltac:(lia)) as Hm.
  split; [exact Hmon |]. split; [reflexivity |]. split; [lia |].
  split; [intros H0; rewrite Hday, H0; reflexivity |].
  split; [intros H1; rewrite Hday, H1; change ((1 + 6) mod 7) with 0; lia |].
  pose proof (startOfWeekMonday_day (startOfWeekMonday d)) as Hday2.
  rewrite Hmon in Hday2. change ((1 + 6) mod 7) with 0 in Hday2.
  destruct (startOfWeekMonday (startOfWeekMonday d)) as [z2 t2] eqn:E2.
  destruct (startOfWeekMonday d) as [z1 t1] eqn:E1.
  assert (Ht2 : t2 = 0).
  { change t2 with (tod {| day := z2; tod := t2 |}). rewrite <- E2. reflexivity. }
  assert (Ht1 : t1 = 0).
  { change t1 with (tod {| day := z1; tod := t1 |}). rewrite <- E1. reflexivity. }
  cbn in Hday2. subst. f_equal. lia.
Qed.

Lemma same_week_monday (d d' : Date) :
  day (startOfWeekMonday d) <= day d' <= day (startOfWeekMonday d) + 6 ->
  day (startOfWeekMonday d') = day (startOfWeekMonday d).
Proof.
  intros Hin. rewrite (startOfWeekMonday_day d').
  pose proof (getDay_monday d) as Hmon. unfold getDay in *.
  set (m := day (startOfWeekMonday d)) in *.
  set (i := day d' - m).
  replace (day d' + 4) with (m + 4 + i) by (subst i; lia).
  rewrite Zplus_mod_idemp_l.
  replace (m + 4 + i + 6) with (m + 4 + (i + 6)) by lia.
  rewrite <- Zplus_mod_idemp_l, Hmon.
  replace (1 + (i + 6)) with (i + 1 * 7) by lia.
  rewrite Z_mod_plus_full, Z.mod_small by (subst i; lia).
  subst i. lia.
Qed.

Lemma weekKeys_lookup (d : Date) (i : Z) :
  0 <= i < 7 ->
  weekKeysMonSun d !! Z.to_nat i = Some (dayKey (addDays (startOfWeekMonday d) i)).
Proof.
  intros Hi. unfold weekKeysMonSun.
  rewrite list_lookup_fmap, lookup_seqZ_lt by lia.
  replace (0 + Z.of_nat (Z.to_nat i)) with i by lia. reflexivity.
Qed.

(** X4. [weekKeysMonSun] returns exactly seven keys, pairwise different:
    the keys of the Monday of the week and of the six days after it, in
    order. Today's key is one of them, and every date of that week, Sunday
    included, yields the same seven keys. *)
Theorem weekKeysMonSun_seven_consecutive_days (d : Date) :
  length (weekKeysMonSun d) = 7%nat
  /\ NoDup (weekKeysMonSun d)
  /\ (forall i, 0 <= i < 7 ->
        weekKeysMonSun d !! Z.to_nat i
        = Some (dayKey (addDays (startOfWeekMonday d) i)))
  /\ dayKey d ∈ weekKeysMonSun d
  /\ (forall d', day (startOfWeekMonday d) <= day d' <= day (startOfWeekMonday d) + 6 ->
        weekKeysMonSun d' = weekKeysMonSun d).
Proof.
  split; [reflexivity |]. split; [| split; [apply weekKeys_lookup |
    split; [apply today_in_week |]]].
  - unfold weekKeysMonSun. apply NoDup_fmap_2_strong; [| apply NoDup_seqZ].
    intros a b _ _ H. apply dayKey_inj in H. rewrite !day_addDays in H. lia.
  - intros d' Hin. unfold weekKeysMonSun.
    apply list_fmap_ext. intros _ i _. apply dayKey_day.
    rewrite !day_addDays, (same_week_monday d d' Hin). reflexivity.
Qed.

(** X5. The weekday keys follow the week: the days of [weekKeysMonSun],
    taken in order, map to [mon], [tue], ..., [sun], the order of
    [weekdayOrder]; and a date seven days later has the same weekday
    key. *)
Theorem weekday_keys_follow_the_week (d : Date) :
  (forall (i : nat) (wd : WeekdayKey),
     weekdayOrder !! i = Some wd ->
     toWeekdayKeyFromDate (addDays (startOfWeekMonday d) (Z.of_nat i)) = wd)
  /\ toWeekdayKeyFromDate (addDays d 7) = toWeekdayKeyFromDate d
  /\ (toWeekdayKeyFromDate d = sun <-> getDay d = 0).
Proof.
  split; [| split].
  - intros i wd Hi. unfold toWeekdayKeyFromDate.
    rewrite getDay_shift, getDay_monday.
    do 7 (destruct i as [|i]; [cbn in Hi; injection Hi as <-; reflexivity |]).
    discriminate Hi.
  - unfold toWeekdayKeyFromDate. rewrite getDay_shift.
    replace (getDay d + 7) with (getDay d + 1 * 7) by lia.
    rewrite Z_mod_plus_full, Z.mod_small by apply getDay_range. reflexivity.
  - unfold toWeekdayKeyFromDate. pose proof (getDay_range d) as Hr.
    destruct (Z.eqb_spec (getDay d) 0) as [H0 | H0]; [tauto |].
    split; [| intros; contradiction].
    repeat match goal with
           | |- context [?a =? ?b] => destruct (a =? b)
           end; discriminate.
Qed.

(** ** The store under any action *)

Lemma evolves_refl s : evolves s s.
Proof.
  unfold evolves. do 4 (split; [reflexivity |]).
  split; [intros _; right; split; reflexivity |].
  exists []. now rewrite app_nil_r.
Qed.

Lemma evolves_trans s1 s2 s3 : evolves s1 s2 -> evolves s2 s3 -> evolves s1 s3.
Proof.
  intros (Hu & Hl & Hc & Hp & Hca & calls & Hr & Hf)
         (Hu' & Hl' & Hc' & Hp' & Hca' & calls' & Hr' & Hf').
  unfold evolves. rewrite Hu', Hl', Hc', Hp', Hu, Hl, Hc, Hp.
  do 4 (split; [reflexivity |]). split.
  - intros Hld. destruct (Hca' ltac:(congruence)) as [Hm | [Hm1 Hm2]]; [now left |].
    rewrite Hm1, Hm2. exact (Hca Hld).
  - exists (calls ++ calls'). rewrite Hr', Hr, app_assoc. split; [reflexivity |].
    apply Forall_app. split; [exact Hf |].
    eapply Forall_impl; [exact Hf' |]. intros c Hcu. cbn in Hcu. congruence.
Qed.

Lemma evolves_setTodos f s : evolves s (setTodos f s).
Proof.
  unfold evolves, setTodos, persistTodos.
  destruct s as [? ? ? ? ? ? ? ? ld ? ? rm].
  destruct ld; cbn; (do 4 (split; [reflexivity |]));
    (split; [intros Hld; first [discriminate Hld | left; reflexivity] |]);
    exists []; now rewrite app_nil_r.
Qed.

Lemma evolves_form s s' :
  St.user s' = St.user s -> St.loaded s' = St.loaded s ->
  St.category s' = St.category s -> St.plan s' = St.plan s ->
  St.cache s' = St.cache s -> St.todos s' = St.todos s -> St.remote s' = St.remote s ->
  evolves s s'.
Proof.
  intros Hu Hl Hc Hp Hca Ht Hr. unfold evolves.
  do 4 (split; [assumption |]). split; [intros _; right; split; assumption |].
  exists []. now rewrite Hr, app_nil_r.
Qed.

Lemma evolves_issue c s : St.user s = Some (call_uid c) -> evolves s (issue c s).
Proof.
  intros Hu. unfold evolves, issue. destruct s; cbn in *.
  do 4 (split; [reflexivity |]). split; [intros _; right; split; reflexivity |].
  exists [c]. split; [reflexivity |]. now constructor.
Qed.

Lemma evolves_upsertRemote t s : evolves s (upsertRemote t s).
Proof.
  unfold upsertRemote. destruct (St.user s) as [uid |] eqn:Hu; [| apply evolves_refl].
  now apply evolves_issue.
Qed.

Lemma evolves_patchRemote now i p s : evolves s (patchRemote now i p s).
Proof.
  unfold patchRemote. destruct (St.user s) as [uid |] eqn:Hu; [| apply evolves_refl].
  now apply evolves_issue.
Qed.

Lemma evolves_deleteRemote i s : evolves s (deleteRemote i s).
Proof.
  unfold deleteRemote. destruct (St.user s) as [uid |] eqn:Hu; [| apply evolves_refl].
  now apply evolves_issue.
Qed.

Lemma evolves_deleteRemote_each rejected ids s :
  evolves s (deleteRemote_each rejected ids s).
Proof.
  revert s. induction ids as [|i ids IH]; intros s; cbn [deleteRemote_each];
    [apply evolves_refl |].
  destruct (match St.user s with Some uid => rejected (DeleteDoc uid i) | None => false end);
    [apply evolves_deleteRemote |].
  eapply evolves_trans; [apply evolves_deleteRemote | apply IH].
Qed.

Lemma evolves_run DateParse e a s : evolves s (run DateParse e a s).
Proof.
  destruct a as [| dy | i | i |]; cbn [run].
  - unfold addTodo. destruct (St.user s); [| apply evolves_refl].
    destruct (negb _); [apply evolves_refl |]. cbv zeta.
    eapply evolves_trans; [apply evolves_setTodos |].
    eapply evolves_trans; [| apply evolves_upsertRemote].
    now apply evolves_form.
  - unfold addTodoInline. destruct (St.user s); [| apply evolves_refl].
    destruct (negb _); [apply evolves_refl |]. cbv zeta.
    eapply evolves_trans; [apply evolves_setTodos |].
    eapply evolves_trans; [| apply evolves_upsertRemote].
    now apply evolves_form.
  - unfold toggleTodo. destruct (List.find _ _); [| apply evolves_refl]. cbv zeta.
    eapply evolves_trans; [apply evolves_setTodos | apply evolves_patchRemote].
  - unfold removeTodo. cbv zeta.
    eapply evolves_trans; [apply evolves_setTodos | apply evolves_deleteRemote].
  - unfold clearDone. cbv zeta.
    eapply evolves_trans; [apply evolves_setTodos | apply evolves_deleteRemote_each].
Qed.

Lemma evolves_run_all DateParse acts s : evolves s (run_all DateParse acts s).
Proof.
  unfold run_all. revert s.
  induction acts as [|[e a] acts IH]; intros s; cbn [foldl]; [apply evolves_refl |].
  eapply evolves_trans; [apply evolves_run | apply IH].
Qed.

(** X6. The local cache follows the collection through any session: if,
    once loaded, the cache holds the in-memory collection, it still does
    after any sequence of add, inline add, toggle, remove and clear-done
    actions; and no action changes the signed-in user, the loaded flag, the
    selected category or the workout plan. *)
Theorem cache_follows_collection
    (DateParse : string -> option Date) (acts : list (Env * Action)) (s : St.State) :
  cache_mirrors s ->
  cache_mirrors (run_all DateParse acts s)
  /\ St.user (run_all DateParse acts s) = St.user s
  /\ St.loaded (run_all DateParse acts s) = St.loaded s
  /\ St.category (run_all DateParse acts s) = St.category s
  /\ St.plan (run_all DateParse acts s) = St.plan s.
Proof.
  intros Hm. destruct (evolves_run_all DateParse acts s) as (Hu & Hl & Hc & Hp & Hca & _).
  split; [| auto]. unfold cache_mirrors in *. rewrite Hl. intros Hld.
  destruct (Hca Hld) as [H | [H1 H2]]; [exact H |].
  rewrite H1, H2. exact (Hm Hld).
Qed.

Lemma cache_follows_collection_witness :
  cache_mirrors (form_state (Some "u1") daily [leg_day; buy_milk])
  /\ St.cache (run_all (fun _ => None) sample_session
                 (form_state (Some "u1") daily [leg_day; buy_milk]))
     = Some (St.todos (run_all (fun _ => None) sample_session
                 (form_state (Some "u1") daily [leg_day; buy_milk]))).
Proof.
  assert (H : cache_mirrors (form_state (Some "u1") daily [leg_day; buy_milk]))
    by (intros _; reflexivity).
  split; [exact H |].
  exact (proj1 (cache_follows_collection (fun _ => None) sample_session _ H) eq_refl).
Defined.

(** X7. Remote calls through any session: the calls already issued stay
    as they are and new ones come after them; a signed-out session issues
    none; every call of a signed-in session is addressed to the signed-in
    user. *)
Theorem remote_calls_of_a_session
    (DateParse : string -> option Date) (acts : list (Env * Action)) (s : St.State) :
  exists calls,
    St.remote (run_all DateParse acts s) = St.remote s ++ calls
    /\ (St.user s = None -> calls = [])
    /\ (forall uid c, St.user s = Some uid -> c ∈ calls -> call_uid c = uid).
Proof.
  destruct (evolves_run_all DateParse acts s) as (_ & _ & _ & _ & _ & calls & Hr & Hf).
  exists calls. split; [exact Hr |]. split.
  - intros Hnone. destruct calls as [|c calls]; [reflexivity |].
    apply Forall_cons in Hf as [Hc _]. congruence.
  - intros uid c Hu Hc. rewrite Forall_forall in Hf. specialize (Hf c Hc). congruence.
Qed.

(** ** Removing and clearing *)

Lemma bool_filter_sublist {A} (f : A -> bool) (l : list A) : sublist (List.filter f l) l.
Proof.
  induction l as [|x l IH]; cbn [List.filter]; [constructor |].
  destruct (f x); [now apply sublist_skip | now apply sublist_cons].
Qed.

Lemma bool_filter_idemp {A} (f : A -> bool) (l : list A) :
  List.filter f (List.filter f l) = List.filter f l.
Proof.
  induction l as [|x l IH]; cbn [List.filter]; [reflexivity |].
  destruct (f x) eqn:Hx; [| exact IH]. cbn [List.filter]. now rewrite Hx, IH.
Qed.

Lemma bool_filter_all {A} (f : A -> bool) (l : list A) :
  (forall x, x ∈ l -> f x = true) -> List.filter f l = l.
Proof.
  induction l as [|x l IH]; intros H; cbn [List.filter]; [reflexivity |].
  rewrite (H x) by (now left). f_equal. apply IH. intros y Hy. apply H. now right.
Qed.

Lemma removeTodo_todos i s :
  St.todos (removeTodo i s)
  = List.filter (fun t => negb (bool_decide (id t = i))) (St.todos s).
Proof. unfold removeTodo. now rewrite deleteRemote_todos, setTodos_todos. Qed.

Lemma setTodos_remote_user f s :
  St.remote (setTodos f s) = St.remote s /\ St.user (setTodos f s) = St.user s.
Proof. destruct (evolves_setTodos f s) as (Hu & _). split; [| exact Hu]. store_field. Qed.

(** X8. [removeTodo] removes every task with the given id and no other:
    the tasks that stay are the same records in the same order, a second
    removal changes nothing more, and an id that no task has leaves the
    collection as it is. When a user is signed in exactly one remote delete
    is issued for the id, whether or not a task had it; signed out, none. *)
Theorem removeTodo_removes_by_id (i : string) (s : St.State) :
  (forall t, t ∈ St.todos (removeTodo i s) <-> t ∈ St.todos s /\ id t <> i)
  /\ sublist (St.todos (removeTodo i s)) (St.todos s)
  /\ St.todos (removeTodo i (removeTodo i s)) = St.todos (removeTodo i s)
  /\ ((forall t, t ∈ St.todos s -> id t <> i) -> St.todos (removeTodo i s) = St.todos s)
  /\ St.remote (removeTodo i s)
     = St.remote s ++ match St.user s with
                      | Some uid => [DeleteDoc uid i]
                      | None => []
                      end.
Proof.
  split; [| split; [| split; [| split]]].
  - intros t. rewrite removeTodo_todos, elem_of_bool_filter.
    now rewrite negb_true_iff, bool_decide_eq_false.
  - rewrite removeTodo_todos. apply bool_filter_sublist.
  - rewrite !removeTodo_todos. apply bool_filter_idemp.
  - intros Hno. rewrite removeTodo_todos. apply bool_filter_all.
    intros t Ht. rewrite negb_true_iff, bool_decide_eq_false. now apply Hno.
  - unfold removeTodo, deleteRemote. cbv zeta.
    destruct (setTodos_remote_user
                (fun prev => List.filter (fun t => negb (bool_decide (id t = i))) prev) s)
      as [Hr Hu].
    rewrite Hu. destruct (St.user s) as [uid |].
    + unfold issue. cbn. now rewrite Hr.
    + now rewrite Hr, app_nil_r.
Qed.






(** Two done tasks and a remote store that rejects every call: both tasks
    leave the collection, and only the first delete is issued. *)
Example clearDone_stops_at_a_rejected_delete :
  let e := {| randomUUID := "7d1f0c6e-0006"; clock := leap_thursday;
              stamp := 1709200800000; rejects := fun _ => true |} in
  let s := form_state (Some "u1") daily
             [completed_on "a" "2024-02-28"; completed_on "b" "2024-02-29"] in
  St.todos (clearDone e s) = []
  /\ St.remote (clearDone e s) = [DeleteDoc "u1" "a"]
  /\ St.remote (clearDone sample_env s) = [DeleteDoc "u1" "a"; DeleteDoc "u1" "b"].
Proof. repeat split; vm_compute; reflexivity. Qed.

(** ** Toggling, again *)

Lemma find_none_id (i : string) (l : list Todo) :
  List.find (fun t => bool_decide (id t = i)) l = None <-> forall t, t ∈ l -> id t <> i.
Proof.
  induction l as [|x l IH]; cbn [List.find].
  - split; [intros _ t Ht; now apply elem_of_nil in Ht | reflexivity].
  - destruct (decide (id x = i)) as [Hx | Hx].
    + rewrite (bool_decide_eq_true_2 _ Hx). split; [discriminate |].
      intros H. exfalso. apply (H x); [now left | exact Hx].
    + rewrite (bool_decide_eq_false_2 _ Hx), IH. split.
      * intros H t [-> | Ht]%elem_of_cons; auto.
      * intros H t Ht. apply H. now right.
Qed.

(** X10. Toggling an id that no task has does nothing at all: the
    collection, the cache and the record of remote calls stay as they
    are. *)
Theorem toggleTodo_unknown_id (e : Env) (i : string) (s : St.State) :
  (forall t, t ∈ St.todos s -> id t <> i) -> toggleTodo e i s = s.
Proof.
  intros H. apply find_none_id in H. unfold toggleTodo. now rewrite H.
Qed.

Lemma toggleTodo_unknown_id_witness :
  (forall t, t ∈ St.todos (form_state (Some "u1") daily [leg_day; buy_milk]) ->
             id t <> "no-such-id")
  /\ toggleTodo sample_env "no-such-id" (form_state (Some "u1") daily [leg_day; buy_milk])
     = form_state (Some "u1") daily [leg_day; buy_milk].
Proof.
  assert (H : forall t, t ∈ St.todos (form_state (Some "u1") daily [leg_day; buy_milk]) ->
                        id t <> "no-such-id").
  { intros t Ht. cbn in Ht.
    apply elem_of_cons in Ht as [-> | Ht]; [discriminate |].
    apply elem_of_cons in Ht as [-> | Ht]; [discriminate |].
    now apply elem_of_nil in Ht. }
  split; [exact H |]. exact (toggleTodo_unknown_id sample_env "no-such-id" _ H).
Defined.

Lemma unique_by_id (l : list Todo) (a b : Todo) :
  NoDup (map id l) -> a ∈ l -> b ∈ l -> id a = id b -> a = b.
Proof.
  intros Hnd Ha Hb Hid.
  apply list_elem_of_lookup in Ha as [x Hx]. apply list_elem_of_lookup in Hb as [y Hy].
  assert (x = y) as ->; [| congruence].
  apply (NoDup_lookup (map id l) x y (id a) Hnd).
  - change (map id l) with (id <$> l). now rewrite list_lookup_fmap, Hx.
  - change (map id l) with (id <$> l). rewrite list_lookup_fmap, Hy. cbn. congruence.
Qed.

(** X11. Toggling twice gives the collection back: when the ids of the
    collection are pairwise different and the task with the given id is
    not done and carries no completion time or day, toggling it and then
    toggling it again (at any later time) leaves the collection as it
    was. *)
Theorem toggleTodo_twice_restores
    (e e' : Env) (i : string) (s : St.State) (current : Todo) :
  NoDup (map id (St.todos s)) ->
  current ∈ St.todos s -> id current = i ->
  done current = false -> doneAt current = None -> doneDay current = None ->
  St.todos (toggleTodo e' i (toggleTodo e i s)) = St.todos s.
Proof.
  intros Hnd Hin Hid Hd Hda Hdd.
  assert (Hfind : List.find (fun t => bool_decide (id t = i)) (St.todos s) = Some current).
  { destruct (List.find _ _) as [c |] eqn:Hf.
    - apply find_some in Hf as [Hc Hci]. apply bool_decide_eq_true in Hci.
      rewrite <- list_elem_of_In in Hc. f_equal.
      apply (unique_by_id (St.todos s)); [exact Hnd | exact Hc | exact Hin | congruence].
    - exfalso. exact (proj1 (find_none_id i _) Hf current Hin Hid). }
  set (next := toggled e current).
  assert (Hnid : id next = i) by (subst next; now rewrite toggled_id).
  pose proof (toggleTodo_todos e i s current Hfind) as H1. fold next in H1.
  assert (Hfind1 : List.find (fun t => bool_decide (id t = i))
                     (St.todos (toggleTodo e i s)) = Some next).
  { rewrite H1. eapply find_replaced; [exact Hnid | exact Hfind]. }
  rewrite (toggleTodo_todos e' i _ next Hfind1), H1, map_map.
  assert (Hback : toggled e' next = current).
  { subst next. unfold toggled. rewrite Hd. cbn.
    destruct current; cbn in *. subst. reflexivity. }
  rewrite Hback. rewrite <- (map_id (St.todos s)) at 2.
  apply map_ext_in. intros t Ht. rewrite <- list_elem_of_In in Ht.
  destruct (decide (id t = i)) as [Hti | Hti].
  - rewrite (bool_decide_eq_true_2 _ Hti), (bool_decide_eq_true_2 _ Hnid).
    symmetry. apply (unique_by_id (St.todos s)); [exact Hnd | exact Ht | exact Hin | congruence].
  - rewrite (bool_decide_eq_false_2 _ Hti). now rewrite (bool_decide_eq_false_2 _ Hti).
Qed.

Lemma toggleTodo_twice_restores_witness :
  St.todos (toggleTodo next_day_env "7d1f0c6e-0001"
              (toggleTodo sample_env "7d1f0c6e-0001"
                 (form_state (Some "u1") daily [leg_day; buy_milk])))
  = [leg_day; buy_milk].
Proof.
  apply (toggleTodo_twice_restores sample_env next_day_env "7d1f0c6e-0001"
           (form_state (Some "u1") daily [leg_day; buy_milk]) buy_milk);
    try reflexivity.
  - cbn. repeat constructor; cbn; intros H; repeat (apply elem_of_cons in H as [H | H];
      [discriminate H |]); now apply elem_of_nil in H.
  - cbn. right. left.
Defined.

(** ** Remote patches *)

Lemma lookup_put_field_eq {A} (k : string) (f : option (option A))
    (conv : option A -> jsval) (d : gmap string jsval) :
  put_field k f conv d !! k
  = match f with
    | Some v => Some (conv v)
    | None => d !! k
    end.
Proof. unfold put_field. destruct f; [apply lookup_insert_eq | reflexivity]. Qed.

Lemma lookup_put_field_ne {A} (k k' : string) (f : option (option A))
    (conv : option A -> jsval) (d : gmap string jsval) :
  k <> k' -> put_field k f conv d !! k' = d !! k'.
Proof. intros H. unfold put_field. destruct f; [now apply lookup_insert_ne | reflexivity]. Qed.

Ltac payload_lookup :=
  unfold patchData; cbv zeta;
  repeat (rewrite lookup_put_field_ne by congruence);
  try rewrite lookup_put_field_eq;
  repeat (rewrite lookup_put_field_ne by congruence);
  try (rewrite lookup_insert_ne by congruence; rewrite lookup_empty);
  try rewrite lookup_insert_eq.

(** The payload of [patchRemote], key by key. *)
Lemma patchData_lookup (now : Z) (p : Patch) (k : string) :
  patchData now p !! k
  = if decide (k = "workoutPart") then str_or_null <$> p_workoutPart p
    else if decide (k = "category") then (fun v => JStr (default "daily" v)) <$> p_category p
    else if decide (k = "dueDay") then str_or_null <$> p_dueDay p
    else if decide (k = "doneDay") then str_or_null <$> p_doneDay p
    else if decide (k = "doneAt") then num_or_null <$> p_doneAt p
    else if decide (k = "createdAt") then
      (fun v => JNum (default (Num now) v)) <$> p_createdAt p
    else if decide (k = "done") then (fun v => JBool (default false v)) <$> p_done p
    else if decide (k = "text") then (fun v => JStr (default "" v)) <$> p_text p
    else if decide (k = "updatedAt") then Some serverTimestamp
    else None.
Proof.
  destruct (decide (k = "workoutPart")) as [-> | ?];
    [payload_lookup; now destruct (p_workoutPart p) |].
  destruct (decide (k = "category")) as [-> | ?];
    [payload_lookup; now destruct (p_category p) |].
  destruct (decide (k = "dueDay")) as [-> | ?];
    [payload_lookup; now destruct (p_dueDay p) |].
  destruct (decide (k = "doneDay")) as [-> | ?];
    [payload_lookup; now destruct (p_doneDay p) |].
  destruct (decide (k = "doneAt")) as [-> | ?];
    [payload_lookup; now destruct (p_doneAt p) |].
  destruct (decide (k = "createdAt")) as [-> | ?];
    [payload_lookup; now destruct (p_createdAt p) |].
  destruct (decide (k = "done")) as [-> | ?];
    [payload_lookup; now destruct (p_done p) |].
  destruct (decide (k = "text")) as [-> | ?];
    [payload_lookup; now destruct (p_text p) |].
  destruct (decide (k = "updatedAt")) as [-> | ?]; payload_lookup; reflexivity.
Qed.

Lemma is_Some_fmap_iff {A B} (f : A -> B) (o : option A) : is_Some (f <$> o) <-> is_Some o.
Proof. destruct o; cbn; split; intros [x Hx]; eauto; discriminate. Qed.

Ltac choose_field H :=
  first [ left; first [reflexivity | split; [reflexivity | exact H]]
        | right; choose_field H
        | split; [reflexivity | exact H] ].

Ltac given_field H :=
  repeat (destruct H as [H | H]);
  first [ eexists; reflexivity
        | congruence
        | let H' := fresh in destruct H as [H' H]; first [congruence | exact H] ].

Ltac named_field Hv :=
  rewrite patchData_lookup;
  repeat match goal with
         | |- context [decide (?a = ?b)] =>
             let Hd := fresh "Hd" in
             destruct (decide (a = b)) as [Hd | Hd];
             [first [discriminate Hd | idtac] | first [congruence | idtac]]
         end;
  cbn; rewrite Hv; reflexivity.

(** X12. The payload [patchRemote] sends holds [updatedAt], stamped by
    the server, and exactly the task fields the patch names, and none of
    its values is [undefined]: a named field goes out with the value the
    patch gives it, and one whose value is missing goes out as its default
    ([""] for [text], [false] for [done], the current time for
    [createdAt], ["daily"] for [category]) or as [null] ([doneAt],
    [doneDay], [dueDay], [workoutPart]). *)
Theorem patchData_sends_the_named_fields (now : Z) (p : Patch) (k : string) :
  (is_Some (patchData now p !! k)
   <-> k = "updatedAt"
       \/ (k = "text" /\ is_Some (p_text p))
       \/ (k = "done" /\ is_Some (p_done p))
       \/ (k = "createdAt" /\ is_Some (p_createdAt p))
       \/ (k = "doneAt" /\ is_Some (p_doneAt p))
       \/ (k = "doneDay" /\ is_Some (p_doneDay p))
       \/ (k = "dueDay" /\ is_Some (p_dueDay p))
       \/ (k = "category" /\ is_Some (p_category p))
       \/ (k = "workoutPart" /\ is_Some (p_workoutPart p)))
  /\ (forall v, patchData now p !! k = Some v -> v <> JUndefined)
  /\ patchData now p !! "updatedAt" = Some serverTimestamp
  /\ (forall v, p_text p = Some v ->
        patchData now p !! "text"
        = Some (JStr (match v with Some x => x | None => "" end)))
  /\ (forall v, p_done p = Some v ->
        patchData now p !! "done"
        = Some (JBool (match v with Some x => x | None => false end)))
  /\ (forall v, p_createdAt p = Some v ->
        patchData now p !! "createdAt"
        = Some (JNum (match v with Some x => x | None => Num now end)))
  /\ (forall v, p_category p = Some v ->
        patchData now p !! "category"
        = Some (JStr (match v with Some x => x | None => "daily" end)))
  /\ (forall v, p_doneAt p = Some v ->
        patchData now p !! "doneAt"
        = Some (match v with Some x => JNum x | None => JNull end))
  /\ (forall v, p_doneDay p = Some v ->
        patchData now p !! "doneDay"
        = Some (match v with Some x => JStr x | None => JNull end))
  /\ (forall v, p_dueDay p = Some v ->
        patchData now p !! "dueDay"
        = Some (match v with Some x => JStr x | None => JNull end))
  /\ (forall v, p_workoutPart p = Some v ->
        patchData now p !! "workoutPart"
        = Some (match v with Some x => JStr x | None => JNull end)).
Proof.
  split; [| split].
  - rewrite patchData_lookup.
    repeat match goal with
           | |- context [decide (k = ?x)] => destruct (decide (k = x)) as [-> | ?]
           end;
      rewrite ?is_Some_fmap_iff; split; intros H;
      first [ destruct H as [? H]; discriminate H
            | choose_field H
            | given_field H ].
  - rewrite patchData_lookup. intros v.
    repeat match goal with
           | |- context [decide (k = ?x)] => destruct (decide (k = x)) as [-> | ?]
           end;
      try discriminate;
      try match goal with
          | |- context [_ <$> ?o] => destruct o as [[?|]|]
          end; cbn; intros [= <-]; discriminate.
  - split.
    { rewrite patchData_lookup.
      repeat match goal with
             | |- context [decide (?a = ?b)] =>
                 let Hd := fresh "Hd" in
                 destruct (decide (a = b)) as [Hd | Hd];
                 [first [discriminate Hd | idtac] | first [congruence | idtac]]
             end; reflexivity. }
    repeat split; intros v Hv; try (destruct v as [x |]); named_field Hv.
Qed.

(** X13. The remote call of [toggleTodo]: for a task of the collection
    and a signed-in user, exactly one update is issued, for that id; its
    payload holds [updatedAt], [done], [doneAt] and [doneDay] and nothing
    else, with the new [done], and with the completion time and today's
    key when the task becomes done, [null] for both when it becomes
    not-done. *)
Theorem toggleTodo_remote_update
    (e : Env) (i : string) (s : St.State) (current : Todo) (uid : string) :
  List.find (fun t => bool_decide (id t = i)) (St.todos s) = Some current ->
  St.user s = Some uid ->
  exists data,
    St.remote (toggleTodo e i s) = St.remote s ++ [UpdateDoc uid i data]
    /\ (forall k, is_Some (data !! k)
                  <-> k = "updatedAt" \/ k = "done" \/ k = "doneAt" \/ k = "doneDay")
    /\ data !! "done" = Some (JBool (negb (done current)))
    /\ data !! "doneAt"
       = Some (if done current then JNull else JNum (Num (stamp e)))
    /\ data !! "doneDay"
       = Some (if done current then JNull else JStr (dayKey (clock e))).
Proof.
  intros Hfind Hu. unfold toggleTodo. rewrite Hfind. cbv zeta.
  unfold patchRemote.
  match goal with
  | |- context [setTodos ?f s] => destruct (setTodos_remote_user f s) as [Hr Hus]
  end.
  rewrite Hus, Hu.
  match goal with
  | |- context [patchData ?n ?p] => exists (patchData n p)
  end.
  split; [unfold issue; cbn [St.remote St.set_remote]; rewrite Hr; reflexivity |].
  split; [| split; [| split]].
  - intros k.
    rewrite (proj1 (patchData_sends_the_named_fields (stamp e) _ k)). cbn.
    split.
    + intros H. repeat (destruct H as [H | H]);
        try match type of H with
            | _ /\ _ =>
                destruct H as [H Hs]; cbn in Hs;
                try (destruct Hs as [? Hs]; discriminate Hs)
            end;
        subst k; auto 6.
    + intros [H | [H | [H | H]]]; subst k; eauto 12.
  - rewrite patchData_lookup. cbn. unfold toggled. now destruct (done current).
  - rewrite patchData_lookup. cbn. unfold toggled. now destruct (done current).
  - rewrite patchData_lookup. cbn. unfold toggled. now destruct (done current).
Qed.

Lemma toggleTodo_remote_update_witness :
  exists data,
    St.remote (toggleTodo sample_env "7d1f0c6e-0001"
                 (form_state (Some "u1") daily [leg_day; buy_milk]))
    = [UpdateDoc "u1" "7d1f0c6e-0001" data]
    /\ data !! "done" = Some (JBool true)
    /\ data !! "doneAt" = Some (JNum (Num 1709200800000))
    /\ data !! "doneDay" = Some (JStr "2024-02-29")
    /\ data !! "text" = None.
Proof.
  destruct (toggleTodo_remote_update sample_env "7d1f0c6e-0001"
              (form_state (Some "u1") daily [leg_day; buy_milk]) buy_milk "u1"
              eq_refl eq_refl) as (data & Hr & Hdom & Hd & Hda & Hdd).
  exists data. split; [exact Hr |]. split; [exact Hd |]. split; [exact Hda |].
  split; [exact Hdd |].
  destruct (data !! "text") as [v |] eqn:Hv; [| reflexivity].
  exfalso. destruct (proj1 (Hdom "text") (ex_intro _ v Hv)) as [H | [H | [H | H]]];
    discriminate H.
Defined.

(** ** Invariants of the collection *)

Lemma toggled_completion_ok e t : completion_ok (toggled e t).
Proof.
  unfold toggled, completion_ok. destruct (done t); cbn; repeat split; intros H;
    first [ discriminate H | eexists; reflexivity | reflexivity
          | destruct H as [x Hx]; discriminate Hx ].
Qed.

Lemma newTodo_add_completion e s tr : completion_ok (newTodo_add e s tr).
Proof.
  unfold newTodo_add, completion_ok.
  destruct (bool_decide _); [| destruct (bool_decide _)]; cbn; repeat split;
    intros H; try discriminate H; destruct H as [? H]; discriminate H.
Qed.

Lemma newTodo_inline_completion DateParse e s tr dy :
  completion_ok (newTodo_inline DateParse e s tr dy).
Proof.
  unfold newTodo_inline, completion_ok.
  destruct (bool_decide _); [| destruct (bool_decide _)]; cbn; repeat split;
    intros H; try discriminate H; destruct H as [? H]; discriminate H.
Qed.

Lemma Forall_bool_filter {A} (P : A -> Prop) (f : A -> bool) (l : list A) :
  Forall P l -> Forall P (List.filter f l).
Proof.
  induction 1 as [|x l Hx Hl IH]; cbn [List.filter]; [constructor |].
  destruct (f x); [now constructor | exact IH].
Qed.

Lemma run_todos_cases DateParse e a s :
  St.todos (run DateParse e a s) = St.todos s
  \/ (exists t, St.todos (run DateParse e a s) = t :: St.todos s
        /\ id t = randomUUID e /\ completion_ok t)
  \/ (exists i current,
        List.find (fun t => bool_decide (id t = i)) (St.todos s) = Some current
        /\ St.todos (run DateParse e a s)
           = map (fun t => if bool_decide (id t = i) then toggled e current else t)
               (St.todos s))
  \/ (exists f, St.todos (run DateParse e a s) = List.filter f (St.todos s)).
Proof.
  destruct a as [| dy | i | i |]; cbn [run].
  - destruct (St.user s) as [uid |] eqn:Hu;
      [| left; now rewrite addTodo_signed_out].
    destruct (truthy (trim (St.text s))) eqn:Ht;
      [| left; now rewrite addTodo_blank].
    right. left. exists (newTodo_add e s (trim (St.text s))).
    split; [apply (addTodo_signed_in e s uid Hu Ht) |].
    split; [apply newTodo_add_fields | apply newTodo_add_completion].
  - destruct (St.user s) as [uid |] eqn:Hu;
      [| left; now rewrite addTodoInline_signed_out].
    destruct (truthy (trim (St.inlineText s))) eqn:Ht;
      [| left; now rewrite addTodoInline_blank].
    right. left. exists (newTodo_inline DateParse e s (trim (St.inlineText s)) dy).
    split; [apply (addTodoInline_signed_in DateParse e dy s uid Hu Ht) |].
    split; [apply newTodo_inline_fields | apply newTodo_inline_completion].
  - destruct (List.find (fun t => bool_decide (id t = i)) (St.todos s)) as [c |] eqn:Hf.
    + right. right. left. exists i, c. split; [exact Hf |].
      now apply toggleTodo_todos.
    + left. unfold toggleTodo. now rewrite Hf.
  - right. right. right. eexists. apply removeTodo_todos.
  - right. right. right. eexists. apply clearDone_todos.
Qed.

(** X14. The completion fields stay in step with [done] through any
    session: if in every task of the collection [doneAt] and [doneDay] are
    present exactly when [done] is true, the same holds after any sequence
    of add, inline add, toggle, remove and clear-done actions. *)
Theorem completion_fields_follow_done
    (DateParse : string -> option Date) (acts : list (Env * Action)) (s : St.State) :
  Forall completion_ok (St.todos s) ->
  Forall completion_ok (St.todos (run_all DateParse acts s)).
Proof.
  unfold run_all. revert s.
  induction acts as [|[e a] acts IH]; intros s Hok; cbn [foldl]; [exact Hok |].
  apply IH. cbn [fst snd].
  destruct (run_todos_cases DateParse e a s)
    as [-> | [(t & -> & _ & Ht) | [(i & c & _ & ->) | [f ->]]]].
  - exact Hok.
  - now constructor.
  - rewrite Forall_forall in Hok |- *. intros t Ht.
    apply list_elem_of_fmap in Ht as (t0 & -> & Ht0).
    destruct (bool_decide _); [apply toggled_completion_ok | now apply Hok].
  - now apply Forall_bool_filter.
Qed.

Lemma completion_fields_follow_done_witness :
  Forall completion_ok (St.todos (form_state (Some "u1") daily [leg_day; buy_milk]))
  /\ Forall completion_ok
       (St.todos (run_all (fun _ => None) sample_session
                    (form_state (Some "u1") daily [leg_day; buy_milk]))).
Proof.
  assert (H : Forall completion_ok
                (St.todos (form_state (Some "u1") daily [leg_day; buy_milk]))).
  { cbn. repeat constructor; cbn; intros H; try discriminate H; eauto;
      destruct H as [? H]; discriminate H. }
  split; [exact H |].
  exact (completion_fields_follow_done (fun _ => None) sample_session _ H).
Defined.

Lemma run_ids_sublist DateParse e a s :
  sublist (map id (St.todos (run DateParse e a s))) (randomUUID e :: map id (St.todos s)).
Proof.
  destruct (run_todos_cases DateParse e a s)
    as [-> | [(t & -> & Hid & _) | [(i & c & Hf & ->) | [f ->]]]].
  - now apply sublist_cons.
  - cbn [map]. rewrite Hid. reflexivity.
  - apply sublist_cons. rewrite map_map.
    assert (Hc : id c = i).
    { apply find_some in Hf as [_ H]. now apply bool_decide_eq_true in H. }
    erewrite map_ext; [reflexivity |]. intros t. cbn.
    destruct (decide (id t = i)) as [Ht | Ht].
    + rewrite (bool_decide_eq_true_2 _ Ht). rewrite toggled_id. congruence.
    + now rewrite (bool_decide_eq_false_2 _ Ht).
  - apply sublist_cons. apply (fmap_sublist id), bool_filter_sublist.
Qed.

(** X15. Ids stay unique through any session: if the ids of the
    collection and the ids drawn during the session are pairwise
    different, then after any sequence of actions no two tasks of the
    collection share an id. *)
Theorem ids_stay_unique
    (DateParse : string -> option Date) (acts : list (Env * Action)) (s : St.State) :
  NoDup (map id (St.todos s) ++ map (fun ea => randomUUID ea.1) acts) ->
  NoDup (map id (St.todos (run_all DateParse acts s))).
Proof.
  unfold run_all. revert s.
  induction acts as [|[e a] acts IH]; intros s Hnd; cbn [foldl].
  - now rewrite app_nil_r in Hnd.
  - apply IH. cbn [map fst snd] in *.
    eapply sublist_NoDup;
      [| apply sublist_app; [apply (run_ids_sublist DateParse e a s) | reflexivity]].
    cbn. rewrite <- Permutation_middle in Hnd. exact Hnd.
Qed.

Lemma ids_stay_unique_witness :
  NoDup (map id (St.todos (run_all (fun _ => None)
                   [(sample_env, AddTodo); (next_day_env, AddTodoInline "2024-03-02")]
                   (form_state (Some "u1") work [leg_day; buy_milk])))).
Proof.
  apply ids_stay_unique. vm_compute.
  repeat (constructor; [intros H; repeat (apply elem_of_cons in H as [H | H];
    [discriminate H |]); now apply elem_of_nil in H |]).
  constructor.
Defined.

(** ** Sorting *)

(** The insertion sort orders its input by any transitive relation that
    the comparator decides: [R x y] when [cmp x y] is not positive, [R y x]
    when it is. [P] restricts the elements the three facts are needed
    for. *)
Lemma insert_by_sorted (cmp : Todo -> Todo -> number) (P : Todo -> Prop)
    (R : Todo -> Todo -> Prop) :
  (forall x y z, P x -> P y -> P z -> R x y -> R y z -> R x z) ->
  (forall x y, P x -> P y -> cmp_positive (cmp x y) = false -> R x y) ->
  (forall x y, P x -> P y -> cmp_positive (cmp x y) = true -> R y x) ->
  forall x l, P x -> Forall P l -> StronglySorted R l ->
              StronglySorted R (insert_by cmp x l).
Proof.
  intros Htrans Hle Hgt x l Hx HP Hs.
  induction l as [|y l IH]; cbn [insert_by]; [repeat constructor |].
  apply Forall_cons in HP as [Hy HP]. apply StronglySorted_inv in Hs as [Hs Hall].
  destruct (cmp_positive (cmp x y)) eqn:Hc.
  - constructor; [now apply IH |].
    rewrite insert_by_Permutation. constructor; [now apply Hgt | exact Hall].
  - constructor; [now constructor |].
    assert (Hxy : R x y) by now apply Hle.
    constructor; [exact Hxy |].
    rewrite List.Forall_forall in Hall, HP |- *. intros z Hz.
    apply (Htrans x y z); auto.
Qed.

Lemma sort_by_sorted (cmp : Todo -> Todo -> number) (P : Todo -> Prop)
    (R : Todo -> Todo -> Prop) :
  (forall x y z, P x -> P y -> P z -> R x y -> R y z -> R x z) ->
  (forall x y, P x -> P y -> cmp_positive (cmp x y) = false -> R x y) ->
  (forall x y, P x -> P y -> cmp_positive (cmp x y) = true -> R y x) ->
  forall l, Forall P l -> StronglySorted R (sort_by cmp l).
Proof.
  intros Htrans Hle Hgt l HP. unfold sort_by.
  induction HP as [|x l Hx HP IH]; cbn [foldr]; [constructor |].
  apply (insert_by_sorted cmp P R); auto.
  change (Forall P (sort_by cmp l)). now rewrite sort_by_Permutation.
Qed.

Lemma ltb_false_le (a b : string) : String.ltb a b = false -> String.le b a.
Proof.
  unfold String.ltb, String.le, String.leb. rewrite (String.compare_antisym b a).
  destruct (String.compare a b); cbn; intros H; try discriminate; exact I.
Qed.

Lemma ltb_true_le (a b : string) : String.ltb a b = true -> String.le a b /\ a <> b.
Proof.
  unfold String.ltb, String.le, String.leb. intros H. split.
  - destruct (String.compare a b); try discriminate; exact I.
  - intros ->. assert (Heq : String.compare b b = Eq).
    { pose proof (String.compare_antisym b b) as Ha.
      destruct (String.compare b b); cbn in Ha; try discriminate; reflexivity. }
    rewrite Heq in H. discriminate.
Qed.

Lemma ltb_both_false (a b : string) :
  String.ltb a b = false -> String.ltb b a = false -> a = b.
Proof.
  intros H1 H2. apply ltb_false_le in H1. apply ltb_false_le in H2.
  now apply (anti_symm String.le).
Qed.

Lemma newest_first_trans x y z : newest_first x y -> newest_first y z -> newest_first x z.
Proof.
  intros (a & b & Ha & Hb & Hab) (b' & c & Hb' & Hc & Hbc).
  exists a, c. split; [exact Ha |]. split; [exact Hc |].
  rewrite Hb in Hb'. injection Hb' as <-. lia.
Qed.

Lemma fetch_cmp_le x y :
  numeric_created x -> numeric_created y ->
  cmp_positive (fetch_cmp x y) = false -> newest_first x y.
Proof.
  intros [a Ha] [b Hb]. unfold fetch_cmp. rewrite Ha, Hb. cbn. intros H.
  exists a, b. split; [exact Ha |]. split; [exact Hb |]. lia.
Qed.

Lemma fetch_cmp_gt x y :
  numeric_created x -> numeric_created y ->
  cmp_positive (fetch_cmp x y) = true -> newest_first y x.
Proof.
  intros [a Ha] [b Hb]. unfold fetch_cmp. rewrite Ha, Hb. cbn. intros H.
  exists b, a. split; [exact Hb |]. split; [exact Ha |]. lia.
Qed.

Lemma week_order_trans x y z : week_order x y -> week_order y z -> week_order x z.
Proof.
  intros [Hd1 Hn1] [Hd2 Hn2]. split; [auto |].
  intros Hxz. destruct (done x) eqn:Hx, (done y) eqn:Hy, (done z) eqn:Hz;
    try discriminate;
    try (specialize (Hd1 eq_refl); discriminate);
    try (specialize (Hd2 eq_refl); discriminate);
    eapply newest_first_trans; eauto.
Qed.

Lemma week_cmp_le x y :
  numeric_created x -> numeric_created y ->
  cmp_positive (week_cmp x y) = false -> week_order x y.
Proof.
  intros Hx Hy. unfold week_cmp, week_order.
  destruct (done x), (done y); cbn; intros H; try discriminate H;
    (split; [auto |]); intros Heq; try discriminate Heq;
    now apply fetch_cmp_le.
Qed.

Lemma week_cmp_gt x y :
  numeric_created x -> numeric_created y ->
  cmp_positive (week_cmp x y) = true -> week_order y x.
Proof.
  intros Hx Hy. unfold week_cmp, week_order.
  destruct (done x), (done y); cbn; intros H; try discriminate H;
    (split; [auto |]); intros Heq; try discriminate Heq;
    now apply fetch_cmp_gt.
Qed.

Lemma visible_order_trans today x y z :
  visible_order today x y -> visible_order today y z -> visible_order today x z.
Proof.
  intros [Hk1 Hw1] [Hk2 Hw2]. split; [now transitivity (eff_due today y) |].
  intros Hxz.
  assert (Hxy : eff_due today x = eff_due today y).
  { apply (anti_symm String.le); [exact Hk1 |]. now rewrite Hxz. }
  eapply week_order_trans; [now apply Hw1 | apply Hw2; congruence].
Qed.

Lemma visible_cmp_le today x y :
  numeric_created x -> numeric_created y ->
  cmp_positive (visible_cmp today x y) = false -> visible_order today x y.
Proof.
  intros Hx Hy. unfold visible_cmp, visible_order. fold (eff_due today x) (eff_due today y).
  destruct (String.ltb (eff_due today x) (eff_due today y)) eqn:H1.
  - intros _. apply ltb_true_le in H1 as [Hle Hne]. split; [exact Hle | contradiction].
  - destruct (String.ltb (eff_due today y) (eff_due today x)) eqn:H2;
      [cbn; discriminate |].
    intros H. pose proof (ltb_both_false _ _ H1 H2) as Heq.
    split; [rewrite Heq; reflexivity |]. intros _. now apply week_cmp_le.
Qed.

Lemma visible_cmp_gt today x y :
  numeric_created x -> numeric_created y ->
  cmp_positive (visible_cmp today x y) = true -> visible_order today y x.
Proof.
  intros Hx Hy. unfold visible_cmp, visible_order. fold (eff_due today x) (eff_due today y).
  destruct (String.ltb (eff_due today x) (eff_due today y)) eqn:H1; [cbn; discriminate |].
  destruct (String.ltb (eff_due today y) (eff_due today x)) eqn:H2.
  - intros _. apply ltb_true_le in H2 as [Hle Hne]. split; [exact Hle | contradiction].
  - intros H. pose proof (ltb_both_false _ _ H1 H2) as Heq.
    split; [rewrite Heq; reflexivity |]. intros _. now apply week_cmp_gt.
Qed.

(** The due keys alone: the comparator never puts a later key first. *)
Lemma visible_cmp_key_le today x y :
  cmp_positive (visible_cmp today x y) = false ->
  String.le (eff_due today x) (eff_due today y).
Proof.
  unfold visible_cmp. fold (eff_due today x) (eff_due today y).
  destruct (String.ltb (eff_due today x) (eff_due today y)) eqn:H1.
  - intros _. now apply ltb_true_le in H1 as [Hle _].
  - destruct (String.ltb (eff_due today y) (eff_due today x)) eqn:H2;
      [cbn; discriminate |].
    intros _. now rewrite (ltb_both_false _ _ H1 H2).
Qed.

Lemma visible_cmp_key_gt today x y :
  cmp_positive (visible_cmp today x y) = true ->
  String.le (eff_due today y) (eff_due today x).
Proof.
  unfold visible_cmp. fold (eff_due today x) (eff_due today y).
  destruct (String.ltb (eff_due today x) (eff_due today y)) eqn:H1; [cbn; discriminate |].
  intros _. now apply ltb_false_le.
Qed.

(** ** The task list under every filter *)

Lemma visibleTodos_sorted_selection (inCat : list Todo) (filter : Filter.t) (now : Date) :
  exists l,
    visibleTodos inCat filter now = sort_by (visible_cmp (dayKey now)) l
    /\ sublist l inCat
    /\ (forall t, t ∈ l <-> t ∈ inCat /\ selects filter now t).
Proof.
  unfold visibleTodos. destruct filter; cbv zeta iota; eexists; (split; [reflexivity |]).
  - split; [reflexivity |]. intros t. cbn. tauto.
  - split; [apply bool_filter_sublist |]. intros t.
    rewrite elem_of_bool_filter, bool_decide_eq_true. reflexivity.
  - split; [apply bool_filter_sublist |]. intros t.
    rewrite elem_of_bool_filter, bool_decide_eq_true. reflexivity.
  - split; [apply bool_filter_sublist |]. intros t.
    rewrite elem_of_bool_filter, bool_decide_eq_true, elem_of_list_to_set. reflexivity.
  - split; [apply bool_filter_sublist |]. intros t.
    rewrite elem_of_bool_filter, negb_true_iff. reflexivity.
  - split; [apply bool_filter_sublist |]. intros t.
    rewrite elem_of_bool_filter. reflexivity.
Qed.

(** X16. The task list shows, under each of the six filters, exactly the
    tasks of the category that the filter asks for: all of them, the
    not-done ones, the done ones, or those whose effective due key
    ([dueDay], or today's key when absent) is today, is tomorrow, or falls
    in the current Monday-to-Sunday week. No task is shown twice or made
    up: under "all" the list is a rearrangement of the category's tasks,
    and every other list is no longer. A task shown under "today" is also
    shown under "week" and never under "tomorrow". *)
Theorem visibleTodos_shows_the_selected_tasks
    (inCat : list Todo) (filter : Filter.t) (now : Date) :
  (forall t, t ∈ visibleTodos inCat filter now <-> t ∈ inCat /\ selects filter now t)
  /\ visibleTodos inCat Filter.all now ≡ₚ inCat
  /\ (length (visibleTodos inCat filter now) <= length inCat)%nat
  /\ (forall t, t ∈ visibleTodos inCat Filter.today now ->
                t ∈ visibleTodos inCat Filter.week now
                /\ ~ t ∈ visibleTodos inCat Filter.tomorrow now).
Proof.
  assert (Hmem : forall f t,
    t ∈ visibleTodos inCat f now <-> t ∈ inCat /\ selects f now t).
  { intros f t. destruct (visibleTodos_sorted_selection inCat f now) as (l & -> & _ & Hl).
    now rewrite sort_by_Permutation. }
  split; [apply Hmem |]. split; [| split].
  - unfold visibleTodos. apply sort_by_Permutation.
  - destruct (visibleTodos_sorted_selection inCat filter now) as (l & -> & Hsub & _).
    rewrite sort_by_Permutation. now apply sublist_length.
  - intros t Ht. apply Hmem in Ht as [Hin Hsel]. cbn in Hsel. split.
    + apply Hmem. split; [exact Hin |]. cbn. rewrite Hsel. apply today_in_week.
    + intros Hto. apply Hmem in Hto as [_ Hsel']. cbn in Hsel'.
      rewrite Hsel in Hsel'. symmetry in Hsel'.
      exact (tomorrow_is_not_today now Hsel').
Qed.

Lemma Forall_sublist {A} (P : A -> Prop) (l k : list A) :
  sublist l k -> Forall P k -> Forall P l.
Proof.
  induction 1 as [| x l k Hs IH | x l k Hs IH]; intros H; [constructor | |].
  - apply Forall_cons in H as [Hx H]. constructor; auto.
  - apply Forall_cons in H as [_ H]. auto.
Qed.

(** X17. The order of the task list. Under every filter the list runs by
    ascending effective due key. When the creation times of the category's
    tasks are numbers, the order is complete: within one due key the
    not-done tasks come before the done ones, and within one completion
    state the newest task comes first. *)
Theorem visibleTodos_order (inCat : list Todo) (filter : Filter.t) (now : Date) :
  StronglySorted (fun a b => String.le (eff_due (dayKey now) a) (eff_due (dayKey now) b))
    (visibleTodos inCat filter now)
  /\ (Forall numeric_created inCat ->
      StronglySorted (visible_order (dayKey now)) (visibleTodos inCat filter now)).
Proof.
  destruct (visibleTodos_sorted_selection inCat filter now) as (l & -> & Hsub & _).
  split.
  - apply (sort_by_sorted _ (fun _ => True)).
    + intros x y z _ _ _ H1 H2. now transitivity (eff_due (dayKey now) y).
    + intros x y _ _. apply visible_cmp_key_le.
    + intros x y _ _. apply visible_cmp_key_gt.
    + apply Forall_forall. auto.
  - intros Hnum. apply (sort_by_sorted _ numeric_created).
    + intros x y z _ _ _. apply visible_order_trans.
    + intros x y. apply visible_cmp_le.
    + intros x y. apply visible_cmp_gt.
    + eapply Forall_sublist; [exact Hsub | exact Hnum].
Qed.

Lemma visibleTodos_order_witness :
  Forall numeric_created [leg_day; buy_milk; completed_on "a" "2024-02-28"]
  /\ StronglySorted (visible_order (dayKey leap_thursday))
       (visibleTodos [leg_day; buy_milk; completed_on "a" "2024-02-28"]
          Filter.all leap_thursday)
  /\ visibleTodos [leg_day; buy_milk; completed_on "a" "2024-02-28"]
       Filter.all leap_thursday
     = [leg_day; buy_milk; completed_on "a" "2024-02-28"].
Proof.
  assert (H : Forall numeric_created [leg_day; buy_milk; completed_on "a" "2024-02-28"])
    by (repeat constructor; eexists; reflexivity).
  split; [exact H |]. split; [| vm_compute; reflexivity].
  exact (proj2 (visibleTodos_order _ Filter.all leap_thursday) H).
Defined.

(** ** The weekly calendar's day lists *)

Lemma fresh_map_lookup {V} (v : V) (keys : list string) (m : gmap string V) (k : string) :
  foldl (fun m k => <[k := v]> m) m keys !! k
  = if bool_decide (k ∈ keys) then Some v else m !! k.
Proof.
  revert m. induction keys as [|k' keys IH]; intros m; cbn [foldl].
  - rewrite bool_decide_eq_false_2; [reflexivity | apply not_elem_of_nil].
  - rewrite IH. destruct (decide (k ∈ keys)) as [Hin | Hnin].
    + rewrite !bool_decide_eq_true_2; [reflexivity | now right | exact Hin].
    + rewrite (bool_decide_eq_false_2 _ Hnin).
      destruct (decide (k = k')) as [-> | Hne].
      * rewrite lookup_insert_eq, bool_decide_eq_true_2; [reflexivity | now left].
      * rewrite lookup_insert_ne by congruence.
        rewrite bool_decide_eq_false_2; [reflexivity |].
        intros [-> | H]%elem_of_cons; [congruence | exact (Hnin H)].
Qed.

(** A day key has a dash three characters before its end; no name of
    [proto_names] has. *)
Lemma dayKey_dash (d : Date) :
  String.get (String.length (dayKey d) - 3) (dayKey d) = String.get 0 "-".
Proof.
  destruct (dayKey_names_the_calendar_day d d) as (_ & mm & dd & Hk & _ & _ & Hm & Hd & _).
  rewrite Hk.
  replace (pretty (getFullYear d) +:+ "-" +:+ mm +:+ "-" +:+ dd)
    with ((pretty (getFullYear d) +:+ "-" +:+ mm) +:+ ("-" +:+ dd)).
  2:{ generalize (pretty (getFullYear d)). intros y.
      induction y as [|c y IH]; [reflexivity |].
      change (String c ((y +:+ "-" +:+ mm) +:+ "-" +:+ dd)
              = String c (y +:+ "-" +:+ mm +:+ "-" +:+ dd)). now rewrite IH. }
  rewrite string_length_app.
  replace (String.length ("-" +:+ dd)) with 3%nat
    by (rewrite string_length_app, Hd; reflexivity).
  replace (String.length (pretty (getFullYear d) +:+ "-" +:+ mm) + 3 - 3)%nat
    with (0 + String.length (pretty (getFullYear d) +:+ "-" +:+ mm))%nat by lia.
  rewrite <- String.append_correct2. reflexivity.
Qed.

Lemma proto_names_no_dash :
  forallb (fun s => negb (bool_decide
    (String.get (String.length s - 3) s = String.get 0 "-"))) proto_names = true.
Proof. vm_compute. reflexivity. Qed.

Lemma dayKey_not_proto (d : Date) : dayKey d ∉ proto_names.
Proof.
  intros Hin. pose proof proto_names_no_dash as H. rewrite forallb_forall in H.
  apply list_elem_of_In in Hin. specialize (H _ Hin).
  rewrite negb_true_iff, bool_decide_eq_false in H. exact (H (dayKey_dash d)).
Qed.

Lemma weekTasks_fold_none today (l : list Todo) :
  foldl (weekTasks_step today) None l = None.
Proof. induction l as [|t l IH]; [reflexivity | exact IH]. Qed.

(** The loop over the tasks, when no task misses the day lists on an
    inherited name: each day list grows by its tasks, in order. *)
Lemma weekTasks_fold_some today (l : list Todo) (m : gmap string (list Todo)) :
  (forall t, t ∈ l -> m !! eff_due today t = None -> eff_due today t ∉ proto_names) ->
  exists m', foldl (weekTasks_step today) (Some m) l = Some m'
    /\ forall k, m' !! k
         = (fun old => old ++ List.filter (fun t => bool_decide (eff_due today t = k)) l)
             <$> m !! k.
Proof.
  revert m. induction l as [|t l IH]; intros m Hok; cbn [foldl].
  - exists m. split; [reflexivity |]. intros k. cbn [List.filter].
    destruct (m !! k); cbn; [now rewrite app_nil_r | reflexivity].
  - unfold weekTasks_step at 2. fold (eff_due today t).
    destruct (m !! eff_due today t) as [old |] eqn:Hold.
    + destruct (IH (<[eff_due today t := old ++ [t]]> m)) as (m' & Hm' & Hl).
      { intros t' Ht' Hnone. apply Hok; [now right |].
        destruct (decide (eff_due today t = eff_due today t')) as [Heq | Hne].
        - rewrite <- Heq, lookup_insert_eq in Hnone. discriminate.
        - now rewrite lookup_insert_ne in Hnone. }
      exists m'. split; [exact Hm' |]. intros k. rewrite Hl. cbn [List.filter].
      destruct (decide (eff_due today t = k)) as [<- | Hne].
      * rewrite lookup_insert_eq, Hold, bool_decide_eq_true_2 by reflexivity.
        cbn. now rewrite <- app_assoc.
      * rewrite lookup_insert_ne by exact Hne.
        now rewrite (bool_decide_eq_false_2 _ Hne).
    + rewrite bool_decide_eq_false_2 by (apply Hok; [now left | exact Hold]).
      destruct (IH m) as (m' & Hm' & Hl).
      { intros t' Ht'. apply Hok. now right. }
      exists m'. split; [exact Hm' |]. intros k. rewrite Hl. cbn [List.filter].
      destruct (decide (eff_due today t = k)) as [<- | Hne].
      * now rewrite Hold.
      * now rewrite (bool_decide_eq_false_2 _ Hne).
Qed.

(** The loop throws as soon as a task's key is an inherited name. *)
Lemma weekTasks_fold_throws today (l : list Todo) (m : gmap string (list Todo)) :
  (forall k, k ∈ proto_names -> m !! k = None) ->
  (exists t, t ∈ l /\ eff_due today t ∈ proto_names) ->
  foldl (weekTasks_step today) (Some m) l = None.
Proof.
  revert m. induction l as [|t l IH]; intros m Hown (t0 & Ht0 & Hp).
  - now apply elem_of_nil in Ht0.
  - cbn [foldl]. unfold weekTasks_step at 2. fold (eff_due today t).
    destruct (m !! eff_due today t) as [old |] eqn:Hold.
    + apply IH.
      * intros k Hk. rewrite lookup_insert_ne; [now apply Hown |].
        intros <-. rewrite (Hown _ Hk) in Hold. discriminate.
      * apply elem_of_cons in Ht0 as [-> | Ht0]; [| eauto].
        rewrite (Hown _ Hp) in Hold. discriminate.
    + destruct (decide (eff_due today t ∈ proto_names)) as [Hin | Hnin].
      * rewrite (bool_decide_eq_true_2 _ Hin). apply weekTasks_fold_none.
      * rewrite (bool_decide_eq_false_2 _ Hnin). apply IH; [exact Hown |].
        apply elem_of_cons in Ht0 as [-> | Ht0]; [contradiction | eauto].
Qed.

Lemma week_keys_not_proto (now : Date) (k : string) :
  k ∈ weekKeysMonSun now -> k ∉ proto_names.
Proof.
  unfold weekKeysMonSun. intros (i & -> & _)%list_elem_of_fmap. apply dayKey_not_proto.
Qed.

(** X18. [weekTasksByDay] gives one list per day of the current week and
    no other: the list of a day is a rearrangement of the category's tasks
    whose effective due key is that day, so a task of the week stands in
    exactly the list of its key, once for each time it is in the
    collection. This holds provided no task's effective due key is the
    name of a member every object inherits ("constructor", "toString",
    ...); if one is, the computation throws and no calendar is
    produced. *)
Theorem weekTasksByDay_groups_or_throws (inCat : list Todo) (now : Date) :
  ((forall t, t ∈ inCat -> eff_due (dayKey now) t ∉ proto_names) ->
   exists m, weekTasksByDay inCat now = Some m
     /\ (forall k, is_Some (m !! k) <-> k ∈ weekKeysMonSun now)
     /\ (forall k l, m !! k = Some l ->
           l ≡ₚ List.filter (fun t => bool_decide (eff_due (dayKey now) t = k)) inCat)
     /\ (forall t k l, m !! k = Some l ->
           (t ∈ l <-> t ∈ inCat /\ eff_due (dayKey now) t = k)))
  /\ ((exists t, t ∈ inCat /\ eff_due (dayKey now) t ∈ proto_names) ->
      weekTasksByDay inCat now = None).
Proof.
  set (map0 := foldl (fun m k => <[k := []]> m) (∅ : gmap string (list Todo))
                 (weekKeysMonSun now)).
  assert (H0 : forall k, map0 !! k
             = if bool_decide (k ∈ weekKeysMonSun now) then Some [] else None).
  { intros k. subst map0. rewrite fresh_map_lookup. now rewrite lookup_empty. }
  split.
  - intros Hok.
    destruct (weekTasks_fold_some (dayKey now) inCat map0) as (m' & Hm' & Hl).
    { intros t Ht _. now apply Hok. }
    assert (Hlook : forall k, (sort_by week_cmp <$> m') !! k
      = if bool_decide (k ∈ weekKeysMonSun now)
        then Some (sort_by week_cmp
               (List.filter (fun t => bool_decide (eff_due (dayKey now) t = k)) inCat))
        else None).
    { intros k. rewrite lookup_fmap, Hl, H0.
      destruct (bool_decide (k ∈ weekKeysMonSun now)); reflexivity. }
    exists (sort_by week_cmp <$> m'). split; [| split; [| split]].
    + unfold weekTasksByDay. cbv zeta. fold map0. now rewrite Hm'.
    + intros k. rewrite Hlook.
      destruct (decide (k ∈ weekKeysMonSun now)) as [Hin | Hout].
      * rewrite (bool_decide_eq_true_2 _ Hin). split; [intros _; exact Hin | eauto].
      * rewrite (bool_decide_eq_false_2 _ Hout).
        split; [intros [? H]; discriminate H | intros H; contradiction].
    + intros k l Hk. rewrite Hlook in Hk.
      destruct (bool_decide (k ∈ weekKeysMonSun now)); [| discriminate].
      injection Hk as <-. apply sort_by_Permutation.
    + intros t k l Hk. rewrite Hlook in Hk.
      destruct (bool_decide (k ∈ weekKeysMonSun now)); [| discriminate].
      injection Hk as <-. rewrite sort_by_Permutation, elem_of_bool_filter.
      now rewrite bool_decide_eq_true.
  - intros Hbad. unfold weekTasksByDay. cbv zeta. fold map0.
    rewrite (weekTasks_fold_throws (dayKey now) inCat map0); [reflexivity | | exact Hbad].
    intros k Hk. rewrite H0. rewrite bool_decide_eq_false_2; [reflexivity |].
    intros Hin. exact (week_keys_not_proto now k Hin Hk).
Qed.

(** A task read from a remote document whose [dueDay] is "constructor"
    stops the weekly calendar; the weekly counts are not affected. *)
Example weekTasksByDay_throws_on_constructor :
  weekTasksByDay [buy_milk; with_dueDay leg_day "constructor"] leap_thursday = None
  /\ map Week.done (weekStats [buy_milk; with_dueDay leg_day "constructor"] leap_thursday)
     = [0; 0; 0; 1; 0; 0; 0].
Proof. split; vm_compute; reflexivity. Qed.

(** X19. The day lists of the weekly calendar are ordered: when the
    creation times of the category's tasks are numbers, every list
    [weekTasksByDay] returns has its not-done tasks before its done ones
    and, within one completion state, the newest task first. *)
Theorem weekTasksByDay_lists_ordered (inCat : list Todo) (now : Date) :
  Forall numeric_created inCat ->
  forall k l,
    match weekTasksByDay inCat now with
    | Some m => m !! k
    | None => None
    end = Some l ->
    StronglySorted week_order l.
Proof.
  intros Hnum k l Hk.
  destruct (weekTasksByDay inCat now) as [m |] eqn:Hm; [| discriminate Hk].
  set (map0 := foldl (fun m k => <[k := []]> m) (∅ : gmap string (list Todo))
                 (weekKeysMonSun now)).
  assert (H0 : forall k0 l1, map0 !! k0 = Some l1 -> l1 = []).
  { intros k0 l1. subst map0. rewrite fresh_map_lookup, lookup_empty.
    destruct (bool_decide _); congruence. }
  unfold weekTasksByDay in Hm. cbv zeta in Hm. fold map0 in Hm.
  destruct (foldl _ (Some map0) inCat) as [m' |] eqn:Hf; [| discriminate].
  injection Hm as <-. rewrite lookup_fmap in Hk.
  destruct (m' !! k) as [l' |] eqn:Hl'; [| discriminate]. injection Hk as <-.
  apply (sort_by_sorted _ numeric_created).
  - intros x y z _ _ _. apply week_order_trans.
  - intros x y. apply week_cmp_le.
  - intros x y. apply week_cmp_gt.
  - assert (Hsub : forall (l0 : list Todo) (acc : option (gmap string (list Todo))) m1,
        foldl (weekTasks_step (dayKey now)) acc l0 = Some m1 ->
        Forall numeric_created l0 ->
        (forall m0, acc = Some m0 ->
           forall k0 l1, m0 !! k0 = Some l1 -> Forall numeric_created l1) ->
        forall k0 l1, m1 !! k0 = Some l1 -> Forall numeric_created l1).
    { clear. induction l0 as [|t l0 IH]; intros acc m1 Hfold Hn Hacc; cbn [foldl] in Hfold.
      - subst acc. now apply Hacc.
      - apply Forall_cons in Hn as [Ht Hn].
        apply (IH _ _ Hfold Hn). intros m0 Hstep.
        destruct acc as [ma |]; [| discriminate Hstep]. cbn in Hstep.
        destruct (ma !! opt_or (dueDay t) (dayKey now)) as [old |] eqn:Hold.
        + injection Hstep as <-. intros k0 l1 Hk0.
          destruct (decide (opt_or (dueDay t) (dayKey now) = k0)) as [<- | Hne].
          * rewrite lookup_insert_eq in Hk0. injection Hk0 as <-.
            apply Forall_app. split; [now apply (Hacc ma eq_refl _ _ Hold) |].
            now repeat constructor.
          * rewrite lookup_insert_ne in Hk0 by exact Hne.
            now apply (Hacc ma eq_refl _ _ Hk0).
        + destruct (bool_decide _); [discriminate |]. injection Hstep as <-.
          now apply (Hacc ma eq_refl). }
    apply (Hsub inCat _ m' Hf Hnum) with (k0 := k); [| exact Hl'].
    intros m0 [= <-] k0 l1 Hk0. rewrite (H0 _ _ Hk0). constructor.
Qed.

Lemma weekTasksByDay_lists_ordered_witness :
  Forall numeric_created [completed_on "a" "2024-02-28"; leg_day; buy_milk]
  /\ match weekTasksByDay [completed_on "a" "2024-02-28"; leg_day; buy_milk]
              leap_thursday with
     | Some m => m !! "2024-02-29"
     | None => None
     end = Some [buy_milk; completed_on "a" "2024-02-28"]
  /\ StronglySorted week_order [buy_milk; completed_on "a" "2024-02-28"].
Proof.
  assert (H : Forall numeric_created [completed_on "a" "2024-02-28"; leg_day; buy_milk])
    by (repeat constructor; eexists; reflexivity).
  assert (Hk : match weekTasksByDay [completed_on "a" "2024-02-28"; leg_day; buy_milk]
                       leap_thursday with
               | Some m => m !! "2024-02-29"
               | None => None
               end = Some [buy_milk; completed_on "a" "2024-02-28"])
    by (vm_compute; reflexivity).
  split; [exact H |]. split; [exact Hk |].
  exact (weekTasksByDay_lists_ordered _ leap_thursday H "2024-02-29" _ Hk).
Defined.

(** ** Fetching the remote collection *)

Lemma fetchTodos_todos StringToNumber docs s uid :
  St.user s = Some uid ->
  St.todos (fetchTodos StringToNumber docs s)
  = sort_by fetch_cmp
      (map (fun d => fromFirestoreTodo StringToNumber (read_at d) (doc_id d) (doc_data d))
         docs).
Proof. intros Hu. unfold fetchTodos. rewrite Hu. apply setTodos_todos. Qed.

(** X20. The fetch replaces the collection: for a signed-in user the
    collection afterwards is a rearrangement of the decoded remote
    documents, one task per document under the document's id, whatever
    the collection held before, so tasks that exist only locally are
    dropped; the cache, once loaded, holds the new collection and no
    remote call is issued. Signed out, the fetch does nothing. *)
Theorem fetchTodos_replaces_the_collection
    (StringToNumber : string -> number) (docs : list Snapshot) (s : St.State) :
  (St.user s = None -> fetchTodos StringToNumber docs s = s)
  /\ (forall uid, St.user s = Some uid ->
        St.todos (fetchTodos StringToNumber docs s)
          ≡ₚ map (fun d => fromFirestoreTodo StringToNumber (read_at d) (doc_id d)
                             (doc_data d)) docs
        /\ map id (St.todos (fetchTodos StringToNumber docs s)) ≡ₚ map doc_id docs
        /\ (forall l, St.todos (fetchTodos StringToNumber docs (St.set_todos l s))
                      = St.todos (fetchTodos StringToNumber docs s))
        /\ (St.loaded s = true ->
            St.cache (fetchTodos StringToNumber docs s)
            = Some (St.todos (fetchTodos StringToNumber docs s)))
        /\ St.remote (fetchTodos StringToNumber docs s) = St.remote s).
Proof.
  split; [intros Hu; unfold fetchTodos; now rewrite Hu |].
  intros uid Hu.
  pose proof (fetchTodos_todos StringToNumber docs s uid Hu) as Ht.
  split; [rewrite Ht; apply sort_by_Permutation |].
  split; [| split; [| split]].
  - rewrite Ht, sort_by_Permutation, map_map. reflexivity.
  - intros l. rewrite Ht.
    now rewrite (fetchTodos_todos StringToNumber docs (St.set_todos l s) uid).
  - intros Hl. unfold fetchTodos. rewrite Hu.
    destruct (evolves_setTodos (fun _ => sort_by fetch_cmp
      (map (fun d => fromFirestoreTodo StringToNumber (read_at d) (doc_id d) (doc_data d))
         docs)) s) as (_ & _ & _ & _ & Hca & _).
    destruct (Hca Hl) as [H | [_ H]]; [exact H |].
    destruct s as [? ? ? ? ? ? ? ? ld ? ? ?]. cbn in Hl. subst ld. reflexivity.
  - unfold fetchTodos. rewrite Hu. apply setTodos_remote_user.
Qed.

(** X21. What was upserted is what a later fetch returns: if the remote
    collection holds, for each task of a list, the document [upsertRemote]
    writes for it (with any server time in [updatedAt]), the fetch yields
    exactly those tasks; and when their creation times are numbers, it
    yields them newest first. *)
Theorem fetch_returns_the_upserted_tasks
    (StringToNumber : string -> number) (v : jsval) (r : Z) (l : list Todo)
    (s : St.State) (uid : string) :
  St.user s = Some uid ->
  St.todos (fetchTodos StringToNumber (map (snapshot_of v r) l) s) ≡ₚ l
  /\ (Forall numeric_created l ->
      StronglySorted newest_first
        (St.todos (fetchTodos StringToNumber (map (snapshot_of v r) l) s))).
Proof.
  intros Hu. rewrite (fetchTodos_todos _ _ s uid Hu), map_map.
  assert (Hdec : map (fun t => fromFirestoreTodo StringToNumber
                                 (read_at (snapshot_of v r t)) (doc_id (snapshot_of v r t))
                                 (doc_data (snapshot_of v r t))) l = l).
  { rewrite <- (map_id l) at 2. apply map_ext. intros t. cbn.
    apply fromFirestore_toFirestore. }
  rewrite Hdec. split; [apply sort_by_Permutation |].
  intros Hnum. apply (sort_by_sorted _ numeric_created).
  - intros x y z _ _ _. apply newest_first_trans.
  - intros x y. apply fetch_cmp_le.
  - intros x y. apply fetch_cmp_gt.
  - exact Hnum.
Qed.

Lemma fetch_returns_the_upserted_tasks_witness :
  St.user (form_state (Some "u1") daily []) = Some "u1"
  /\ St.todos (fetchTodos (fun _ => NaN)
                 (map (snapshot_of JObject 0) [leg_day; buy_milk])
                 (form_state (Some "u1") daily [completed_on "a" "2024-02-28"]))
     ≡ₚ [leg_day; buy_milk].
Proof.
  split; [reflexivity |].
  exact (proj1 (fetch_returns_the_upserted_tasks (fun _ => NaN) JObject 0
                  [leg_day; buy_milk]
                  (form_state (Some "u1") daily [completed_on "a" "2024-02-28"])
                  "u1" eq_refl)).
Defined.

(** ** The weekly counts and the 14-day series, position by position *)

Lemma weekKeys_NoDup (now : Date) : NoDup (weekKeysMonSun now).
Proof.
  unfold weekKeysMonSun. apply NoDup_fmap_2_strong; [| apply NoDup_seqZ].
  intros a b _ _ H. apply dayKey_inj in H. rewrite !day_addDays in H. lia.
Qed.

Lemma filter_length_le_impl {A} (f g : A -> bool) (l : list A) :
  (forall x, f x = true -> g x = true) ->
  (length (List.filter f l) <= length (List.filter g l))%nat.
Proof.
  intros H. induction l as [|x l IH]; cbn [List.filter]; [lia |].
  destruct (f x) eqn:Hf.
  - rewrite (H x Hf). cbn [length]. lia.
  - destruct (g x); cbn [length]; lia.
Qed.

Lemma filter_length_le_all {A} (f : A -> bool) (l : list A) :
  (length (List.filter f l) <= length l)%nat.
Proof.
  induction l as [|x l IH]; cbn [List.filter]; [lia |].
  destruct (f x); cbn [length]; lia.
Qed.

Lemma sel_done_is_done (t : Todo) (k : string) : sel_done t = Some k -> done t = true.
Proof.
  unfold sel_done. destruct (doneDay t) as [k' |]; [| discriminate].
  destruct (done t); [reflexivity | discriminate].
Qed.

(** However the keys are chosen, the done tasks counted under them are
    at most the done tasks of the collection. *)
Lemma sum_done_le (l : list Todo) (keys : list string) :
  NoDup keys ->
  0 <= sumZ (map (count_sel sel_done l) keys) <= Z.of_nat (doneCount l).
Proof.
  intros Hnd. rewrite sum_count_sel by exact Hnd. split; [lia |].
  apply inj_le. unfold doneCount. apply filter_length_le_impl.
  intros t. destruct (sel_done t) as [k |] eqn:Hs; [| discriminate].
  intros _. exact (sel_done_is_done t k Hs).
Qed.

(** X22. The weekly aggregate has one entry per day of the Monday-start
    week, in order; an entry's [planned] is the number of tasks whose
    [dueDay] is present and equal to the entry's key, its [done] the
    number of done tasks whose [doneDay] equals the key. Over the week
    the planned counts add up to at most the number of tasks, and the
    done counts to at most [doneCount]. *)
Theorem weekStats_counts_per_day (inCat : list Todo) (now : Date) :
  map Week.key (weekStats inCat now) = weekKeysMonSun now
  /\ (forall e, e ∈ weekStats inCat now ->
        Week.planned e = planned_by_dueDay inCat (Week.key e)
        /\ Week.done e = done_by_doneDay inCat (Week.key e))
  /\ 0 <= sumZ (map Week.planned (weekStats inCat now)) <= Z.of_nat (length inCat)
  /\ 0 <= sumZ (map Week.done (weekStats inCat now)) <= Z.of_nat (doneCount inCat).
Proof.
  rewrite weekStats_entries. split; [| split; [| split]].
  - rewrite map_map. cbn [Week.key]. apply map_id.
  - intros e (k & -> & _)%list_elem_of_fmap. split; reflexivity.
  - rewrite map_map. cbn [Week.planned].
    assert (Hm : map (fun k => planned_by_dueDay inCat k) (weekKeysMonSun now)
                 = map (count_sel sel_due inCat) (weekKeysMonSun now)).
    { apply list_fmap_ext. intros i k Hk. symmetry. apply count_sel_due.
      apply (weekKeys_truthy now). eapply list_elem_of_lookup_2. exact Hk. }
    rewrite Hm, sum_count_sel by apply weekKeys_NoDup. split; [lia |].
    apply inj_le. apply filter_length_le_all.
  - rewrite map_map. cbn [Week.done].
    assert (Hm : map (fun k => done_by_doneDay inCat k) (weekKeysMonSun now)
                 = map (count_sel sel_done inCat) (weekKeysMonSun now)).
    { apply list_fmap_ext. intros i k Hk. symmetry. apply count_sel_done.
      apply (weekKeys_truthy now). eapply list_elem_of_lookup_2. exact Hk. }
    rewrite Hm. apply sum_done_le, weekKeys_NoDup.
Qed.

Lemma last14_keys_forward (now : Date) :
  last14_keys now = map (fun j => keyOfDay (day now - 13 + j)) (seqZ 0 14).
Proof.
  unfold last14_keys.
  change (reverse (seqZ 0 14)) with (map (fun j => 13 - j) (seqZ 0 14)).
  rewrite map_map. apply map_ext. intros j.
  rewrite dayKey_keyOfDay, day_addDays. f_equal. lia.
Qed.

Lemma last14_keys_upto (now : Date) (i : nat) :
  (i < 14)%nat -> take (S i) (last14_keys now) = window_upto now i.
Proof.
  intros Hi. rewrite last14_keys_forward. unfold window_upto.
  do 14 (destruct i as [|i]; [reflexivity |]). lia.
Qed.

Lemma window_upto_sub (now : Date) (i : nat) (k : string) :
  (i < 14)%nat -> k ∈ window_upto now i -> k ∈ last14_keys now.
Proof.
  intros Hi Hk. rewrite <- last14_keys_upto in Hk by exact Hi.
  eapply subseteq_take. exact Hk.
Qed.

Lemma last14_value (inCat : list Todo) (now : Date) (i : nat) (v : Z) :
  last14 inCat now !! i = Some v ->
  v = Z.of_nat (length (List.filter (fun t =>
        done t && match doneDay t with
                  | Some k => bool_decide (k ∈ window_upto now i)
                  | None => false
                  end) inCat)).
Proof.
  intros Hv.
  assert (Hi : (i < 14)%nat).
  { apply lookup_lt_Some in Hv. unfold last14 in Hv.
    now rewrite running_sums_length, last14_keys_length in Hv. }
  unfold last14 in Hv. apply running_sums_lookup in Hv.
  rewrite last14_keys_upto in Hv by exact Hi.
  assert (Hm : map (read_count (foldl last14_step (zero_counters (last14_keys now)) inCat))
                 (window_upto now i)
               = map (count_sel sel_done inCat) (window_upto now i)).
  { apply list_fmap_ext. intros j k Hk. apply last14_read.
    apply (window_upto_sub now i k Hi). eapply list_elem_of_lookup_2. exact Hk. }
  rewrite Hm, sum_count_sel in Hv.
  2:{ rewrite <- last14_keys_upto by exact Hi.
      eapply sublist_NoDup; [apply last14_keys_NoDup | apply sublist_take]. }
  rewrite Hv, Z.add_0_l. do 2 f_equal. apply filter_ext_bool. intros t.
  unfold sel_done. destruct (doneDay t) as [k |]; [| now rewrite andb_false_r].
  destruct (done t); cbn [andb]; [| reflexivity].
  destruct (truthy k) eqn:Htr; [reflexivity |].
  symmetry. apply bool_decide_eq_false_2. intros Hk.
  pose proof (window_upto_sub now i k Hi Hk) as Hk2.
  pose proof (proj1 (elem_of_last14_keys now k) Hk2) as Hk3.
  pose proof (window14_truthy now k Hk3). congruence.
Qed.

(** X23. Every position of the 14-day series, not only the last: value
    [i] is the number of done tasks whose [doneDay] is one of the first
    [i + 1] days of the window (the day 13 days ago up to the day [13 - i]
    days ago). No value is negative or above [doneCount]. *)
Theorem last14_counts_up_to_each_day (inCat : list Todo) (now : Date) :
  last14 inCat now
  = map (fun i => Z.of_nat (length (List.filter (fun t =>
          done t && match doneDay t with
                    | Some k => bool_decide (k ∈ window_upto now i)
                    | None => false
                    end) inCat))) (seq 0 14)
  /\ Forall (fun v => 0 <= v <= Z.of_nat (doneCount inCat)) (last14 inCat now).
Proof.
  split.
  - apply list_eq. intros i.
    destruct (last14 inCat now !! i) as [v |] eqn:Hv.
    + pose proof (last14_value inCat now i v Hv) as Hval.
      assert (Hi : (i < 14)%nat).
      { apply lookup_lt_Some in Hv. unfold last14 in Hv.
        now rewrite running_sums_length, last14_keys_length in Hv. }
      symmetry. change (map ?f ?l) with (f <$> l).
      rewrite list_lookup_fmap, lookup_seq_lt by exact Hi. cbn. now rewrite Hval.
    + symmetry. apply lookup_ge_None. apply lookup_ge_None in Hv.
      unfold last14 in Hv. rewrite running_sums_length, last14_keys_length in Hv.
      now rewrite length_map, length_seq.
  - apply Forall_forall. intros v Hv. apply list_elem_of_lookup_1 in Hv as [i Hv].
    rewrite (last14_value inCat now i v Hv). split; [lia |].
    apply inj_le. unfold doneCount. apply filter_length_le_impl.
    intros t Ht. now apply andb_prop in Ht as [Hd _].
Qed.

(** ** The streak and the completions *)

Lemma streak_result (inCat : list Todo) (now : Date) :
  exists s : nat,
    (forall fuel, (length inCat < fuel)%nat -> streak fuel inCat now = Some s)
    /\ (forall i, (i < s)%nat -> keyOfDay (day now - Z.of_nat i) ∈ doneDays inCat)
    /\ keyOfDay (day now - Z.of_nat s) ∉ doneDays inCat.
Proof.
  destruct (done_gap inCat (day now)) as (j & Hj & Hgap).
  assert (Hout : keyOfDay (day now - Z.of_nat j) ∉ doneDays inCat)
    by now rewrite keyOfDay_doneDays.
  destruct (streak_loop_spec (S (length inCat)) (doneDays inCat) 0 now)
    as (s & Hs & Hrun & Hall & Hstop).
  { exists j. split; [lia | exact Hout]. }
  exists s. split; [| split; [exact Hall | exact Hstop]].
  intros fuel Hfuel.
  destruct (streak_loop_spec fuel (doneDays inCat) 0 now)
    as (s' & Hs' & Hrun' & Hall' & Hstop').
  { exists j. split; [lia | exact Hout]. }
  unfold streak. rewrite Hrun'. f_equal. cbn.
  destruct (Nat.lt_trichotomy s s') as [Hlt | [Heq | Hgt]]; [| exact (eq_sym Heq) |].
  - exfalso. apply Hstop. apply Hall'. exact Hlt.
  - exfalso. apply Hstop'. apply Hall. exact Hgt.
Qed.

Lemma omap_length_le {A B} (f : A -> option B) (l : list A) :
  (length (omap f l) <= length l)%nat.
Proof. induction l as [|x l IH]; cbn; [lia |]. destruct (f x); cbn; lia. Qed.

Lemma doneDays_of_done (l : list Todo) :
  doneDays (List.filter (fun t => done t) l) = doneDays l.
Proof.
  unfold doneDays. generalize (∅ : gset string).
  induction l as [|t l IH]; intros acc; cbn [List.filter foldl]; [reflexivity |].
  destruct (done t) eqn:Hd; cbn [foldl].
  - rewrite Hd. apply IH.
  - rewrite IH. destruct (doneDay t); reflexivity.
Qed.

(** X24. The streak never exceeds the number of done tasks, is at least
    1 as soon as some done task was completed today, and depends on the
    done tasks only: tasks that are not done can be dropped, with no
    effect, whatever their [doneDay] holds. It is returned for every
    number of rounds above the size of the collection. *)
Theorem streak_bounded_by_completions (inCat : list Todo) (now : Date) :
  exists s : nat,
    (forall fuel, (length inCat < fuel)%nat -> streak fuel inCat now = Some s)
    /\ (s <= doneCount inCat)%nat
    /\ (done_on inCat (dayKey now) -> (1 <= s)%nat)
    /\ (forall fuel, streak fuel (List.filter (fun t => done t) inCat) now
                     = streak fuel inCat now).
Proof.
  destruct (streak_result inCat now) as (s & Hrun & Hall & Hstop).
  exists s. split; [exact Hrun |]. split; [| split].
  - set (ks := map (fun j : nat => keyOfDay (day now - Z.of_nat j)) (seq 0 s)).
    assert (Hnd : NoDup ks).
    { apply NoDup_fmap_2_strong; [| apply NoDup_seq].
      intros a b _ _ Hab. apply keyOfDay_inj in Hab. lia. }
    assert (Hsub : ks ⊆+ omap doneDay (List.filter (fun t => done t) inCat)).
    { apply NoDup_submseteq; [exact Hnd |]. intros k Hk.
      unfold ks in Hk. apply list_elem_of_fmap in Hk as (j & -> & Hj).
      apply elem_of_seq in Hj.
      destruct (proj1 (elem_of_doneDays inCat _) (Hall j ltac:(lia)))
        as [(t & Ht & Hd & Hk) _].
      apply list_elem_of_omap. exists t. split; [| exact Hk].
      apply elem_of_bool_filter. auto. }
    apply submseteq_length in Hsub.
    pose proof (omap_length_le doneDay (List.filter (fun t => done t) inCat)) as Hle.
    unfold ks in Hsub. rewrite length_map, length_seq in Hsub.
    unfold doneCount. lia.
  - intros Htoday. destruct s as [|s]; [| lia]. exfalso. apply Hstop.
    replace (day now - Z.of_nat 0) with (day now) by lia.
    apply keyOfDay_doneDays. now rewrite <- dayKey_keyOfDay.
  - intros fuel. unfold streak. now rewrite doneDays_of_done.
Qed.

(** X25. Completing a task of the selected category starts or keeps the
    streak: after [toggleTodo] on a task that was not done, the streak of
    the selected category, computed on the same day, is at least 1. *)
Theorem completing_a_task_starts_the_streak
    (e : Env) (i : string) (s : St.State) (current : Todo) :
  List.find (fun t => bool_decide (id t = i)) (St.todos s) = Some current ->
  done current = false ->
  category current = St.category s ->
  exists n : nat,
    (forall fuel,
        (length (todosInCat (St.todos (toggleTodo e i s)) (St.category s)) < fuel)%nat ->
        streak fuel (todosInCat (St.todos (toggleTodo e i s)) (St.category s)) (clock e)
        = Some n)
    /\ (1 <= n)%nat.
Proof.
  intros Hf Hd Hc.
  set (l := todosInCat (St.todos (toggleTodo e i s)) (St.category s)).
  assert (Hon : done_on l (dayKey (clock e))).
  { exists (toggled e current). split; [| unfold toggled; rewrite Hd; split; reflexivity].
    unfold l, todosInCat. apply elem_of_bool_filter. split.
    - rewrite (toggleTodo_todos e i s current Hf).
      apply list_elem_of_fmap. exists current.
      apply find_some in Hf as [Hin Hid]. split; [| now apply list_elem_of_In].
      now rewrite Hid.
    - apply bool_decide_eq_true_2. rewrite <- Hc.
      unfold toggled. rewrite Hd. reflexivity. }
  destruct (streak_result l (clock e)) as (n & Hrun & Hall & Hstop).
  exists n. split; [exact Hrun |].
  destruct n as [|n]; [| lia]. exfalso. apply Hstop.
  replace (day (clock e) - Z.of_nat 0) with (day (clock e)) by lia.
  apply keyOfDay_doneDays. now rewrite <- dayKey_keyOfDay.
Qed.

Lemma completing_a_task_starts_the_streak_witness :
  List.find (fun t => bool_decide (id t = "7d1f0c6e-0001"))
    (St.todos (form_state (Some "u1") daily [buy_milk])) = Some buy_milk
  /\ done buy_milk = false
  /\ category buy_milk = St.category (form_state (Some "u1") daily [buy_milk])
  /\ exists n : nat,
       (forall fuel,
           (length (todosInCat
                      (St.todos (toggleTodo sample_env "7d1f0c6e-0001"
                                   (form_state (Some "u1") daily [buy_milk])))
                      (St.category (form_state (Some "u1") daily [buy_milk]))) < fuel)%nat ->
           streak fuel
             (todosInCat
                (St.todos (toggleTodo sample_env "7d1f0c6e-0001"
                             (form_state (Some "u1") daily [buy_milk])))
                (St.category (form_state (Some "u1") daily [buy_milk])))
             (clock sample_env) = Some n)
       /\ (1 <= n)%nat.
Proof.
  split; [reflexivity |]. split; [reflexivity |]. split; [reflexivity |].
  exact (completing_a_task_starts_the_streak sample_env "7d1f0c6e-0001"
           (form_state (Some "u1") daily [buy_milk]) buy_milk
           eq_refl eq_refl eq_refl).
Defined.

(** ** The axis ceiling in general *)

Lemma niceCeil_large (n : Z) :
  100 < n ->
  0 < 10 ^ floor_log10 n
  /\ 10 ^ floor_log10 n <= n < 10 * 10 ^ floor_log10 n
  /\ niceCeil floor_log10 n
     = (if n <=? 2 * 10 ^ floor_log10 n then 2 * 10 ^ floor_log10 n
        else if n <=? 5 * 10 ^ floor_log10 n then 5 * 10 ^ floor_log10 n
        else 10 * 10 ^ floor_log10 n).
Proof.
  intros Hn. destruct (floor_log10_spec n ltac:(lia)) as (Hk & Hlo & Hhi).
  assert (Hp : 0 < 10 ^ floor_log10 n) by (apply Z.pow_pos_nonneg; lia).
  rewrite (Z.pow_add_r 10 _ 1) in Hhi by lia. change (10 ^ 1) with 10 in Hhi.
  split; [exact Hp |]. split; [lia |].
  now apply niceCeil_above.
Qed.

Lemma niceCeil_ge (n : Z) : n <= niceCeil floor_log10 n /\ 10 <= niceCeil floor_log10 n.
Proof.
  destruct (Z_le_gt_dec n 100) as [Hs | Hl].
  - rewrite niceCeil_small by exact Hs.
    destruct (Z.leb_spec n 10); [lia |]. destruct (Z.leb_spec n 20); [lia |].
    destruct (Z.leb_spec n 50); lia.
  - destruct (niceCeil_large n ltac:(lia)) as (Hp & Hb & ->).
    destruct (Z.leb_spec n (2 * 10 ^ floor_log10 n)); [lia |].
    destruct (Z.leb_spec n (5 * 10 ^ floor_log10 n)); lia.
Qed.

(** X26. With the logarithm taken exactly, for every count [n]: the axis
    ceiling is at least [n] and at least 10; above 10 it is less than two
    and a half times [n]; and it never decreases when [n] grows. *)
Theorem niceCeil_bounds_and_monotone :
  (forall n, n <= niceCeil floor_log10 n /\ 10 <= niceCeil floor_log10 n)
  /\ (forall n, 10 < n -> 2 * niceCeil floor_log10 n < 5 * n)
  /\ (forall n m, n <= m -> niceCeil floor_log10 n <= niceCeil floor_log10 m).
Proof.
  split; [exact niceCeil_ge |]. split.
  - intros n Hn. destruct (Z_le_gt_dec n 100) as [Hs | Hl].
    + rewrite niceCeil_small by exact Hs.
      destruct (Z.leb_spec n 10); [lia |]. destruct (Z.leb_spec n 20); [lia |].
      destruct (Z.leb_spec n 50); lia.
    + destruct (niceCeil_large n ltac:(lia)) as (Hp & Hb & ->).
      destruct (Z.leb_spec n (2 * 10 ^ floor_log10 n)); [lia |].
      destruct (Z.leb_spec n (5 * 10 ^ floor_log10 n)); lia.
  - intros n m Hnm. destruct (Z_le_gt_dec m 100) as [Hm | Hm].
    + rewrite !niceCeil_small by lia.
      destruct (Z.leb_spec n 10); destruct (Z.leb_spec m 10); try lia;
        destruct (Z.leb_spec n 20); destruct (Z.leb_spec m 20); try lia;
        destruct (Z.leb_spec n 50); destruct (Z.leb_spec m 50); lia.
    + destruct (Z_le_gt_dec n 100) as [Hn | Hn].
      { pose proof (proj1 (niceCeil_ge m)). rewrite niceCeil_small by exact Hn.
        destruct (n <=? 10); [lia |]. destruct (n <=? 20); [lia |].
        destruct (n <=? 50); lia. }
      destruct (niceCeil_large n ltac:(lia)) as (Hpn & Hbn & ->).
      destruct (niceCeil_large m ltac:(lia)) as (Hpm & Hbm & ->).
      destruct (floor_log10_spec n ltac:(lia)) as (Hkn & _).
      destruct (floor_log10_spec m ltac:(lia)) as (Hkm & _).
      set (a := floor_log10 n) in *. set (b := floor_log10 m) in *.
      destruct (Z.lt_trichotomy a b) as [Hlt | [Heq | Hgt]].
      * assert (Hpow : 10 * 10 ^ a <= 10 ^ b).
        { replace (10 * 10 ^ a) with (10 ^ (a + 1))
            by (rewrite Z.pow_add_r by lia; change (10 ^ 1) with 10; lia).
          apply Z.pow_le_mono_r; lia. }
        destruct (Z.leb_spec n (2 * 10 ^ a)); destruct (Z.leb_spec m (2 * 10 ^ b));
          try lia;
          destruct (Z.leb_spec n (5 * 10 ^ a)); destruct (Z.leb_spec m (5 * 10 ^ b));
          lia.
      * rewrite <- Heq in *.
        destruct (Z.leb_spec n (2 * 10 ^ a)); destruct (Z.leb_spec m (2 * 10 ^ a));
          try lia;
          destruct (Z.leb_spec n (5 * 10 ^ a)); destruct (Z.leb_spec m (5 * 10 ^ a));
          lia.
      * exfalso.
        assert (Hpow : 10 * 10 ^ b <= 10 ^ a).
        { replace (10 * 10 ^ b) with (10 ^ (b + 1))
            by (rewrite Z.pow_add_r by lia; change (10 ^ 1) with 10; lia).
          apply Z.pow_le_mono_r; lia. }
        lia.
Qed.

Lemma dataMax_ge (values : list Z) :
  0 <= dataMax values /\ Forall (fun v => v <= dataMax values) values.
Proof.
  unfold dataMax. induction values as [|v values [IH0 IH]]; cbn [foldr].
  - split; [lia | constructor].
  - split; [lia |]. constructor; [lia |].
    eapply Forall_impl; [exact IH |]. cbn. intros x Hx. lia.
Qed.

(** X27. The vertical axis of the chart covers the series it is drawn
    for: every value of the 14-day series lies between 0 and [yMax], and
    [yMax] is at least 10, so the scale [yMax - yMin] is never zero. *)
Theorem chart_axis_covers_the_series (inCat : list Todo) (now : Date) :
  Forall (fun v => 0 <= v <= yMax floor_log10 (last14 inCat now)) (last14 inCat now)
  /\ 10 <= yMax floor_log10 (last14 inCat now).
Proof.
  split; [| apply niceCeil_ge].
  destruct (dataMax_ge (last14 inCat now)) as [_ Hmax].
  apply Forall_forall. intros v Hv.
  pose proof (proj1 (Forall_forall _ _) Hmax v Hv) as Hle. cbn in Hle.
  split.
  - apply list_elem_of_lookup_1 in Hv as [i Hv].
    rewrite (last14_value inCat now i v Hv). lia.
  - unfold yMax.
    pose proof (proj1 (niceCeil_ge (Z.max 1 (dataMax (last14 inCat now))))). lia.
Qed.

(** ** The text of a created task *)

Lemma string_app_assoc (a b c : string) : (a +:+ b) +:+ c = a +:+ (b +:+ c).
Proof.
  induction a as [|x a IH]; [reflexivity |].
  change (String x ((a +:+ b) +:+ c) = String x (a +:+ (b +:+ c))). now rewrite IH.
Qed.

Lemma string_app_nil_r (a : string) : a +:+ "" = a.
Proof.
  induction a as [|x a IH]; [reflexivity |].
  change (String x (a +:+ "") = String x a). now rewrite IH.
Qed.

Lemma rev_app_spec (s1 s2 : string) : String.rev_app s1 s2 = String.rev s1 +:+ s2.
Proof.
  revert s2. induction s1 as [|c s1 IH]; intros s2; [reflexivity |].
  change (String.rev_app s1 (String c s2) = String.rev_app s1 (String c "") +:+ s2).
  rewrite (IH (String c s2)), (IH (String c "")), string_app_assoc. reflexivity.
Qed.

Lemma rev_cons (c : Ascii.ascii) (s : string) :
  String.rev (String c s) = String.rev s +:+ String c "".
Proof. change (String.rev (String c s)) with (String.rev_app s (String c "")). apply rev_app_spec. Qed.

Lemma rev_app_distr (a b : string) : String.rev (a +:+ b) = String.rev b +:+ String.rev a.
Proof.
  induction a as [|c a IH].
  - change ("" +:+ b) with b. change (String.rev "") with "". now rewrite string_app_nil_r.
  - change (String c a +:+ b) with (String c (a +:+ b)).
    rewrite !rev_cons, IH. apply string_app_assoc.
Qed.

Lemma rev_involutive (s : string) : String.rev (String.rev s) = s.
Proof.
  induction s as [|c s IH]; [reflexivity |].
  rewrite rev_cons, rev_app_distr, IH. reflexivity.
Qed.

Lemma all_white_app (a b : string) : all_white (a +:+ b) = all_white a && all_white b.
Proof.
  induction a as [|c a IH]; [reflexivity |].
  change (String c a +:+ b) with (String c (a +:+ b)). cbn [all_white].
  rewrite IH. now rewrite andb_assoc.
Qed.

Lemma all_white_rev (a : string) : all_white (String.rev a) = all_white a.
Proof.
  induction a as [|c a IH]; [reflexivity |].
  rewrite rev_cons, all_white_app, IH. cbn [all_white].
  rewrite andb_true_r. apply andb_comm.
Qed.

Lemma ends_white_snoc (a : string) (c : Ascii.ascii) :
  ends_white (a +:+ String c "") = is_white_space c.
Proof.
  induction a as [|x a IH]; [reflexivity |].
  change (String x a +:+ String c "") with (String x (a +:+ String c "")).
  cbn [ends_white]. rewrite IH.
  destruct a; reflexivity.
Qed.

Lemma ends_white_rev (s : string) : ends_white (String.rev s) = starts_white s.
Proof.
  destruct s as [|c s]; [reflexivity |]. rewrite rev_cons. apply ends_white_snoc.
Qed.

Lemma trimStart_spec (s : string) :
  exists a, s = a +:+ trimStart s /\ all_white a = true
            /\ starts_white (trimStart s) = false.
Proof.
  induction s as [|c s (a & Hs & Ha & Hst)].
  - exists "". auto.
  - cbn [trimStart]. destruct (is_white_space c) eqn:Hc.
    + exists (String c a). split; [| split; [| exact Hst]].
      * change (String c a +:+ trimStart s) with (String c (a +:+ trimStart s)).
        now rewrite <- Hs.
      * cbn [all_white]. now rewrite Hc, Ha.
    + exists "". split; [reflexivity |]. split; [reflexivity | exact Hc].
Qed.

Lemma trimEnd_spec (s : string) :
  exists b, s = trimEnd s +:+ b /\ all_white b = true
            /\ ends_white (trimEnd s) = false.
Proof.
  destruct (trimStart_spec (String.rev s)) as (a & Hs & Ha & Hst).
  exists (String.rev a). unfold trimEnd. split; [| split].
  - rewrite <- rev_app_distr, <- Hs. symmetry. apply rev_involutive.
  - now rewrite all_white_rev.
  - now rewrite ends_white_rev.
Qed.

Lemma trim_spec (s : string) :
  exists a b, s = a +:+ trim s +:+ b
    /\ all_white a = true /\ all_white b = true
    /\ starts_white (trim s) = false /\ ends_white (trim s) = false.
Proof.
  destruct (trimStart_spec s) as (a & Hs & Ha & Hst).
  destruct (trimEnd_spec (trimStart s)) as (b & Hts & Hb & Hen).
  exists a, b. unfold trim. split; [| split; [exact Ha | split; [exact Hb | split]]].
  - now rewrite <- Hts.
  - destruct (trimEnd (trimStart s)) as [|c r] eqn:He; [reflexivity |].
    rewrite Hts in Hst. exact Hst.
  - exact Hen.
Qed.

Lemma trim_blank (s : string) : trim s = "" <-> all_white s = true.
Proof.
  split.
  - intros He. destruct (trim_spec s) as (a & b & Hs & Ha & Hb & _).
    rewrite He in Hs. rewrite Hs, !all_white_app, Ha, Hb. reflexivity.
  - intros Hw. unfold trim.
    assert (Hts : trimStart s = "").
    { induction s as [|c s IH]; [reflexivity |]. cbn [all_white] in Hw.
      apply andb_prop in Hw as [Hc Hw]. cbn [trimStart]. rewrite Hc. now apply IH. }
    rewrite Hts. reflexivity.
Qed.

Lemma trim_trimmed_of (s : string) :
  truthy (trim s) = true -> trimmed_of s (trim s).
Proof.
  intros Ht. destruct (trim_spec s) as (a & b & Hs & Ha & Hb & Hst & Hen).
  exists a, b. split; [exact Hs |]. split; [exact Ha |]. split; [exact Hb |].
  split; [| auto]. intros He. unfold truthy in Ht. rewrite He in Ht. discriminate Ht.
Qed.

Lemma trim_not_truthy (s : string) : truthy (trim s) = false -> all_white s = true.
Proof.
  intros Ht. apply trim_blank. unfold truthy in Ht.
  apply negb_false_iff, bool_decide_eq_true_1 in Ht. exact Ht.
Qed.

(** X28. What the add handlers store as the text, for a signed-in user:
    when the typed text is white space only, nothing is created and the
    state is left as it was; otherwise the new task's text is the typed
    text without the white space at its two ends, it is not empty and it
    neither begins nor ends with white space. The same holds for the
    inline form and its own text field. *)
Theorem created_text_is_the_typed_text_trimmed
    (DateParse : string -> option Date) (e : Env) (day : string) (s : St.State)
    (uid : string) :
  St.user s = Some uid ->
  ((all_white (St.text s) = true /\ addTodo e s = s)
   \/ (exists t, St.todos (addTodo e s) = t :: St.todos s
                 /\ trimmed_of (St.text s) (text t)))
  /\ ((all_white (St.inlineText s) = true /\ addTodoInline DateParse e day s = s)
      \/ (exists t, St.todos (addTodoInline DateParse e day s) = t :: St.todos s
                    /\ trimmed_of (St.inlineText s) (text t))).
Proof.
  intros Hu. split.
  - destruct (truthy (trim (St.text s))) eqn:Ht.
    + right. exists (newTodo_add e s (trim (St.text s))).
      split; [apply (addTodo_signed_in e s uid Hu Ht) |].
      destruct (newTodo_add_fields e s (trim (St.text s))) as (_ & -> & _).
      now apply trim_trimmed_of.
    + left. split; [now apply trim_not_truthy | now apply addTodo_blank].
  - destruct (truthy (trim (St.inlineText s))) eqn:Ht.
    + right. exists (newTodo_inline DateParse e s (trim (St.inlineText s)) day).
      split; [apply (addTodoInline_signed_in DateParse e day s uid Hu Ht) |].
      destruct (newTodo_inline_fields DateParse e s (trim (St.inlineText s)) day)
        as (_ & -> & _).
      now apply trim_trimmed_of.
    + left. split; [now apply trim_not_truthy | now apply addTodoInline_blank].
Qed.

Lemma created_text_is_the_typed_text_trimmed_witness :
  St.user (form_state (Some "u1") daily [leg_day]) = Some "u1"
  /\ ((all_white (St.text (form_state (Some "u1") daily [leg_day])) = true
       /\ addTodo sample_env (form_state (Some "u1") daily [leg_day])
          = form_state (Some "u1") daily [leg_day])
      \/ (exists t,
            St.todos (addTodo sample_env (form_state (Some "u1") daily [leg_day]))
            = t :: St.todos (form_state (Some "u1") daily [leg_day])
            /\ trimmed_of (St.text (form_state (Some "u1") daily [leg_day])) (text t))).
Proof.
  split; [reflexivity |].
  exact (proj1 (created_text_is_the_typed_text_trimmed (fun _ => None) sample_env
                  "2024-03-01" (form_state (Some "u1") daily [leg_day]) "u1" eq_refl)).
Defined.

(** ** The document mappers, field by field *)

(** X29. The document written for a task has exactly nine fields, the
    eight task fields and [updatedAt], and none of them is [undefined]:
    an optional field the task lacks is written as [null], and only
    then. *)
Theorem toFirestoreTodo_writes_nine_defined_fields (t : Todo) :
  dom (toFirestoreTodo t) = list_to_set (todo_fields ++ ["updatedAt"])
  /\ map_Forall (fun _ v => v <> JUndefined) (toFirestoreTodo t)
  /\ (prop (toFirestoreTodo t) "doneAt" = JNull <-> doneAt t = None)
  /\ (prop (toFirestoreTodo t) "doneDay" = JNull <-> doneDay t = None)
  /\ (prop (toFirestoreTodo t) "dueDay" = JNull <-> dueDay t = None)
  /\ (prop (toFirestoreTodo t) "workoutPart" = JNull <-> workoutPart t = None).
Proof.
  split; [| split].
  - unfold toFirestoreTodo. rewrite !dom_insert_L, dom_empty_L.
    apply set_eq. intros k. cbn [todo_fields app list_to_set].
    rewrite !elem_of_union, !elem_of_singleton. tauto.
  - unfold toFirestoreTodo.
    repeat (apply map_Forall_insert_2;
            [first [discriminate
                   | destruct (doneAt t); discriminate
                   | destruct (doneDay t); discriminate
                   | destruct (dueDay t); discriminate
                   | destruct (workoutPart t); discriminate] |]).
    apply map_Forall_empty.
  - rewrite <- (updatedAt_overwritten t).
    rewrite written_doneAt, written_doneDay, written_dueDay, written_workoutPart.
    destruct (doneAt t), (doneDay t), (dueDay t), (workoutPart t); cbn;
      repeat split; intros H; first [reflexivity | discriminate H].
Qed.

Lemma same_field_nullish_or (d1 d2 : gmap string jsval) (k : string) (v : jsval) :
  same_field d1 d2 k -> nullish_or (prop d1 k) v = nullish_or (prop d2 k) v.
Proof.
  intros [H | [H1 H2]]; [now rewrite H |]. unfold nullish_or. now rewrite H1, H2.
Qed.

Lemma same_field_optional {A} (d1 d2 : gmap string jsval) (k : string)
    (f : jsval -> A) :
  same_field d1 d2 k ->
  (if is_nullish (prop d1 k) then None else Some (f (prop d1 k)))
  = (if is_nullish (prop d2 k) then None else Some (f (prop d2 k))).
Proof. intros [H | [H1 H2]]; [now rewrite H | now rewrite H1, H2]. Qed.

(** X30. Reading a document looks at the eight task fields only, and
    treats a field holding [null] like a missing one: two documents that
    agree on each of the eight fields, or hold nothing in it, are read as
    the same task, whatever else they contain. *)
Theorem fromFirestoreTodo_reads_the_task_fields
    (StringToNumber : string -> number) (now : Z) (i : string)
    (d1 d2 : gmap string jsval) :
  Forall (same_field d1 d2) todo_fields ->
  fromFirestoreTodo StringToNumber now i d1 = fromFirestoreTodo StringToNumber now i d2.
Proof.
  intros H. unfold todo_fields in H.
  repeat match goal with
         | H : Forall _ (_ :: _) |- _ => apply Forall_cons in H as [? H]
         end.
  unfold fromFirestoreTodo.
  rewrite (same_field_nullish_or d1 d2 "text") by assumption.
  rewrite (same_field_nullish_or d1 d2 "done") by assumption.
  rewrite (same_field_nullish_or d1 d2 "createdAt") by assumption.
  rewrite (same_field_nullish_or d1 d2 "category") by assumption.
  rewrite (same_field_optional d1 d2 "doneAt" (ToNumber StringToNumber)) by assumption.
  rewrite (same_field_optional d1 d2 "doneDay" ToString) by assumption.
  rewrite (same_field_optional d1 d2 "dueDay" ToString) by assumption.
  f_equal. apply (same_field_optional d1 d2 "workoutPart" ToString). assumption.
Qed.

Lemma fromFirestoreTodo_reads_the_task_fields_witness :
  Forall (same_field (<["text" := JStr "Run"]> (<["doneAt" := JNull]>
                        (<["owner" := JNum (Num 5)]> ∅)))
                     (<["text" := JStr "Run"]> ∅)) todo_fields
  /\ fromFirestoreTodo (fun _ => NaN) 0 "a"
       (<["text" := JStr "Run"]> (<["doneAt" := JNull]> (<["owner" := JNum (Num 5)]> ∅)))
     = fromFirestoreTodo (fun _ => NaN) 0 "a" (<["text" := JStr "Run"]> ∅).
Proof.
  assert (H : Forall (same_field (<["text" := JStr "Run"]> (<["doneAt" := JNull]>
                                    (<["owner" := JNum (Num 5)]> ∅)))
                                 (<["text" := JStr "Run"]> ∅)) todo_fields).
  { unfold todo_fields. repeat constructor;
      first [left; vm_compute; reflexivity | right; vm_compute; split; reflexivity]. }
  split; [exact H |].
  exact (fromFirestoreTodo_reads_the_task_fields (fun _ => NaN) 0 "a" _ _ H).
Defined.
